(** * The companion-app socket server of [musicbot/socket_server.py]

    A shallow embedding of the class [SocketServer]: the registry tables
    ([server_ids], [sockets_by_user], [awaiting_registeration]), the
    framing of outgoing messages, the per-connection read loop
    [connection_maintainer] with its teardown, the registration handshake
    [register_handler], the two broadcasts and the state snapshot
    [get_player_values].

    Python values are modelled as follows.
    - A [str] is the list of its code points ([pystr]); [len] is the
      length of that list.  A [bytes] object is a list of octets.
    - A [dict] is an association list in insertion order with one entry
      per key ([Dict]); iteration visits the entries in that order.
    - A socket is known by its identity, a number.
    - Statements that touch the server object, a socket, the event loop
      or standard output run in the monad [M]: a function from the world
      before to an outcome, which is a value or a raised exception, each
      together with the world after.  An exception keeps every effect
      made before it was raised. *)

From Stdlib Require Import List String Ascii NArith ZArith QArith Bool Arith Lia.
From Stdlib Require Import DecimalNat.
Import ListNotations.
Close Scope Q_scope.

Set Implicit Arguments.

(** ** Python strings, bytes and the builtins the module calls *)

Module Py.

Definition pystr := list N.
Definition bytes := list N.

(** A literal of the source, as code points. *)
Definition py (s : string) : pystr := map N_of_ascii (list_ascii_of_string s).

Fixpoint str_eqb (a b : pystr) : bool :=
  match a, b with
  | [], [] => true
  | x :: a', y :: b' => (x =? y)%N && str_eqb a' b'
  | _, _ => false
  end.

(** [x in [a; b; ...]] for strings. *)
Definition str_in (x : pystr) (l : list pystr) : bool := existsb (str_eqb x) l.

(** [str.lower] and [str.upper], as CPython computes them: one code point
    at a time through the full case mapping of the Unicode character
    database, which may give more than one code point (the sharp s
    becomes SS in upper case), with one rule that looks at the
    neighbours, for the capital sigma in [lower].  The tables are those of
    Unicode 14.0.0.

    On ASCII text only the letters change, by arithmetic. *)
Definition lower_cp (c : N) : N :=
  if ((65 <=? c) && (c <=? 90))%N then (c + 32)%N else c.
Definition upper_cp (c : N) : N :=
  if ((97 <=? c) && (c <=? 122))%N then (c - 32)%N else c.

(** The mappings past ASCII.  A range [(first, last, step, image)] maps
    [first + step * i], up to [last], to [image + step * i]; the code
    points whose image is not one code point are listed one by one.  A
    code point in neither list is its own image. *)
Definition case_range := (N * N * N * N)%type.

Definition lower_ranges : list case_range :=
  [ (0xC0, 0xD6, 1, 0xE0); (0xD8, 0xDE, 1, 0xF8); (0x100, 0x12E, 2, 0x101);
    (0x132, 0x136, 2, 0x133); (0x139, 0x147, 2, 0x13A);
    (0x14A, 0x176, 2, 0x14B); (0x178, 0x178, 1, 0xFF); (0x179, 0x17D, 2, 0x17A);
    (0x181, 0x181, 1, 0x253); (0x182, 0x184, 2, 0x183);
    (0x186, 0x186, 1, 0x254); (0x187, 0x187, 1, 0x188);
    (0x189, 0x18A, 1, 0x256); (0x18B, 0x18B, 1, 0x18C);
    (0x18E, 0x18E, 1, 0x1DD); (0x18F, 0x18F, 1, 0x259);
    (0x190, 0x190, 1, 0x25B); (0x191, 0x191, 1, 0x192);
    (0x193, 0x193, 1, 0x260); (0x194, 0x194, 1, 0x263);
    (0x196, 0x196, 1, 0x269); (0x197, 0x197, 1, 0x268);
    (0x198, 0x198, 1, 0x199); (0x19C, 0x19C, 1, 0x26F);
    (0x19D, 0x19D, 1, 0x272); (0x19F, 0x19F, 1, 0x275);
    (0x1A0, 0x1A4, 2, 0x1A1); (0x1A6, 0x1A6, 1, 0x280);
    (0x1A7, 0x1A7, 1, 0x1A8); (0x1A9, 0x1A9, 1, 0x283);
    (0x1AC, 0x1AC, 1, 0x1AD); (0x1AE, 0x1AE, 1, 0x288);
    (0x1AF, 0x1AF, 1, 0x1B0); (0x1B1, 0x1B2, 1, 0x28A);
    (0x1B3, 0x1B5, 2, 0x1B4); (0x1B7, 0x1B7, 1, 0x292);
    (0x1B8, 0x1B8, 1, 0x1B9); (0x1BC, 0x1BC, 1, 0x1BD);
    (0x1C4, 0x1C4, 1, 0x1C6); (0x1C5, 0x1C5, 1, 0x1C6);
    (0x1C7, 0x1C7, 1, 0x1C9); (0x1C8, 0x1C8, 1, 0x1C9);
    (0x1CA, 0x1CA, 1, 0x1CC); (0x1CB, 0x1DB, 2, 0x1CC);
    (0x1DE, 0x1EE, 2, 0x1DF); (0x1F1, 0x1F1, 1, 0x1F3);
    (0x1F2, 0x1F4, 2, 0x1F3); (0x1F6, 0x1F6, 1, 0x195);
    (0x1F7, 0x1F7, 1, 0x1BF); (0x1F8, 0x21E, 2, 0x1F9);
    (0x220, 0x220, 1, 0x19E); (0x222, 0x232, 2, 0x223);
    (0x23A, 0x23A, 1, 0x2C65); (0x23B, 0x23B, 1, 0x23C);
    (0x23D, 0x23D, 1, 0x19A); (0x23E, 0x23E, 1, 0x2C66);
    (0x241, 0x241, 1, 0x242); (0x243, 0x243, 1, 0x180);
    (0x244, 0x244, 1, 0x289); (0x245, 0x245, 1, 0x28C);
    (0x246, 0x24E, 2, 0x247); (0x370, 0x372, 2, 0x371);
    (0x376, 0x376, 1, 0x377); (0x37F, 0x37F, 1, 0x3F3);
    (0x386, 0x386, 1, 0x3AC); (0x388, 0x38A, 1, 0x3AD);
    (0x38C, 0x38C, 1, 0x3CC); (0x38E, 0x38F, 1, 0x3CD);
    (0x391, 0x3A1, 1, 0x3B1); (0x3A3, 0x3AB, 1, 0x3C3);
    (0x3CF, 0x3CF, 1, 0x3D7); (0x3D8, 0x3EE, 2, 0x3D9);
    (0x3F4, 0x3F4, 1, 0x3B8); (0x3F7, 0x3F7, 1, 0x3F8);
    (0x3F9, 0x3F9, 1, 0x3F2); (0x3FA, 0x3FA, 1, 0x3FB);
    (0x3FD, 0x3FF, 1, 0x37B); (0x400, 0x40F, 1, 0x450);
    (0x410, 0x42F, 1, 0x430); (0x460, 0x480, 2, 0x461);
    (0x48A, 0x4BE, 2, 0x48B); (0x4C0, 0x4C0, 1, 0x4CF);
    (0x4C1, 0x4CD, 2, 0x4C2); (0x4D0, 0x52E, 2, 0x4D1);
    (0x531, 0x556, 1, 0x561); (0x10A0, 0x10C5, 1, 0x2D00);
    (0x10C7, 0x10C7, 1, 0x2D27); (0x10CD, 0x10CD, 1, 0x2D2D);
    (0x13A0, 0x13EF, 1, 0xAB70); (0x13F0, 0x13F5, 1, 0x13F8);
    (0x1C90, 0x1CBA, 1, 0x10D0); (0x1CBD, 0x1CBF, 1, 0x10FD);
    (0x1E00, 0x1E94, 2, 0x1E01); (0x1E9E, 0x1E9E, 1, 0xDF);
    (0x1EA0, 0x1EFE, 2, 0x1EA1); (0x1F08, 0x1F0F, 1, 0x1F00);
    (0x1F18, 0x1F1D, 1, 0x1F10); (0x1F28, 0x1F2F, 1, 0x1F20);
    (0x1F38, 0x1F3F, 1, 0x1F30); (0x1F48, 0x1F4D, 1, 0x1F40);
    (0x1F59, 0x1F5F, 2, 0x1F51); (0x1F68, 0x1F6F, 1, 0x1F60);
    (0x1F88, 0x1F8F, 1, 0x1F80); (0x1F98, 0x1F9F, 1, 0x1F90);
    (0x1FA8, 0x1FAF, 1, 0x1FA0); (0x1FB8, 0x1FB9, 1, 0x1FB0);
    (0x1FBA, 0x1FBB, 1, 0x1F70); (0x1FBC, 0x1FBC, 1, 0x1FB3);
    (0x1FC8, 0x1FCB, 1, 0x1F72); (0x1FCC, 0x1FCC, 1, 0x1FC3);
    (0x1FD8, 0x1FD9, 1, 0x1FD0); (0x1FDA, 0x1FDB, 1, 0x1F76);
    (0x1FE8, 0x1FE9, 1, 0x1FE0); (0x1FEA, 0x1FEB, 1, 0x1F7A);
    (0x1FEC, 0x1FEC, 1, 0x1FE5); (0x1FF8, 0x1FF9, 1, 0x1F78);
    (0x1FFA, 0x1FFB, 1, 0x1F7C); (0x1FFC, 0x1FFC, 1, 0x1FF3);
    (0x2126, 0x2126, 1, 0x3C9); (0x212A, 0x212A, 1, 0x6B);
    (0x212B, 0x212B, 1, 0xE5); (0x2132, 0x2132, 1, 0x214E);
    (0x2160, 0x216F, 1, 0x2170); (0x2183, 0x2183, 1, 0x2184);
    (0x24B6, 0x24CF, 1, 0x24D0); (0x2C00, 0x2C2F, 1, 0x2C30);
    (0x2C60, 0x2C60, 1, 0x2C61); (0x2C62, 0x2C62, 1, 0x26B);
    (0x2C63, 0x2C63, 1, 0x1D7D); (0x2C64, 0x2C64, 1, 0x27D);
    (0x2C67, 0x2C6B, 2, 0x2C68); (0x2C6D, 0x2C6D, 1, 0x251);
    (0x2C6E, 0x2C6E, 1, 0x271); (0x2C6F, 0x2C6F, 1, 0x250);
    (0x2C70, 0x2C70, 1, 0x252); (0x2C72, 0x2C72, 1, 0x2C73);
    (0x2C75, 0x2C75, 1, 0x2C76); (0x2C7E, 0x2C7F, 1, 0x23F);
    (0x2C80, 0x2CE2, 2, 0x2C81); (0x2CEB, 0x2CED, 2, 0x2CEC);
    (0x2CF2, 0x2CF2, 1, 0x2CF3); (0xA640, 0xA66C, 2, 0xA641);
    (0xA680, 0xA69A, 2, 0xA681); (0xA722, 0xA72E, 2, 0xA723);
    (0xA732, 0xA76E, 2, 0xA733); (0xA779, 0xA77B, 2, 0xA77A);
    (0xA77D, 0xA77D, 1, 0x1D79); (0xA77E, 0xA786, 2, 0xA77F);
    (0xA78B, 0xA78B, 1, 0xA78C); (0xA78D, 0xA78D, 1, 0x265);
    (0xA790, 0xA792, 2, 0xA791); (0xA796, 0xA7A8, 2, 0xA797);
    (0xA7AA, 0xA7AA, 1, 0x266); (0xA7AB, 0xA7AB, 1, 0x25C);
    (0xA7AC, 0xA7AC, 1, 0x261); (0xA7AD, 0xA7AD, 1, 0x26C);
    (0xA7AE, 0xA7AE, 1, 0x26A); (0xA7B0, 0xA7B0, 1, 0x29E);
    (0xA7B1, 0xA7B1, 1, 0x287); (0xA7B2, 0xA7B2, 1, 0x29D);
    (0xA7B3, 0xA7B3, 1, 0xAB53); (0xA7B4, 0xA7C2, 2, 0xA7B5);
    (0xA7C4, 0xA7C4, 1, 0xA794); (0xA7C5, 0xA7C5, 1, 0x282);
    (0xA7C6, 0xA7C6, 1, 0x1D8E); (0xA7C7, 0xA7C9, 2, 0xA7C8);
    (0xA7D0, 0xA7D0, 1, 0xA7D1); (0xA7D6, 0xA7D8, 2, 0xA7D7);
    (0xA7F5, 0xA7F5, 1, 0xA7F6); (0xFF21, 0xFF3A, 1, 0xFF41);
    (0x10400, 0x10427, 1, 0x10428); (0x104B0, 0x104D3, 1, 0x104D8);
    (0x10570, 0x1057A, 1, 0x10597); (0x1057C, 0x1058A, 1, 0x105A3);
    (0x1058C, 0x10592, 1, 0x105B3); (0x10594, 0x10595, 1, 0x105BB);
    (0x10C80, 0x10CB2, 1, 0x10CC0); (0x118A0, 0x118BF, 1, 0x118C0);
    (0x16E40, 0x16E5F, 1, 0x16E60); (0x1E900, 0x1E921, 1, 0x1E922) ]%N.

Definition lower_special : list (N * pystr) :=
  [ (0x130, [0x69; 0x307]) ]%N.

Definition upper_ranges : list case_range :=
  [ (0xB5, 0xB5, 1, 0x39C); (0xE0, 0xF6, 1, 0xC0); (0xF8, 0xFE, 1, 0xD8);
    (0xFF, 0xFF, 1, 0x178); (0x101, 0x12F, 2, 0x100); (0x131, 0x131, 1, 0x49);
    (0x133, 0x137, 2, 0x132); (0x13A, 0x148, 2, 0x139);
    (0x14B, 0x177, 2, 0x14A); (0x17A, 0x17E, 2, 0x179); (0x17F, 0x17F, 1, 0x53);
    (0x180, 0x180, 1, 0x243); (0x183, 0x185, 2, 0x182);
    (0x188, 0x188, 1, 0x187); (0x18C, 0x18C, 1, 0x18B);
    (0x192, 0x192, 1, 0x191); (0x195, 0x195, 1, 0x1F6);
    (0x199, 0x199, 1, 0x198); (0x19A, 0x19A, 1, 0x23D);
    (0x19E, 0x19E, 1, 0x220); (0x1A1, 0x1A5, 2, 0x1A0);
    (0x1A8, 0x1A8, 1, 0x1A7); (0x1AD, 0x1AD, 1, 0x1AC);
    (0x1B0, 0x1B0, 1, 0x1AF); (0x1B4, 0x1B6, 2, 0x1B3);
    (0x1B9, 0x1B9, 1, 0x1B8); (0x1BD, 0x1BD, 1, 0x1BC);
    (0x1BF, 0x1BF, 1, 0x1F7); (0x1C5, 0x1C5, 1, 0x1C4);
    (0x1C6, 0x1C6, 1, 0x1C4); (0x1C8, 0x1C8, 1, 0x1C7);
    (0x1C9, 0x1C9, 1, 0x1C7); (0x1CB, 0x1CB, 1, 0x1CA);
    (0x1CC, 0x1CC, 1, 0x1CA); (0x1CE, 0x1DC, 2, 0x1CD);
    (0x1DD, 0x1DD, 1, 0x18E); (0x1DF, 0x1EF, 2, 0x1DE);
    (0x1F2, 0x1F2, 1, 0x1F1); (0x1F3, 0x1F3, 1, 0x1F1);
    (0x1F5, 0x1F5, 1, 0x1F4); (0x1F9, 0x21F, 2, 0x1F8);
    (0x223, 0x233, 2, 0x222); (0x23C, 0x23C, 1, 0x23B);
    (0x23F, 0x240, 1, 0x2C7E); (0x242, 0x242, 1, 0x241);
    (0x247, 0x24F, 2, 0x246); (0x250, 0x250, 1, 0x2C6F);
    (0x251, 0x251, 1, 0x2C6D); (0x252, 0x252, 1, 0x2C70);
    (0x253, 0x253, 1, 0x181); (0x254, 0x254, 1, 0x186);
    (0x256, 0x257, 1, 0x189); (0x259, 0x259, 1, 0x18F);
    (0x25B, 0x25B, 1, 0x190); (0x25C, 0x25C, 1, 0xA7AB);
    (0x260, 0x260, 1, 0x193); (0x261, 0x261, 1, 0xA7AC);
    (0x263, 0x263, 1, 0x194); (0x265, 0x265, 1, 0xA78D);
    (0x266, 0x266, 1, 0xA7AA); (0x268, 0x268, 1, 0x197);
    (0x269, 0x269, 1, 0x196); (0x26A, 0x26A, 1, 0xA7AE);
    (0x26B, 0x26B, 1, 0x2C62); (0x26C, 0x26C, 1, 0xA7AD);
    (0x26F, 0x26F, 1, 0x19C); (0x271, 0x271, 1, 0x2C6E);
    (0x272, 0x272, 1, 0x19D); (0x275, 0x275, 1, 0x19F);
    (0x27D, 0x27D, 1, 0x2C64); (0x280, 0x280, 1, 0x1A6);
    (0x282, 0x282, 1, 0xA7C5); (0x283, 0x283, 1, 0x1A9);
    (0x287, 0x287, 1, 0xA7B1); (0x288, 0x288, 1, 0x1AE);
    (0x289, 0x289, 1, 0x244); (0x28A, 0x28B, 1, 0x1B1);
    (0x28C, 0x28C, 1, 0x245); (0x292, 0x292, 1, 0x1B7);
    (0x29D, 0x29D, 1, 0xA7B2); (0x29E, 0x29E, 1, 0xA7B0);
    (0x345, 0x345, 1, 0x399); (0x371, 0x373, 2, 0x370);
    (0x377, 0x377, 1, 0x376); (0x37B, 0x37D, 1, 0x3FD);
    (0x3AC, 0x3AC, 1, 0x386); (0x3AD, 0x3AF, 1, 0x388);
    (0x3B1, 0x3C1, 1, 0x391); (0x3C2, 0x3C2, 1, 0x3A3);
    (0x3C3, 0x3CB, 1, 0x3A3); (0x3CC, 0x3CC, 1, 0x38C);
    (0x3CD, 0x3CE, 1, 0x38E); (0x3D0, 0x3D0, 1, 0x392);
    (0x3D1, 0x3D1, 1, 0x398); (0x3D5, 0x3D5, 1, 0x3A6);
    (0x3D6, 0x3D6, 1, 0x3A0); (0x3D7, 0x3D7, 1, 0x3CF);
    (0x3D9, 0x3EF, 2, 0x3D8); (0x3F0, 0x3F0, 1, 0x39A);
    (0x3F1, 0x3F1, 1, 0x3A1); (0x3F2, 0x3F2, 1, 0x3F9);
    (0x3F3, 0x3F3, 1, 0x37F); (0x3F5, 0x3F5, 1, 0x395);
    (0x3F8, 0x3F8, 1, 0x3F7); (0x3FB, 0x3FB, 1, 0x3FA);
    (0x430, 0x44F, 1, 0x410); (0x450, 0x45F, 1, 0x400);
    (0x461, 0x481, 2, 0x460); (0x48B, 0x4BF, 2, 0x48A);
    (0x4C2, 0x4CE, 2, 0x4C1); (0x4CF, 0x4CF, 1, 0x4C0);
    (0x4D1, 0x52F, 2, 0x4D0); (0x561, 0x586, 1, 0x531);
    (0x10D0, 0x10FA, 1, 0x1C90); (0x10FD, 0x10FF, 1, 0x1CBD);
    (0x13F8, 0x13FD, 1, 0x13F0); (0x1C80, 0x1C80, 1, 0x412);
    (0x1C81, 0x1C81, 1, 0x414); (0x1C82, 0x1C82, 1, 0x41E);
    (0x1C83, 0x1C84, 1, 0x421); (0x1C85, 0x1C85, 1, 0x422);
    (0x1C86, 0x1C86, 1, 0x42A); (0x1C87, 0x1C87, 1, 0x462);
    (0x1C88, 0x1C88, 1, 0xA64A); (0x1D79, 0x1D79, 1, 0xA77D);
    (0x1D7D, 0x1D7D, 1, 0x2C63); (0x1D8E, 0x1D8E, 1, 0xA7C6);
    (0x1E01, 0x1E95, 2, 0x1E00); (0x1E9B, 0x1E9B, 1, 0x1E60);
    (0x1EA1, 0x1EFF, 2, 0x1EA0); (0x1F00, 0x1F07, 1, 0x1F08);
    (0x1F10, 0x1F15, 1, 0x1F18); (0x1F20, 0x1F27, 1, 0x1F28);
    (0x1F30, 0x1F37, 1, 0x1F38); (0x1F40, 0x1F45, 1, 0x1F48);
    (0x1F51, 0x1F57, 2, 0x1F59); (0x1F60, 0x1F67, 1, 0x1F68);
    (0x1F70, 0x1F71, 1, 0x1FBA); (0x1F72, 0x1F75, 1, 0x1FC8);
    (0x1F76, 0x1F77, 1, 0x1FDA); (0x1F78, 0x1F79, 1, 0x1FF8);
    (0x1F7A, 0x1F7B, 1, 0x1FEA); (0x1F7C, 0x1F7D, 1, 0x1FFA);
    (0x1FB0, 0x1FB1, 1, 0x1FB8); (0x1FBE, 0x1FBE, 1, 0x399);
    (0x1FD0, 0x1FD1, 1, 0x1FD8); (0x1FE0, 0x1FE1, 1, 0x1FE8);
    (0x1FE5, 0x1FE5, 1, 0x1FEC); (0x214E, 0x214E, 1, 0x2132);
    (0x2170, 0x217F, 1, 0x2160); (0x2184, 0x2184, 1, 0x2183);
    (0x24D0, 0x24E9, 1, 0x24B6); (0x2C30, 0x2C5F, 1, 0x2C00);
    (0x2C61, 0x2C61, 1, 0x2C60); (0x2C65, 0x2C65, 1, 0x23A);
    (0x2C66, 0x2C66, 1, 0x23E); (0x2C68, 0x2C6C, 2, 0x2C67);
    (0x2C73, 0x2C73, 1, 0x2C72); (0x2C76, 0x2C76, 1, 0x2C75);
    (0x2C81, 0x2CE3, 2, 0x2C80); (0x2CEC, 0x2CEE, 2, 0x2CEB);
    (0x2CF3, 0x2CF3, 1, 0x2CF2); (0x2D00, 0x2D25, 1, 0x10A0);
    (0x2D27, 0x2D27, 1, 0x10C7); (0x2D2D, 0x2D2D, 1, 0x10CD);
    (0xA641, 0xA66D, 2, 0xA640); (0xA681, 0xA69B, 2, 0xA680);
    (0xA723, 0xA72F, 2, 0xA722); (0xA733, 0xA76F, 2, 0xA732);
    (0xA77A, 0xA77C, 2, 0xA779); (0xA77F, 0xA787, 2, 0xA77E);
    (0xA78C, 0xA78C, 1, 0xA78B); (0xA791, 0xA793, 2, 0xA790);
    (0xA794, 0xA794, 1, 0xA7C4); (0xA797, 0xA7A9, 2, 0xA796);
    (0xA7B5, 0xA7C3, 2, 0xA7B4); (0xA7C8, 0xA7CA, 2, 0xA7C7);
    (0xA7D1, 0xA7D1, 1, 0xA7D0); (0xA7D7, 0xA7D9, 2, 0xA7D6);
    (0xA7F6, 0xA7F6, 1, 0xA7F5); (0xAB53, 0xAB53, 1, 0xA7B3);
    (0xAB70, 0xABBF, 1, 0x13A0); (0xFF41, 0xFF5A, 1, 0xFF21);
    (0x10428, 0x1044F, 1, 0x10400); (0x104D8, 0x104FB, 1, 0x104B0);
    (0x10597, 0x105A1, 1, 0x10570); (0x105A3, 0x105B1, 1, 0x1057C);
    (0x105B3, 0x105B9, 1, 0x1058C); (0x105BB, 0x105BC, 1, 0x10594);
    (0x10CC0, 0x10CF2, 1, 0x10C80); (0x118C0, 0x118DF, 1, 0x118A0);
    (0x16E60, 0x16E7F, 1, 0x16E40); (0x1E922, 0x1E943, 1, 0x1E900) ]%N.

Definition upper_special : list (N * pystr) :=
  [ (0xDF, [0x53; 0x53]); (0x149, [0x2BC; 0x4E]); (0x1F0, [0x4A; 0x30C]);
    (0x390, [0x399; 0x308; 0x301]); (0x3B0, [0x3A5; 0x308; 0x301]);
    (0x587, [0x535; 0x552]); (0x1E96, [0x48; 0x331]); (0x1E97, [0x54; 0x308]);
    (0x1E98, [0x57; 0x30A]); (0x1E99, [0x59; 0x30A]); (0x1E9A, [0x41; 0x2BE]);
    (0x1F50, [0x3A5; 0x313]); (0x1F52, [0x3A5; 0x313; 0x300]);
    (0x1F54, [0x3A5; 0x313; 0x301]); (0x1F56, [0x3A5; 0x313; 0x342]);
    (0x1F80, [0x1F08; 0x399]); (0x1F81, [0x1F09; 0x399]);
    (0x1F82, [0x1F0A; 0x399]); (0x1F83, [0x1F0B; 0x399]);
    (0x1F84, [0x1F0C; 0x399]); (0x1F85, [0x1F0D; 0x399]);
    (0x1F86, [0x1F0E; 0x399]); (0x1F87, [0x1F0F; 0x399]);
    (0x1F88, [0x1F08; 0x399]); (0x1F89, [0x1F09; 0x399]);
    (0x1F8A, [0x1F0A; 0x399]); (0x1F8B, [0x1F0B; 0x399]);
    (0x1F8C, [0x1F0C; 0x399]); (0x1F8D, [0x1F0D; 0x399]);
    (0x1F8E, [0x1F0E; 0x399]); (0x1F8F, [0x1F0F; 0x399]);
    (0x1F90, [0x1F28; 0x399]); (0x1F91, [0x1F29; 0x399]);
    (0x1F92, [0x1F2A; 0x399]); (0x1F93, [0x1F2B; 0x399]);
    (0x1F94, [0x1F2C; 0x399]); (0x1F95, [0x1F2D; 0x399]);
    (0x1F96, [0x1F2E; 0x399]); (0x1F97, [0x1F2F; 0x399]);
    (0x1F98, [0x1F28; 0x399]); (0x1F99, [0x1F29; 0x399]);
    (0x1F9A, [0x1F2A; 0x399]); (0x1F9B, [0x1F2B; 0x399]);
    (0x1F9C, [0x1F2C; 0x399]); (0x1F9D, [0x1F2D; 0x399]);
    (0x1F9E, [0x1F2E; 0x399]); (0x1F9F, [0x1F2F; 0x399]);
    (0x1FA0, [0x1F68; 0x399]); (0x1FA1, [0x1F69; 0x399]);
    (0x1FA2, [0x1F6A; 0x399]); (0x1FA3, [0x1F6B; 0x399]);
    (0x1FA4, [0x1F6C; 0x399]); (0x1FA5, [0x1F6D; 0x399]);
    (0x1FA6, [0x1F6E; 0x399]); (0x1FA7, [0x1F6F; 0x399]);
    (0x1FA8, [0x1F68; 0x399]); (0x1FA9, [0x1F69; 0x399]);
    (0x1FAA, [0x1F6A; 0x399]); (0x1FAB, [0x1F6B; 0x399]);
    (0x1FAC, [0x1F6C; 0x399]); (0x1FAD, [0x1F6D; 0x399]);
    (0x1FAE, [0x1F6E; 0x399]); (0x1FAF, [0x1F6F; 0x399]);
    (0x1FB2, [0x1FBA; 0x399]); (0x1FB3, [0x391; 0x399]);
    (0x1FB4, [0x386; 0x399]); (0x1FB6, [0x391; 0x342]);
    (0x1FB7, [0x391; 0x342; 0x399]); (0x1FBC, [0x391; 0x399]);
    (0x1FC2, [0x1FCA; 0x399]); (0x1FC3, [0x397; 0x399]);
    (0x1FC4, [0x389; 0x399]); (0x1FC6, [0x397; 0x342]);
    (0x1FC7, [0x397; 0x342; 0x399]); (0x1FCC, [0x397; 0x399]);
    (0x1FD2, [0x399; 0x308; 0x300]); (0x1FD3, [0x399; 0x308; 0x301]);
    (0x1FD6, [0x399; 0x342]); (0x1FD7, [0x399; 0x308; 0x342]);
    (0x1FE2, [0x3A5; 0x308; 0x300]); (0x1FE3, [0x3A5; 0x308; 0x301]);
    (0x1FE4, [0x3A1; 0x313]); (0x1FE6, [0x3A5; 0x342]);
    (0x1FE7, [0x3A5; 0x308; 0x342]); (0x1FF2, [0x1FFA; 0x399]);
    (0x1FF3, [0x3A9; 0x399]); (0x1FF4, [0x38F; 0x399]);
    (0x1FF6, [0x3A9; 0x342]); (0x1FF7, [0x3A9; 0x342; 0x399]);
    (0x1FFC, [0x3A9; 0x399]); (0xFB00, [0x46; 0x46]); (0xFB01, [0x46; 0x49]);
    (0xFB02, [0x46; 0x4C]); (0xFB03, [0x46; 0x46; 0x49]);
    (0xFB04, [0x46; 0x46; 0x4C]); (0xFB05, [0x53; 0x54]);
    (0xFB06, [0x53; 0x54]); (0xFB13, [0x544; 0x546]); (0xFB14, [0x544; 0x535]);
    (0xFB15, [0x544; 0x53B]); (0xFB16, [0x54E; 0x546]); (0xFB17, [0x544; 0x53D]) ]%N.

Definition expand_range (r : case_range) : list (N * pystr) :=
  let '(first, last, step, image) := r in
  map (fun i => (first + step * N.of_nat i, [image + step * N.of_nat i])%N)
      (seq 0 (S (N.to_nat ((last - first) / step)))).

Definition lower_table : list (N * pystr) :=
  Eval vm_compute in lower_special ++ flat_map expand_range lower_ranges.
Definition upper_table : list (N * pystr) :=
  Eval vm_compute in upper_special ++ flat_map expand_range upper_ranges.

Fixpoint case_lookup (c : N) (t : list (N * pystr)) : option pystr :=
  match t with
  | [] => None
  | (k, v) :: r => if (c =? k)%N then Some v else case_lookup c r
  end.

Definition lower_full (c : N) : pystr :=
  if (c <? 0x80)%N then [lower_cp c]
  else match case_lookup c lower_table with Some v => v | None => [c] end.
Definition upper_full (c : N) : pystr :=
  if (c <? 0x80)%N then [upper_cp c]
  else match case_lookup c upper_table with Some v => v | None => [c] end.

(** The capital sigma, U+03A3, becomes the final small sigma, U+03C2,
    when it ends a word: when a cased letter stands before it and none
    after it, code points that are case-ignorable (apostrophe, full stop,
    combining marks and the like) being skipped on both sides; otherwise
    it becomes U+03C3.  [cased_ranges] lists the cased code points that
    are not case-ignorable, the only ones the test is made on. *)
Definition cased_ranges : list (N * N) :=
  [ (0x41, 0x5A); (0x61, 0x7A); (0xAA, 0xAA); (0xB5, 0xB5); (0xBA, 0xBA);
    (0xC0, 0xD6); (0xD8, 0xF6); (0xF8, 0x1BA); (0x1BC, 0x1BF); (0x1C4, 0x293);
    (0x295, 0x2AF); (0x370, 0x373); (0x376, 0x377); (0x37B, 0x37D);
    (0x37F, 0x37F); (0x386, 0x386); (0x388, 0x38A); (0x38C, 0x38C);
    (0x38E, 0x3A1); (0x3A3, 0x3F5); (0x3F7, 0x481); (0x48A, 0x52F);
    (0x531, 0x556); (0x560, 0x588); (0x10A0, 0x10C5); (0x10C7, 0x10C7);
    (0x10CD, 0x10CD); (0x10D0, 0x10FA); (0x10FD, 0x10FF); (0x13A0, 0x13F5);
    (0x13F8, 0x13FD); (0x1C80, 0x1C88); (0x1C90, 0x1CBA); (0x1CBD, 0x1CBF);
    (0x1D00, 0x1D2B); (0x1D6B, 0x1D77); (0x1D79, 0x1D9A); (0x1E00, 0x1F15);
    (0x1F18, 0x1F1D); (0x1F20, 0x1F45); (0x1F48, 0x1F4D); (0x1F50, 0x1F57);
    (0x1F59, 0x1F59); (0x1F5B, 0x1F5B); (0x1F5D, 0x1F5D); (0x1F5F, 0x1F7D);
    (0x1F80, 0x1FB4); (0x1FB6, 0x1FBC); (0x1FBE, 0x1FBE); (0x1FC2, 0x1FC4);
    (0x1FC6, 0x1FCC); (0x1FD0, 0x1FD3); (0x1FD6, 0x1FDB); (0x1FE0, 0x1FEC);
    (0x1FF2, 0x1FF4); (0x1FF6, 0x1FFC); (0x2102, 0x2102); (0x2107, 0x2107);
    (0x210A, 0x2113); (0x2115, 0x2115); (0x2119, 0x211D); (0x2124, 0x2124);
    (0x2126, 0x2126); (0x2128, 0x2128); (0x212A, 0x212D); (0x212F, 0x2134);
    (0x2139, 0x2139); (0x213C, 0x213F); (0x2145, 0x2149); (0x214E, 0x214E);
    (0x2160, 0x217F); (0x2183, 0x2184); (0x24B6, 0x24E9); (0x2C00, 0x2C7B);
    (0x2C7E, 0x2CE4); (0x2CEB, 0x2CEE); (0x2CF2, 0x2CF3); (0x2D00, 0x2D25);
    (0x2D27, 0x2D27); (0x2D2D, 0x2D2D); (0xA640, 0xA66D); (0xA680, 0xA69B);
    (0xA722, 0xA76F); (0xA771, 0xA787); (0xA78B, 0xA78E); (0xA790, 0xA7CA);
    (0xA7D0, 0xA7D1); (0xA7D3, 0xA7D3); (0xA7D5, 0xA7D9); (0xA7F5, 0xA7F6);
    (0xA7FA, 0xA7FA); (0xAB30, 0xAB5A); (0xAB60, 0xAB68); (0xAB70, 0xABBF);
    (0xFB00, 0xFB06); (0xFB13, 0xFB17); (0xFF21, 0xFF3A); (0xFF41, 0xFF5A);
    (0x10400, 0x1044F); (0x104B0, 0x104D3); (0x104D8, 0x104FB);
    (0x10570, 0x1057A); (0x1057C, 0x1058A); (0x1058C, 0x10592);
    (0x10594, 0x10595); (0x10597, 0x105A1); (0x105A3, 0x105B1);
    (0x105B3, 0x105B9); (0x105BB, 0x105BC); (0x10C80, 0x10CB2);
    (0x10CC0, 0x10CF2); (0x118A0, 0x118DF); (0x16E40, 0x16E7F);
    (0x1D400, 0x1D454); (0x1D456, 0x1D49C); (0x1D49E, 0x1D49F);
    (0x1D4A2, 0x1D4A2); (0x1D4A5, 0x1D4A6); (0x1D4A9, 0x1D4AC);
    (0x1D4AE, 0x1D4B9); (0x1D4BB, 0x1D4BB); (0x1D4BD, 0x1D4C3);
    (0x1D4C5, 0x1D505); (0x1D507, 0x1D50A); (0x1D50D, 0x1D514);
    (0x1D516, 0x1D51C); (0x1D51E, 0x1D539); (0x1D53B, 0x1D53E);
    (0x1D540, 0x1D544); (0x1D546, 0x1D546); (0x1D54A, 0x1D550);
    (0x1D552, 0x1D6A5); (0x1D6A8, 0x1D6C0); (0x1D6C2, 0x1D6DA);
    (0x1D6DC, 0x1D6FA); (0x1D6FC, 0x1D714); (0x1D716, 0x1D734);
    (0x1D736, 0x1D74E); (0x1D750, 0x1D76E); (0x1D770, 0x1D788);
    (0x1D78A, 0x1D7A8); (0x1D7AA, 0x1D7C2); (0x1D7C4, 0x1D7CB);
    (0x1DF00, 0x1DF09); (0x1DF0B, 0x1DF1E); (0x1E900, 0x1E943);
    (0x1F130, 0x1F149); (0x1F150, 0x1F169); (0x1F170, 0x1F189) ]%N.

Definition case_ignorable_ranges : list (N * N) :=
  [ (0x27, 0x27); (0x2E, 0x2E); (0x3A, 0x3A); (0x5E, 0x5E); (0x60, 0x60);
    (0xA8, 0xA8); (0xAD, 0xAD); (0xAF, 0xAF); (0xB4, 0xB4); (0xB7, 0xB8);
    (0x2B0, 0x36F); (0x374, 0x375); (0x37A, 0x37A); (0x384, 0x385);
    (0x387, 0x387); (0x483, 0x489); (0x559, 0x559); (0x55F, 0x55F);
    (0x591, 0x5BD); (0x5BF, 0x5BF); (0x5C1, 0x5C2); (0x5C4, 0x5C5);
    (0x5C7, 0x5C7); (0x5F4, 0x5F4); (0x600, 0x605); (0x610, 0x61A);
    (0x61C, 0x61C); (0x640, 0x640); (0x64B, 0x65F); (0x670, 0x670);
    (0x6D6, 0x6DD); (0x6DF, 0x6E8); (0x6EA, 0x6ED); (0x70F, 0x70F);
    (0x711, 0x711); (0x730, 0x74A); (0x7A6, 0x7B0); (0x7EB, 0x7F5);
    (0x7FA, 0x7FA); (0x7FD, 0x7FD); (0x816, 0x82D); (0x859, 0x85B);
    (0x888, 0x888); (0x890, 0x891); (0x898, 0x89F); (0x8C9, 0x902);
    (0x93A, 0x93A); (0x93C, 0x93C); (0x941, 0x948); (0x94D, 0x94D);
    (0x951, 0x957); (0x962, 0x963); (0x971, 0x971); (0x981, 0x981);
    (0x9BC, 0x9BC); (0x9C1, 0x9C4); (0x9CD, 0x9CD); (0x9E2, 0x9E3);
    (0x9FE, 0x9FE); (0xA01, 0xA02); (0xA3C, 0xA3C); (0xA41, 0xA42);
    (0xA47, 0xA48); (0xA4B, 0xA4D); (0xA51, 0xA51); (0xA70, 0xA71);
    (0xA75, 0xA75); (0xA81, 0xA82); (0xABC, 0xABC); (0xAC1, 0xAC5);
    (0xAC7, 0xAC8); (0xACD, 0xACD); (0xAE2, 0xAE3); (0xAFA, 0xAFF);
    (0xB01, 0xB01); (0xB3C, 0xB3C); (0xB3F, 0xB3F); (0xB41, 0xB44);
    (0xB4D, 0xB4D); (0xB55, 0xB56); (0xB62, 0xB63); (0xB82, 0xB82);
    (0xBC0, 0xBC0); (0xBCD, 0xBCD); (0xC00, 0xC00); (0xC04, 0xC04);
    (0xC3C, 0xC3C); (0xC3E, 0xC40); (0xC46, 0xC48); (0xC4A, 0xC4D);
    (0xC55, 0xC56); (0xC62, 0xC63); (0xC81, 0xC81); (0xCBC, 0xCBC);
    (0xCBF, 0xCBF); (0xCC6, 0xCC6); (0xCCC, 0xCCD); (0xCE2, 0xCE3);
    (0xD00, 0xD01); (0xD3B, 0xD3C); (0xD41, 0xD44); (0xD4D, 0xD4D);
    (0xD62, 0xD63); (0xD81, 0xD81); (0xDCA, 0xDCA); (0xDD2, 0xDD4);
    (0xDD6, 0xDD6); (0xE31, 0xE31); (0xE34, 0xE3A); (0xE46, 0xE4E);
    (0xEB1, 0xEB1); (0xEB4, 0xEBC); (0xEC6, 0xEC6); (0xEC8, 0xECD);
    (0xF18, 0xF19); (0xF35, 0xF35); (0xF37, 0xF37); (0xF39, 0xF39);
    (0xF71, 0xF7E); (0xF80, 0xF84); (0xF86, 0xF87); (0xF8D, 0xF97);
    (0xF99, 0xFBC); (0xFC6, 0xFC6); (0x102D, 0x1030); (0x1032, 0x1037);
    (0x1039, 0x103A); (0x103D, 0x103E); (0x1058, 0x1059); (0x105E, 0x1060);
    (0x1071, 0x1074); (0x1082, 0x1082); (0x1085, 0x1086); (0x108D, 0x108D);
    (0x109D, 0x109D); (0x10FC, 0x10FC); (0x135D, 0x135F); (0x1712, 0x1714);
    (0x1732, 0x1733); (0x1752, 0x1753); (0x1772, 0x1773); (0x17B4, 0x17B5);
    (0x17B7, 0x17BD); (0x17C6, 0x17C6); (0x17C9, 0x17D3); (0x17D7, 0x17D7);
    (0x17DD, 0x17DD); (0x180B, 0x180F); (0x1843, 0x1843); (0x1885, 0x1886);
    (0x18A9, 0x18A9); (0x1920, 0x1922); (0x1927, 0x1928); (0x1932, 0x1932);
    (0x1939, 0x193B); (0x1A17, 0x1A18); (0x1A1B, 0x1A1B); (0x1A56, 0x1A56);
    (0x1A58, 0x1A5E); (0x1A60, 0x1A60); (0x1A62, 0x1A62); (0x1A65, 0x1A6C);
    (0x1A73, 0x1A7C); (0x1A7F, 0x1A7F); (0x1AA7, 0x1AA7); (0x1AB0, 0x1ACE);
    (0x1B00, 0x1B03); (0x1B34, 0x1B34); (0x1B36, 0x1B3A); (0x1B3C, 0x1B3C);
    (0x1B42, 0x1B42); (0x1B6B, 0x1B73); (0x1B80, 0x1B81); (0x1BA2, 0x1BA5);
    (0x1BA8, 0x1BA9); (0x1BAB, 0x1BAD); (0x1BE6, 0x1BE6); (0x1BE8, 0x1BE9);
    (0x1BED, 0x1BED); (0x1BEF, 0x1BF1); (0x1C2C, 0x1C33); (0x1C36, 0x1C37);
    (0x1C78, 0x1C7D); (0x1CD0, 0x1CD2); (0x1CD4, 0x1CE0); (0x1CE2, 0x1CE8);
    (0x1CED, 0x1CED); (0x1CF4, 0x1CF4); (0x1CF8, 0x1CF9); (0x1D2C, 0x1D6A);
    (0x1D78, 0x1D78); (0x1D9B, 0x1DFF); (0x1FBD, 0x1FBD); (0x1FBF, 0x1FC1);
    (0x1FCD, 0x1FCF); (0x1FDD, 0x1FDF); (0x1FED, 0x1FEF); (0x1FFD, 0x1FFE);
    (0x200B, 0x200F); (0x2018, 0x2019); (0x2024, 0x2024); (0x2027, 0x2027);
    (0x202A, 0x202E); (0x2060, 0x2064); (0x2066, 0x206F); (0x2071, 0x2071);
    (0x207F, 0x207F); (0x2090, 0x209C); (0x20D0, 0x20F0); (0x2C7C, 0x2C7D);
    (0x2CEF, 0x2CF1); (0x2D6F, 0x2D6F); (0x2D7F, 0x2D7F); (0x2DE0, 0x2DFF);
    (0x2E2F, 0x2E2F); (0x3005, 0x3005); (0x302A, 0x302D); (0x3031, 0x3035);
    (0x303B, 0x303B); (0x3099, 0x309E); (0x30FC, 0x30FE); (0xA015, 0xA015);
    (0xA4F8, 0xA4FD); (0xA60C, 0xA60C); (0xA66F, 0xA672); (0xA674, 0xA67D);
    (0xA67F, 0xA67F); (0xA69C, 0xA69F); (0xA6F0, 0xA6F1); (0xA700, 0xA721);
    (0xA770, 0xA770); (0xA788, 0xA78A); (0xA7F2, 0xA7F4); (0xA7F8, 0xA7F9);
    (0xA802, 0xA802); (0xA806, 0xA806); (0xA80B, 0xA80B); (0xA825, 0xA826);
    (0xA82C, 0xA82C); (0xA8C4, 0xA8C5); (0xA8E0, 0xA8F1); (0xA8FF, 0xA8FF);
    (0xA926, 0xA92D); (0xA947, 0xA951); (0xA980, 0xA982); (0xA9B3, 0xA9B3);
    (0xA9B6, 0xA9B9); (0xA9BC, 0xA9BD); (0xA9CF, 0xA9CF); (0xA9E5, 0xA9E6);
    (0xAA29, 0xAA2E); (0xAA31, 0xAA32); (0xAA35, 0xAA36); (0xAA43, 0xAA43);
    (0xAA4C, 0xAA4C); (0xAA70, 0xAA70); (0xAA7C, 0xAA7C); (0xAAB0, 0xAAB0);
    (0xAAB2, 0xAAB4); (0xAAB7, 0xAAB8); (0xAABE, 0xAABF); (0xAAC1, 0xAAC1);
    (0xAADD, 0xAADD); (0xAAEC, 0xAAED); (0xAAF3, 0xAAF4); (0xAAF6, 0xAAF6);
    (0xAB5B, 0xAB5F); (0xAB69, 0xAB6B); (0xABE5, 0xABE5); (0xABE8, 0xABE8);
    (0xABED, 0xABED); (0xFB1E, 0xFB1E); (0xFBB2, 0xFBC2); (0xFE00, 0xFE0F);
    (0xFE13, 0xFE13); (0xFE20, 0xFE2F); (0xFE52, 0xFE52); (0xFE55, 0xFE55);
    (0xFEFF, 0xFEFF); (0xFF07, 0xFF07); (0xFF0E, 0xFF0E); (0xFF1A, 0xFF1A);
    (0xFF3E, 0xFF3E); (0xFF40, 0xFF40); (0xFF70, 0xFF70); (0xFF9E, 0xFF9F);
    (0xFFE3, 0xFFE3); (0xFFF9, 0xFFFB); (0x101FD, 0x101FD); (0x102E0, 0x102E0);
    (0x10376, 0x1037A); (0x10780, 0x10785); (0x10787, 0x107B0);
    (0x107B2, 0x107BA); (0x10A01, 0x10A03); (0x10A05, 0x10A06);
    (0x10A0C, 0x10A0F); (0x10A38, 0x10A3A); (0x10A3F, 0x10A3F);
    (0x10AE5, 0x10AE6); (0x10D24, 0x10D27); (0x10EAB, 0x10EAC);
    (0x10F46, 0x10F50); (0x10F82, 0x10F85); (0x11001, 0x11001);
    (0x11038, 0x11046); (0x11070, 0x11070); (0x11073, 0x11074);
    (0x1107F, 0x11081); (0x110B3, 0x110B6); (0x110B9, 0x110BA);
    (0x110BD, 0x110BD); (0x110C2, 0x110C2); (0x110CD, 0x110CD);
    (0x11100, 0x11102); (0x11127, 0x1112B); (0x1112D, 0x11134);
    (0x11173, 0x11173); (0x11180, 0x11181); (0x111B6, 0x111BE);
    (0x111C9, 0x111CC); (0x111CF, 0x111CF); (0x1122F, 0x11231);
    (0x11234, 0x11234); (0x11236, 0x11237); (0x1123E, 0x1123E);
    (0x112DF, 0x112DF); (0x112E3, 0x112EA); (0x11300, 0x11301);
    (0x1133B, 0x1133C); (0x11340, 0x11340); (0x11366, 0x1136C);
    (0x11370, 0x11374); (0x11438, 0x1143F); (0x11442, 0x11444);
    (0x11446, 0x11446); (0x1145E, 0x1145E); (0x114B3, 0x114B8);
    (0x114BA, 0x114BA); (0x114BF, 0x114C0); (0x114C2, 0x114C3);
    (0x115B2, 0x115B5); (0x115BC, 0x115BD); (0x115BF, 0x115C0);
    (0x115DC, 0x115DD); (0x11633, 0x1163A); (0x1163D, 0x1163D);
    (0x1163F, 0x11640); (0x116AB, 0x116AB); (0x116AD, 0x116AD);
    (0x116B0, 0x116B5); (0x116B7, 0x116B7); (0x1171D, 0x1171F);
    (0x11722, 0x11725); (0x11727, 0x1172B); (0x1182F, 0x11837);
    (0x11839, 0x1183A); (0x1193B, 0x1193C); (0x1193E, 0x1193E);
    (0x11943, 0x11943); (0x119D4, 0x119D7); (0x119DA, 0x119DB);
    (0x119E0, 0x119E0); (0x11A01, 0x11A0A); (0x11A33, 0x11A38);
    (0x11A3B, 0x11A3E); (0x11A47, 0x11A47); (0x11A51, 0x11A56);
    (0x11A59, 0x11A5B); (0x11A8A, 0x11A96); (0x11A98, 0x11A99);
    (0x11C30, 0x11C36); (0x11C38, 0x11C3D); (0x11C3F, 0x11C3F);
    (0x11C92, 0x11CA7); (0x11CAA, 0x11CB0); (0x11CB2, 0x11CB3);
    (0x11CB5, 0x11CB6); (0x11D31, 0x11D36); (0x11D3A, 0x11D3A);
    (0x11D3C, 0x11D3D); (0x11D3F, 0x11D45); (0x11D47, 0x11D47);
    (0x11D90, 0x11D91); (0x11D95, 0x11D95); (0x11D97, 0x11D97);
    (0x11EF3, 0x11EF4); (0x13430, 0x13438); (0x16AF0, 0x16AF4);
    (0x16B30, 0x16B36); (0x16B40, 0x16B43); (0x16F4F, 0x16F4F);
    (0x16F8F, 0x16F9F); (0x16FE0, 0x16FE1); (0x16FE3, 0x16FE4);
    (0x1AFF0, 0x1AFF3); (0x1AFF5, 0x1AFFB); (0x1AFFD, 0x1AFFE);
    (0x1BC9D, 0x1BC9E); (0x1BCA0, 0x1BCA3); (0x1CF00, 0x1CF2D);
    (0x1CF30, 0x1CF46); (0x1D167, 0x1D169); (0x1D173, 0x1D182);
    (0x1D185, 0x1D18B); (0x1D1AA, 0x1D1AD); (0x1D242, 0x1D244);
    (0x1DA00, 0x1DA36); (0x1DA3B, 0x1DA6C); (0x1DA75, 0x1DA75);
    (0x1DA84, 0x1DA84); (0x1DA9B, 0x1DA9F); (0x1DAA1, 0x1DAAF);
    (0x1E000, 0x1E006); (0x1E008, 0x1E018); (0x1E01B, 0x1E021);
    (0x1E023, 0x1E024); (0x1E026, 0x1E02A); (0x1E130, 0x1E13D);
    (0x1E2AE, 0x1E2AE); (0x1E2EC, 0x1E2EF); (0x1E8D0, 0x1E8D6);
    (0x1E944, 0x1E94B); (0x1F3FB, 0x1F3FF); (0xE0001, 0xE0001);
    (0xE0020, 0xE007F); (0xE0100, 0xE01EF) ]%N.

Definition in_ranges (c : N) (rs : list (N * N)) : bool :=
  existsb (fun r => (fst r <=? c) && (c <=? snd r))%N rs.
Definition cased (c : N) : bool := in_ranges c cased_ranges.
Definition case_ignorable (c : N) : bool := in_ranges c case_ignorable_ranges.

Fixpoint skip_ignorable (s : pystr) : pystr :=
  match s with
  | c :: r => if case_ignorable c then skip_ignorable r else s
  | [] => []
  end.

(** [before] is the text before the sigma, nearest code point first. *)
Definition final_sigma (before after : pystr) : bool :=
  match skip_ignorable before with
  | c :: _ =>
      cased c && match skip_ignorable after with
                 | d :: _ => negb (cased d)
                 | [] => true
                 end
  | [] => false
  end.

Fixpoint lower_from (before s : pystr) : pystr :=
  match s with
  | [] => []
  | c :: r =>
      (if (c =? 0x3A3)%N
       then [if final_sigma before r then 0x3C2 else 0x3C3]%N
       else lower_full c) ++ lower_from (c :: before) r
  end.

Definition lower (s : pystr) : pystr := lower_from [] s.
Definition upper (s : pystr) : pystr := flat_map upper_full s.

(** The code points [lower] leaves alone wherever they stand. *)
Definition lower_fixed (d : N) : bool :=
  negb (d =? 0x3A3)%N
  && match lower_full d with [e] => (e =? d)%N | _ => false end.

(** [s.split(sep)] for a separator of one character: never an empty list. *)
Fixpoint split_on (sep : N) (s : pystr) : list pystr :=
  match s with
  | [] => [[]]
  | c :: r =>
      if (c =? sep)%N then [] :: split_on sep r
      else match split_on sep r with
           | [] => [[c]]
           | p :: ps => (c :: p) :: ps
           end
  end.

(** [sep.join(l)]. *)
Fixpoint join (sep : pystr) (l : list pystr) : pystr :=
  match l with
  | [] => []
  | [x] => x
  | x :: r => x ++ sep ++ join sep r
  end.

(** [str(n)] for a natural number: its decimal digits. *)
Fixpoint digits_of_uint (d : Decimal.uint) : pystr :=
  match d with
  | Decimal.Nil => []
  | Decimal.D0 r => 48%N :: digits_of_uint r
  | Decimal.D1 r => 49%N :: digits_of_uint r
  | Decimal.D2 r => 50%N :: digits_of_uint r
  | Decimal.D3 r => 51%N :: digits_of_uint r
  | Decimal.D4 r => 52%N :: digits_of_uint r
  | Decimal.D5 r => 53%N :: digits_of_uint r
  | Decimal.D6 r => 54%N :: digits_of_uint r
  | Decimal.D7 r => 55%N :: digits_of_uint r
  | Decimal.D8 r => 56%N :: digits_of_uint r
  | Decimal.D9 r => 57%N :: digits_of_uint r
  end.

Definition str_of_nat (n : nat) : pystr := digits_of_uint (Nat.to_uint n).

(** [s.encode("utf-8")]: [None] stands for [UnicodeEncodeError] (a lone
    surrogate) and for numbers that are no code point. *)
Definition utf8_encode_cp (c : N) : option bytes :=
  if (c <? 0x80)%N then Some [c]
  else if (c <? 0x800)%N then Some [0xC0 + c / 64; 0x80 + c mod 64]%N
  else if (c <? 0x10000)%N then
    if ((0xD800 <=? c) && (c <=? 0xDFFF))%N then None
    else Some [0xE0 + c / 4096; 0x80 + (c / 64) mod 64; 0x80 + c mod 64]%N
  else if (c <? 0x110000)%N then
    Some [0xF0 + c / 262144; 0x80 + (c / 4096) mod 64;
          0x80 + (c / 64) mod 64; 0x80 + c mod 64]%N
  else None.

Fixpoint str_encode (s : pystr) : option bytes :=
  match s with
  | [] => Some []
  | c :: r =>
      match utf8_encode_cp c, str_encode r with
      | Some b, Some bs => Some (b ++ bs)
      | _, _ => None
      end
  end.

(** [data.decode("utf-8")], strict: [None] stands for [UnicodeDecodeError]
    (a stray or missing continuation byte, an overlong form, a surrogate,
    a value past U+10FFFF). *)
Definition is_cont (b : N) : bool := ((0x80 <=? b) && (b <? 0xC0))%N.

Fixpoint bytes_decode (bs : bytes) : option pystr :=
  match bs with
  | [] => Some []
  | b0 :: r0 =>
      if (b0 <? 0x80)%N then option_map (cons b0) (bytes_decode r0)
      else if (b0 <? 0xC2)%N then None
      else if (b0 <? 0xE0)%N then
        match r0 with
        | b1 :: r1 =>
            if is_cont b1
            then option_map (cons ((b0 - 0xC0) * 64 + (b1 - 0x80))%N) (bytes_decode r1)
            else None
        | _ => None
        end
      else if (b0 <? 0xF0)%N then
        match r0 with
        | b1 :: b2 :: r2 =>
            let c := ((b0 - 0xE0) * 4096 + (b1 - 0x80) * 64 + (b2 - 0x80))%N in
            if is_cont b1 && is_cont b2 && (0x800 <=? c)%N
               && negb ((0xD800 <=? c) && (c <=? 0xDFFF))%N
            then option_map (cons c) (bytes_decode r2)
            else None
        | _ => None
        end
      else if (b0 <? 0xF5)%N then
        match r0 with
        | b1 :: b2 :: b3 :: r3 =>
            let c := ((b0 - 0xF0) * 262144 + (b1 - 0x80) * 4096
                      + (b2 - 0x80) * 64 + (b3 - 0x80))%N in
            if is_cont b1 && is_cont b2 && is_cont b3
               && (0x10000 <=? c)%N && (c <? 0x110000)%N
            then option_map (cons c) (bytes_decode r3)
            else None
        | _ => None
        end
      else None
  end.

(** [str(round(x, 2))] for a float [x], given by its exact rational
    value: [round] rounds the exact value to the nearest hundredth, ties
    to the even one, and [str] prints the shortest decimal that reads
    back as the rounded float: the integer part, a point, and one or two
    digits.  The sign is the sign of [x].

    This is Python's string, digit for digit, for the floats of magnitude
    below 10^13, where a multiple of a hundredth has at most fifteen
    significant digits and so is the shortest decimal of the float
    nearest to it.  Past that the floats lie too far apart for the
    hundredths to show, and from 10^16 on Python prints an exponent; the
    statements that depend on the digits are made for [plain_float]
    values.  A float is known here by its value, so the infinities, nan
    and the negative zero are not represented. *)
Definition round_half_even_hundredths (x : Q) : Z :=
  let n := (Z.abs (Qnum x) * 100)%Z in
  let d := Zpos (Qden x) in
  let k := (n / d)%Z in
  let r := (n mod d)%Z in
  match (2 * r ?= d)%Z with
  | Lt => k
  | Gt => (k + 1)%Z
  | Eq => if Z.even k then k else (k + 1)%Z
  end.

Definition str_round2 (x : Q) : pystr :=
  let h := Z.to_nat (round_half_even_hundredths x) in
  let sign := if (Qnum x <? 0)%Z then py "-" else [] in
  let frac := Nat.modulo h 100 in
  let frac_digits :=
    if Nat.eqb (Nat.modulo frac 10) 0 then str_of_nat (Nat.div frac 10)
    else str_of_nat (Nat.div frac 10) ++ str_of_nat (Nat.modulo frac 10) in
  sign ++ str_of_nat (Nat.div h 100) ++ py "." ++ frac_digits.

End Py.
Import Py.

(** ** Dictionaries

    A Python [dict] keeps its entries in insertion order, one per key.
    Assigning to a key that is present changes the value in place;
    assigning to a new key appends.  [pop] drops the key's entry. *)

Class EqKey (K : Type) := keqb : K -> K -> bool.

#[export] Instance nat_EqKey : EqKey nat := Nat.eqb.
#[export] Instance pystr_EqKey : EqKey pystr := str_eqb.

(** The test decides equality of keys. *)
Class EqKeyLaws (K : Type) `{EqKey K} : Prop :=
  keqb_eq : forall a b : K, keqb a b = true <-> a = b.
Arguments EqKeyLaws K {_}.

Module Dict.
Section Ops.
Context {K V : Type} `{EqKey K}.

Definition t := list (K * V).

(** [d.get(k)]: the value, or [None]. *)
Fixpoint get (k : K) (d : t) : option V :=
  match d with
  | [] => None
  | (k', v) :: r => if keqb k k' then Some v else get k r
  end.

(** [k in d]. *)
Definition mem (k : K) (d : t) : bool :=
  match get k d with Some _ => true | None => false end.

(** [d[k] = v]. *)
Fixpoint set (k : K) (v : V) (d : t) : t :=
  match d with
  | [] => [(k, v)]
  | (k', v') :: r => if keqb k k' then (k', v) :: r else (k', v') :: set k v r
  end.

(** The dictionary after [d.pop(k, None)]. *)
Definition remove (k : K) (d : t) : t :=
  filter (fun e => negb (keqb k (fst e))) d.

Definition keys (d : t) : list K := map fst d.

(** One entry per key. *)
Definition ok (d : t) : Prop := NoDup (keys d).

End Ops.
Arguments t : clear implicits.
End Dict.

(** ** The world a thread of the server runs in *)

Definition socket := nat.

Inductive exn :=
| UnboundLocalError (name : string)
| NameError (name : string)
| IndexError
| KeyError
| ValueError
| OSError
| RuntimeError
| UnicodeDecodeError
| UnicodeEncodeError
| WrongEntryTypeError
| ResolverError.

(** What a socket was asked to do, in order. *)
Inductive sock_call :=
| Sent (data : bytes)
| Shutdown
| Close.

(** The playback engine's objects, as far as the module reads them. *)
Record radio_station := { station_name : pystr; station_cover : pystr }.

Inductive entry :=
| StreamPlaylistEntry (radio_station_data : option radio_station) (title url : pystr)
| URLPlaylistEntry (title url : pystr) (duration : nat)
| OtherEntry.

Record player := {
  current_entry : option entry;
  is_playing : bool;
  is_paused : bool;
  progress : Q;
  volume : Q
}.

(** What [SpotifyTrack.from_query] returns (module [.spotify], not part
    of these sources). *)
Record SpotifyTrack := {
  certainty : Q;
  artist : pystr;
  song_name : pystr;
  cover_url : pystr;
  query : pystr
}.

(** Coroutines handed to the bot's event loop.  The room id says whose
    player's playlist is meant. *)
Inductive coroutine :=
| socket_summon (server_id : pystr)
| add_entry (server_id url : pystr)
| import_from (server_id url : pystr)
| socket_radio (radio_name : pystr).

(** Calls made on a player from the connection's thread. *)
Inductive player_call :=
| resume
| pause
| skip
| set_volume (v : Q).

(** The lines [print] writes. *)
Inductive log_line :=
| LogIdentification (token : pystr)
| LogMalformed
| LogResumed (author_id : pystr)
| LogPaused (author_id : pystr)
| LogSkipped (author_id : pystr)
| LogVolume (author_id : pystr) (before after : Q)
| LogPlaying (author_id url : pystr)
| LogCouldNotPlay (author_id url : pystr)
| LogRadio (author_id radio_name : pystr)
| LogFailedRemove (c : socket) (author_id : pystr)
| LogShuttingDown (author_id : pystr) (address : nat)
| LogCouldntRemove (author_id : pystr)
| LogBroadcastRefused.

(** What lies outside the module and decides how its calls end.
    - [send_raises s]: [sendall] on [s] raises [OSError].
    - [shutdown_raises s]: [shutdown] on [s] raises [OSError].
    - [submit_raises k]: creating the coroutine [k] or handing it to the
      loop raises in the calling thread.
    - [coroutine_result k]: the exception [k] ends with once the loop
      runs it, if any; it is set on the [Future] that
      [run_coroutine_threadsafe] returns.
    - [from_query q]: the resolver's answer, [None] when it raises.
    - [float_of_str s]: the builtin [float] where it returns a finite
      float, given by its value, and [None] where it raises
      [ValueError].  The texts it reads as an infinity or as nan ([inf],
      [nan], [1e999]) have no image here. *)
Record environment := {
  send_raises : socket -> bool;
  shutdown_raises : socket -> bool;
  submit_raises : coroutine -> option exn;
  coroutine_result : coroutine -> option exn;
  from_query : pystr -> option SpotifyTrack;
  float_of_str : pystr -> option Q
}.

(** The fields [__init__] sets that change afterwards.  An element of
    [connections] is (thread, socket, address). *)
Record SocketServer := {
  connections : list (nat * socket * nat);
  server_ids : Dict.t socket pystr;
  stop_threads : bool;
  awaiting_registeration : Dict.t socket pystr;
  sockets_by_user : Dict.t pystr socket
}.

Record world := {
  self : SocketServer;
  players : Dict.t pystr player;
  net : list (socket * sock_call);
  submitted : list coroutine;
  engine : list (pystr * player_call);
  stdout : list log_line;
  env : environment
}.

Definition set_connections (x : list (nat * socket * nat)) (w : world) : world :=
  {| self := {| connections := x;
                server_ids := server_ids (self w);
                stop_threads := stop_threads (self w);
                awaiting_registeration := awaiting_registeration (self w);
                sockets_by_user := sockets_by_user (self w) |};
     players := players w; net := net w; submitted := submitted w;
     engine := engine w; stdout := stdout w; env := env w |}.

Definition set_server_ids (x : Dict.t socket pystr) (w : world) : world :=
  {| self := {| connections := connections (self w);
                server_ids := x;
                stop_threads := stop_threads (self w);
                awaiting_registeration := awaiting_registeration (self w);
                sockets_by_user := sockets_by_user (self w) |};
     players := players w; net := net w; submitted := submitted w;
     engine := engine w; stdout := stdout w; env := env w |}.

Definition set_stop_threads (x : bool) (w : world) : world :=
  {| self := {| connections := connections (self w);
                server_ids := server_ids (self w);
                stop_threads := x;
                awaiting_registeration := awaiting_registeration (self w);
                sockets_by_user := sockets_by_user (self w) |};
     players := players w; net := net w; submitted := submitted w;
     engine := engine w; stdout := stdout w; env := env w |}.

Definition set_awaiting_registeration (x : Dict.t socket pystr) (w : world) : world :=
  {| self := {| connections := connections (self w);
                server_ids := server_ids (self w);
                stop_threads := stop_threads (self w);
                awaiting_registeration := x;
                sockets_by_user := sockets_by_user (self w) |};
     players := players w; net := net w; submitted := submitted w;
     engine := engine w; stdout := stdout w; env := env w |}.

Definition set_sockets_by_user (x : Dict.t pystr socket) (w : world) : world :=
  {| self := {| connections := connections (self w);
                server_ids := server_ids (self w);
                stop_threads := stop_threads (self w);
                awaiting_registeration := awaiting_registeration (self w);
                sockets_by_user := x |};
     players := players w; net := net w; submitted := submitted w;
     engine := engine w; stdout := stdout w; env := env w |}.

Definition set_players (x : Dict.t pystr player) (w : world) : world :=
  {| self := self w; players := x; net := net w; submitted := submitted w;
     engine := engine w; stdout := stdout w; env := env w |}.

Definition add_net (x : socket * sock_call) (w : world) : world :=
  {| self := self w; players := players w; net := net w ++ [x];
     submitted := submitted w; engine := engine w; stdout := stdout w;
     env := env w |}.

Definition add_submitted (x : coroutine) (w : world) : world :=
  {| self := self w; players := players w; net := net w;
     submitted := submitted w ++ [x]; engine := engine w; stdout := stdout w;
     env := env w |}.

Definition add_engine (x : pystr * player_call) (w : world) : world :=
  {| self := self w; players := players w; net := net w;
     submitted := submitted w; engine := engine w ++ [x]; stdout := stdout w;
     env := env w |}.

Definition add_stdout (x : log_line) (w : world) : world :=
  {| self := self w; players := players w; net := net w;
     submitted := submitted w; engine := engine w; stdout := stdout w ++ [x];
     env := env w |}.

(** ** The monad of statements *)

Inductive outcome (A : Type) :=
| Ok (a : A) (w : world)
| Raised (e : exn) (w : world).
Arguments Raised {A} e w.

Definition M (A : Type) := world -> outcome A.

Definition ret {A} (a : A) : M A := fun w => Ok a w.

Definition bind {A B} (m : M A) (k : A -> M B) : M B :=
  fun w => match m w with
           | Ok a w' => k a w'
           | Raised e w' => Raised e w'
           end.

Definition raise {A} (e : exn) : M A := fun w => Raised e w.

(** [try: m  except: h] with a bare [except], which catches everything. *)
Definition try_except {A} (m : M A) (h : exn -> M A) : M A :=
  fun w => match m w with
           | Ok a w' => Ok a w'
           | Raised e w' => h e w'
           end.

Definition get_world : M world := fun w => Ok w w.
Definition modify (f : world -> world) : M unit := fun w => Ok tt (f w).

Declare Scope py_scope.
Delimit Scope py_scope with py.
Notation "x <- m ;; k" := (bind m (fun x => k))
  (at level 100, m at next level, right associativity) : py_scope.
Notation "m ;; k" := (bind m (fun _ => k))
  (at level 100, right associativity) : py_scope.
Open Scope py_scope.

(** The world an outcome ends in. *)
Definition world_of {A} (o : outcome A) : world :=
  match o with Ok _ w => w | Raised _ w => w end.

Definition print (l : log_line) : M unit := modify (add_stdout l).

(** [x[i]] on a list: [IndexError] past the end. *)
Definition index {A} (l : list A) (i : nat) : M A :=
  match nth_error l i with
  | Some x => ret x
  | None => raise IndexError
  end.

(** Reading a local variable of the running function. *)
Definition local {A} (name : string) (v : option A) : M A :=
  match v with
  | Some x => ret x
  | None => raise (UnboundLocalError name)
  end.

(** The names the module's global scope binds: its imports ([from socket
    import *] brings the socket module's public names, of which the
    module uses those listed) and its one class. *)
Definition module_globals : list string :=
  ["re"; "time"; "socket"; "AF_INET"; "SOCK_STREAM"; "SHUT_RDWR"; "Thread";
   "asyncio"; "SpotifyTrack"; "SocketServer"]%string.

(** Evaluating a global name: [NameError] when the module does not bind it. *)
Definition global_name (name : string) : M unit :=
  if existsb (String.eqb name) module_globals then ret tt
  else raise (NameError name).

(** [text.encode("utf-8")]. *)
Definition encode_utf8 (text : pystr) : M bytes :=
  match str_encode text with
  | Some b => ret b
  | None => raise UnicodeEncodeError
  end.

(** [s.sendall(data)]. *)
Definition sendall (s : socket) (data : bytes) : M unit :=
  w <- get_world ;;
  if send_raises (env w) s then raise OSError
  else modify (add_net (s, Sent data)).

(** [s.shutdown(SHUT_RDWR)]. *)
Definition shutdown_socket (s : socket) : M unit :=
  w <- get_world ;;
  if shutdown_raises (env w) s then raise OSError
  else modify (add_net (s, Shutdown)).

(** [s.close()]. *)
Definition close_socket (s : socket) : M unit := modify (add_net (s, Close)).

(** [asyncio.run_coroutine_threadsafe(k, loop)]: queues [k] on the loop
    and returns at once with a [Future]; what [k] raises later is set on
    that [Future] and is not raised here. *)
Definition run_coroutine_threadsafe (k : coroutine) : M (option exn) :=
  w <- get_world ;;
  match submit_raises (env w) k with
  | Some e => raise e
  | None => modify (add_submitted k) ;; ret (coroutine_result (env w) k)
  end.

(** ["{}=={}".format(len(response), response)]. *)
Definition frame (response : pystr) : pystr :=
  str_of_nat (List.length response) ++ py "==" ++ response.

(** The bytes put on the wire for a payload:
    ["{}=={}".format(len(response), response).encode("utf-8")]. *)
Definition frame_bytes (response : pystr) : option bytes :=
  str_encode (frame response).

(** Modelled from the spec: the receiver's [decode], which is no part of
    these sources.  It reads the decimal length N up to the mark [==] and
    takes the N bytes that follow as the payload; a header that is not
    digits followed by [==], or fewer than N bytes after it, is no frame. *)
Fixpoint read_length (bs : bytes) (acc : nat) : option (nat * bytes) :=
  match bs with
  | [] => None
  | b :: r =>
      if ((48 <=? b) && (b <=? 57))%N
      then read_length r (10 * acc + N.to_nat (b - 48))
      else if (b =? 61)%N then
        match r with
        | b' :: rest => if (b' =? 61)%N then Some (acc, rest) else None
        | [] => None
        end
      else None
  end.

(** Modelled from the spec: [decode], built on [read_length]. *)
Definition decode_frame (bs : bytes) : option bytes :=
  match read_length bs 0 with
  | Some (n, rest) =>
      if n <=? List.length rest then Some (firstn n rest) else None
  | None => None
  end.

(** ** [get_player_values] *)

(** The pattern handed to [re.search]:
    [(?:[?&]v=|\/embed\/|\/1\/|\/v\/|https:\/\/(?:www\.)?youtu\.be\/)([^&\n?#]+)].
    The search takes the leftmost position where one of the alternatives
    matches and is followed by at least one character of the class; group
    1 is the longest run of such characters. *)
Definition video_id_char (c : N) : bool :=
  negb ((c =? 38) || (c =? 10) || (c =? 63) || (c =? 35))%N.

Definition video_id_prefixes : list pystr :=
  [py "?v="; py "&v="; py "/embed/"; py "/1/"; py "/v/";
   py "https://www.youtu.be/"; py "https://youtu.be/"].

Fixpoint strip_prefix (p s : pystr) : option pystr :=
  match p, s with
  | [], _ => Some s
  | x :: p', y :: s' => if (x =? y)%N then strip_prefix p' s' else None
  | _ :: _, [] => None
  end.

Fixpoint take_while (f : N -> bool) (s : pystr) : pystr :=
  match s with
  | [] => []
  | c :: r => if f c then c :: take_while f r else []
  end.

Fixpoint match_prefixes (ps : list pystr) (s : pystr) : option pystr :=
  match ps with
  | [] => None
  | p :: ps' =>
      match strip_prefix p s with
      | Some rest =>
          match take_while video_id_char rest with
          | [] => match_prefixes ps' s
          | g => Some g
          end
      | None => match_prefixes ps' s
      end
  end.

Fixpoint search_video_id (s : pystr) : option pystr :=
  match match_prefixes video_id_prefixes s with
  | Some g => Some g
  | None => match s with
            | [] => None
            | _ :: r => search_video_id r
            end
  end.

(** [matches.group(1) if matches is not None else " "]. *)
Definition video_id_of (url : pystr) : pystr :=
  match search_video_id url with
  | Some g => g
  | None => py " "
  end.

(** The float that the literal [.4] denotes. *)
Definition float_0_4 : Q := 3602879701896397 # 9007199254740992.

Definition default_cover : pystr := py "http://i.imgur.com/nszu54A.jpg".

(** ["PLAYING" if player.is_playing else "PAUSED"]. *)
Definition playing_of (p : player) : pystr :=
  if is_playing p then py "PLAYING" else py "PAUSED".

(** The tuple returned: (artist, song_title, video_id, cover_url, playing,
    duration, progress, volume). *)
Definition player_values : Type :=
  pystr * pystr * pystr * pystr * pystr * pystr * pystr * pystr.

Definition get_player_values (server_id : pystr) : M player_values :=
  w <- get_world ;;
  match Dict.get server_id (players w) with
  | None =>
      ret (py " ", py "NOT CONNECTED TO A CHANNEL", py " ", default_cover,
           py "UNCONNECTED", py "0", py "0", py ".5")
  | Some player =>
      let vol := str_round2 (volume player) in
      match current_entry player with
      | None =>
          ret (py " ", py "NONE", py " ", default_cover, py "STOPPED",
               py "0", py "0", vol)
      | Some (StreamPlaylistEntry station title url) =>
          let '(art, song_title, cover) :=
            match station with
            | Some station_data =>
                (py "RADIO", upper (station_name station_data),
                 station_cover station_data)
            | None => (py "STREAM", upper title, default_cover)
            end in
          ret (art, song_title, video_id_of url, cover, playing_of player,
               py "0", str_round2 (progress player), vol)
      | Some (URLPlaylistEntry title url duration) =>
          match from_query (env w) title with
          | None => raise ResolverError
          | Some spotify_track =>
              let '(art, song_title, cover) :=
                if Qlt_le_dec float_0_4 (certainty spotify_track)
                then (artist spotify_track, song_name spotify_track,
                      cover_url spotify_track)
                else (py " ", upper (query spotify_track), default_cover) in
              ret (art, song_title, video_id_of url, cover, playing_of player,
                   str_of_nat duration, str_round2 (progress player), vol)
          end
      | Some OtherEntry =>
          ret (py " ", py "NOT CONNECTED TO A CHANNEL", py " ", default_cover,
               py "UNCONNECTED", py "0", py "0", vol)
      end
  end.

(** The INFORMATION payload: the format string of the source, filled. *)
Definition information (v : player_values) : pystr :=
  let '(art, song_title, video_id, cover, playing, duration, prog, vol) := v in
  py "INFORMATION;" ++ art ++ py ";" ++ song_title ++ py ";" ++ video_id
    ++ py ";" ++ playing ++ py ";" ++ cover ++ py ";" ++ prog
    ++ py ";" ++ duration ++ py ";" ++ vol.

(** ** [register_handler] *)

(** The [for ... break] scan over [awaiting_registeration.items()]. *)
Fixpoint find_token (token : pystr) (items : list (socket * pystr)) : option socket :=
  match items with
  | [] => None
  | (sock, tok) :: r =>
      if str_eqb (lower tok) (lower token) then Some sock
      else find_token token r
  end.

(** [self.awaiting_registeration.pop(sck)]: [KeyError] without the key. *)
Definition pop_awaiting (sck : socket) : M unit :=
  w <- get_world ;;
  match Dict.get sck (awaiting_registeration (self w)) with
  | None => raise KeyError
  | Some _ =>
      modify (set_awaiting_registeration
                (Dict.remove sck (awaiting_registeration (self w))))
  end.

Definition register_handler (token server_id author_id : pystr) : M bool :=
  w <- get_world ;;
  match find_token token (awaiting_registeration (self w)) with
  | None => ret false
  | Some sck =>
      pop_awaiting sck ;;
      let response := py "USERINFORMATION;" ++ server_id ++ py ";" ++ author_id in
      data <- encode_utf8 (frame response) ;;
      sendall sck data ;;
      ret true
  end.

(** ** [_broadcast_information] *)

(** [self.server_ids.pop(key)]. *)
Definition pop_server_id (key : socket) : M unit :=
  w <- get_world ;;
  match Dict.get key (server_ids (self w)) with
  | None => raise KeyError
  | Some _ => modify (set_server_ids (Dict.remove key (server_ids (self w))))
  end.

(** The first loop.  Its handler is [raise] followed by
    [to_delete.append(sock)]. *)
Fixpoint broadcast_information_loop (items : list (socket * pystr))
    (to_delete : list socket) : M (list socket) :=
  match items with
  | [] => ret to_delete
  | (sock, server_id) :: rest =>
      to_delete' <-
        try_except
          (v <- get_player_values server_id ;;
           data <- encode_utf8 (frame (information v)) ;;
           sendall sock data ;;
           ret to_delete)
          (fun e => (raise e : M unit) ;; ret (to_delete ++ [sock])) ;;
      broadcast_information_loop rest to_delete'
  end.

Fixpoint pop_refused (to_delete : list socket) : M unit :=
  match to_delete with
  | [] => ret tt
  | key :: r => print LogBroadcastRefused ;; pop_server_id key ;; pop_refused r
  end.

Definition _broadcast_information : M unit :=
  w <- get_world ;;
  to_delete <- broadcast_information_loop (server_ids (self w)) [] ;;
  pop_refused to_delete.

(** ** [send_message] and [broadcast_message] *)

Definition send_message (author_id message : pystr) : M bool :=
  w <- get_world ;;
  match Dict.get author_id (sockets_by_user (self w)) with
  | None => ret false
  | Some s =>
      try_except
        (let msg := py "MESSAGE;" ++ message in
         data <- encode_utf8 (frame msg) ;;
         sendall s data ;;
         ret true)
        (fun _ => ret false)
  end.

Fixpoint broadcast_message_loop (authors : list pystr) (message : pystr)
    (to_delete : list pystr) : M (list pystr) :=
  match authors with
  | [] => ret to_delete
  | author :: rest =>
      sent <- send_message author message ;;
      broadcast_message_loop rest message
        (if sent then to_delete else to_delete ++ [author])
  end.

Definition broadcast_message (message : pystr) : M unit :=
  w <- get_world ;;
  to_delete <- broadcast_message_loop (Dict.keys (sockets_by_user (self w))) message [] ;;
  modify (fun w' =>
    set_sockets_by_user
      (fold_left (fun d key => Dict.remove key d) to_delete (sockets_by_user (self w')))
      w').

(** ** [connection_maintainer] *)

(** The function's local variables that outlive one pass of the loop;
    [None] is a variable not yet assigned. *)
Record locals := {
  l_request : option pystr;
  l_server_id : option pystr;
  l_author_id : option pystr;
  l_leftover : option (list pystr)
}.

Definition no_locals : locals :=
  {| l_request := None; l_server_id := None; l_author_id := None;
     l_leftover := None |}.

(** How [c_socket.recv(self.buf_size)] ends. *)
Inductive recv_result :=
| RecvRaises
| RecvNone
| RecvData (data : bytes).

Inductive flow := Continue | Break.

(** A call on the room's player. *)
Definition call_player (server_id : pystr) (k : player_call) : M unit :=
  modify (add_engine (server_id, k)).

(** [player.volume = v]. *)
Definition assign_volume (server_id : pystr) (p : player) (v : Q) : M unit :=
  modify (fun w =>
    set_players
      (Dict.set server_id
         {| current_entry := current_entry p; is_playing := is_playing p;
            is_paused := is_paused p; progress := progress p; volume := v |}
         (players w))
      (add_engine (server_id, set_volume v) w)).

(** [float(s)], for the texts read as a finite float or rejected. *)
Definition float (s : pystr) : M Q :=
  w <- get_world ;;
  match float_of_str (env w) s with
  | Some x => ret x
  | None => raise ValueError
  end.

(** Lines 209-223, the PLAY branch.  The [except] clause names
    [WrongEntryTypeError]; Python evaluates that name when an exception
    reaches the clause. *)
Definition play (server_id author_id : pystr) (leftover : list pystr) : M unit :=
  video_url <- index leftover 1 ;;
  try_except
    (_ <- run_coroutine_threadsafe (add_entry server_id video_url) ;; ret tt)
    (fun e =>
       global_name "WrongEntryTypeError" ;;
       match e with
       | WrongEntryTypeError =>
           try_except
             (_ <- run_coroutine_threadsafe (import_from server_id video_url) ;;
              ret tt)
             (fun _ => print (LogCouldNotPlay author_id video_url))
       | _ => raise e
       end) ;;
  print (LogPlaying author_id video_url).

(** Lines 180-227, the COMMAND branch. *)
Definition command (server_id author_id : pystr) (leftover : list pystr) : M unit :=
  w <- get_world ;;
  let player := Dict.get server_id (players w) in
  verb <- index leftover 0 ;;
  (if str_eqb verb (py "SUMMON")
   then try_except
          (_ <- run_coroutine_threadsafe (socket_summon server_id) ;; ret tt)
          (fun _ => ret tt)
   else ret tt) ;;
  match player with
  | None => ret tt
  | Some player =>
      if str_eqb verb (py "PLAY_PAUSE") then
        if is_paused player then
          call_player server_id resume ;; print (LogResumed author_id)
        else if is_playing player then
          call_player server_id pause ;; print (LogPaused author_id)
        else ret tt
      else if str_eqb verb (py "SKIP") then
        call_player server_id skip ;; print (LogSkipped author_id)
      else if str_eqb verb (py "VOLUMECHANGE") then
        let before_vol := volume player in
        arg <- index leftover 1 ;;
        v <- float arg ;;
        assign_volume server_id player v ;;
        print (LogVolume author_id before_vol v)
      else if str_eqb verb (py "PLAY") then
        play server_id author_id leftover
      else if str_eqb verb (py "RADIO") then
        radio_name <- index leftover 1 ;;
        _ <- run_coroutine_threadsafe (socket_radio radio_name) ;;
        print (LogRadio author_id radio_name)
      else ret tt
  end.

(** Lines 163-227: what is done with a message once its fields are bound. *)
Definition dispatch (c_socket : socket) (request server_id author_id : pystr)
    (leftover : list pystr) : M unit :=
  if str_eqb request (py "REQUEST")
     && (0 <? List.length leftover)
     && str_eqb (hd [] leftover) (py "SEND_INFORMATION")
  then
    v <- get_player_values server_id ;;
    data <- encode_utf8 (frame (information v)) ;;
    sendall c_socket data
  else if str_eqb request (py "REQUEST")
          && str_eqb server_id (py "USER_IDENTIFICATION")
  then
    let token := author_id in
    print (LogIdentification token) ;;
    modify (fun w =>
      set_awaiting_registeration
        (Dict.set c_socket (lower token) (awaiting_registeration (self w))) w)
  else if str_eqb request (py "COMMAND") then
    command server_id author_id leftover
  else ret tt.

(** Lines 156-158: the guarded update of the two routing tables. *)
Definition bind_tables (c_socket : socket) (server_id author_id : pystr) : M unit :=
  if negb (str_in (lower server_id) [py "USER_IDENTIFICATION"]) then
    modify (fun w =>
      set_sockets_by_user
        (Dict.set author_id c_socket (sockets_by_user (self w)))
        (set_server_ids (Dict.set c_socket server_id (server_ids (self w))) w))
  else ret tt.

(** Lines 150-227 for a message that is none of the literal bodies.  The
    [try] block assigns [request], [server_id], [author_id] and
    [leftover] one after the other; [parts[1]] and [parts[2]] raise
    [IndexError] when the message has too few fields, and the handler
    prints and leaves the loop with the assignments made so far. *)
Definition handle_message (c_socket : socket) (msg : pystr) (l : locals)
    : M (flow * locals) :=
  let parts := split_on 59 msg in
  let l1 := {| l_request := Some (hd [] parts); l_server_id := l_server_id l;
               l_author_id := l_author_id l; l_leftover := l_leftover l |} in
  match nth_error parts 1 with
  | None => print LogMalformed ;; ret (Break, l1)
  | Some server_id =>
      let l2 := {| l_request := l_request l1; l_server_id := Some server_id;
                   l_author_id := l_author_id l1; l_leftover := l_leftover l1 |} in
      match nth_error parts 2 with
      | None => print LogMalformed ;; ret (Break, l2)
      | Some author_id =>
          let leftover := skipn 3 parts in
          let l3 := {| l_request := l_request l2; l_server_id := l_server_id l2;
                       l_author_id := Some author_id;
                       l_leftover := Some leftover |} in
          bind_tables c_socket server_id author_id ;;
          dispatch c_socket (hd [] parts) server_id author_id leftover ;;
          ret (Continue, l3)
      end
  end.

(** One pass of the [while] loop, lines 135-227, given how [recv] ended. *)
Definition loop_body (c_socket : socket) (r : recv_result) (l : locals)
    : M (flow * locals) :=
  match r with
  | RecvRaises => ret (Break, l)
  | RecvNone => ret (Break, l)
  | RecvData data =>
      match bytes_decode data with
      | None => raise UnicodeDecodeError
      | Some msg =>
          if str_in msg [py "exit"; py "sdown"; py ""] then ret (Break, l)
          else if str_eqb msg (py "ping") then
            data <- encode_utf8 (py "4==pong") ;;
            sendall c_socket data ;;
            ret (Continue, l)
          else handle_message c_socket msg l
      end
  end.

(** How far the loop got on the reads given. *)
Inductive loop_end :=
| Waiting (l : locals)
| Exited (l : locals).

(** The [while not self.stop_threads] loop, fed the results of its
    successive [recv] calls.  With no result left the thread is blocked
    in [recv]. *)
Fixpoint read_loop (c_socket : socket) (reads : list recv_result) (l : locals)
    : M loop_end :=
  fun w =>
    if stop_threads (self w) then Ok (Exited l) w
    else match reads with
         | [] => Ok (Waiting l) w
         | r :: rest =>
             match loop_body c_socket r l w with
             | Ok (Break, l') w' => Ok (Exited l') w'
             | Ok (Continue, l') w' => read_loop c_socket rest l' w'
             | Raised e w' => Raised e w'
             end
         end.

(** Lines 233-241: the last tuple of [connections] that holds the socket,
    with a line printed for every one that does. *)
Fixpoint scan_connections (conns : list (nat * socket * nat)) (c_socket : socket)
    (author_id : pystr) (to_delete : option (nat * socket * nat))
    : M (option (nat * socket * nat)) :=
  match conns with
  | [] => ret to_delete
  | (t, s, a) :: rest =>
      if Nat.eqb s c_socket then
        print (LogShuttingDown author_id a) ;;
        scan_connections rest c_socket author_id (Some (t, s, a))
      else scan_connections rest c_socket author_id to_delete
  end.

Definition conn_eqb (x y : nat * socket * nat) : bool :=
  let '(t, s, a) := x in
  let '(t', s', a') := y in
  Nat.eqb t t' && Nat.eqb s s' && Nat.eqb a a'.

(** [list.remove(x)]: the first equal element goes. *)
Fixpoint list_remove (x : nat * socket * nat) (l : list (nat * socket * nat))
    : list (nat * socket * nat) :=
  match l with
  | [] => []
  | y :: r => if conn_eqb x y then r else y :: list_remove x r
  end.

(** Lines 229-248, run once the loop is left. *)
Definition teardown (c_socket : socket) (l : locals) : M unit :=
  author_id <- local "author_id" (l_author_id l) ;;
  server_id <- local "server_id" (l_server_id l) ;;
  let key := author_id ++ py "_" ++ server_id in
  w <- get_world ;;
  modify (set_sockets_by_user (Dict.remove key (sockets_by_user (self w)))) ;;
  (match Dict.get key (sockets_by_user (self w)) with
   | None => print (LogFailedRemove c_socket author_id)
   | Some _ => ret tt
   end) ;;
  w <- get_world ;;
  to_delete <- scan_connections (connections (self w)) c_socket author_id None ;;
  (match to_delete with
   | Some x => modify (fun w => set_connections (list_remove x (connections (self w))) w)
   | None => print (LogCouldntRemove author_id)
   end) ;;
  modify (fun w => set_server_ids (Dict.remove c_socket (server_ids (self w))) w) ;;
  shutdown_socket c_socket ;;
  close_socket c_socket.

(** What became of the thread. *)
Inductive thread_end :=
| Blocked (l : locals)
| Returned.

Definition connection_maintainer (c_socket : socket) (reads : list recv_result)
    : M thread_end :=
  e <- read_loop c_socket reads no_locals ;;
  match e with
  | Waiting l => ret (Blocked l)
  | Exited l => teardown c_socket l ;; ret Returned
  end.

(** ** [connection_accepter] *)

(** [self.max_connections], set once in [__init__]. *)
Definition max_connections : nat := 10.

(** How [self.main_socket.accept()] ends.  The thread object made for an
    accepted connection is known by a number. *)
Inductive accept_result :=
| AcceptRaises
| Accepted (thread : nat) (connected_socket : socket) (connected_address : nat).

(** The lines the accepter prints; its passes return them in order. *)
Inductive accepter_line :=
| LineListening
| LineTooMany
| LineCantUse
| LineConnected (connected_address : nat)
| LineStopping.

(** The [while not self.stop_threads] loop of lines 112-129, run for at
    most [passes] passes on the results of its successive [accept]
    calls.  A pass at the ceiling sleeps and calls no [accept].  With no
    pass or no result left the thread is still in the loop, and the
    Stopping line is not printed.  The thread started for an accepted
    connection runs [connection_maintainer] on its own; here it is the
    number in the tuple appended. *)
Fixpoint accepter_loop (passes : nat) (accepts : list accept_result)
    (printed : list accepter_line) : M (list accepter_line) :=
  match passes with
  | 0 => ret printed
  | S n =>
      w <- get_world ;;
      if stop_threads (self w) then ret (printed ++ [LineStopping])
      else if max_connections <=? List.length (connections (self w)) then
        accepter_loop n accepts (printed ++ [LineTooMany])
      else match accepts with
           | [] => ret printed
           | AcceptRaises :: rest =>
               accepter_loop n rest (printed ++ [LineCantUse])
           | Accepted thread connected_socket connected_address :: rest =>
               modify (fun w' =>
                 set_connections
                   (connections (self w')
                    ++ [(thread, connected_socket, connected_address)]) w') ;;
               accepter_loop n rest (printed ++ [LineConnected connected_address])
           end
  end.

Definition connection_accepter (passes : nat) (accepts : list accept_result)
    : M (list accepter_line) :=
  accepter_loop passes accepts [LineListening].

(** ** Worlds to run the definitions in *)

(** Nothing outside the module fails: every socket call goes through,
    the loop takes every coroutine, no coroutine ends in an exception.
    The resolver knows no track and [float] reads no number. *)
Definition calm : environment :=
  {| send_raises := fun _ => false;
     shutdown_raises := fun _ => false;
     submit_raises := fun _ => None;
     coroutine_result := fun _ => None;
     from_query := fun _ => None;
     float_of_str := fun _ => None |}.

(** The server as [__init__] leaves it, with the given connections. *)
Definition fresh_server (conns : list (nat * socket * nat)) : SocketServer :=
  {| connections := conns; server_ids := []; stop_threads := false;
     awaiting_registeration := []; sockets_by_user := [] |}.

Definition fresh_world (e : environment) (conns : list (nat * socket * nat))
    (ps : Dict.t pystr player) : world :=
  {| self := fresh_server conns; players := ps; net := []; submitted := [];
     engine := []; stdout := []; env := e |}.

(** A player at half volume with nothing queued. *)
Definition idle_player : player :=
  {| current_entry := None; is_playing := false; is_paused := false;
     progress := 0; volume := 1 # 2 |}.

(** As [calm], but the peer of socket 1 is gone: [sendall] on it raises. *)
Definition dead_1 : environment :=
  {| send_raises := fun s => Nat.eqb s 1;
     shutdown_raises := fun _ => false;
     submit_raises := fun _ => None;
     coroutine_result := fun _ => None;
     from_query := fun _ => None;
     float_of_str := fun _ => None |}.

(** As [calm], but the peer of socket 1 has dropped the connection:
    [shutdown] on it raises. *)
Definition reset_1 : environment :=
  {| send_raises := fun _ => false;
     shutdown_raises := fun s => Nat.eqb s 1;
     submit_raises := fun _ => None;
     coroutine_result := fun _ => None;
     from_query := fun _ => None;
     float_of_str := fun _ => None |}.

(** Two accepted connections, sockets 1 and 2, and no player. *)
Definition two_clients (e : environment) : world :=
  fresh_world e [(11, 1, 101); (12, 2, 102)] [].

(** A client asks to be identified by the token ABC123. *)
Definition identification : recv_result :=
  RecvData (py "REQUEST;USER_IDENTIFICATION;ABC123").

(** The world once the client on socket 1 has asked, and once the client
    on socket 2 has asked with the same token as well. *)
Definition one_pending (e : environment) : world :=
  world_of (connection_maintainer 1 [identification] (two_clients e)).

Definition two_pending (e : environment) : world :=
  world_of (connection_maintainer 2 [identification] (one_pending e)).

(** Both clients have sent a message for the room [room1]. *)
Definition bound_pair (e : environment) : world :=
  world_of (connection_maintainer 2 [RecvData (py "REQUEST;room1;userB")]
    (world_of (connection_maintainer 1 [RecvData (py "REQUEST;room1;userA")]
       (two_clients e)))).

(** As [calm], but every [add_entry] coroutine ends in
    [WrongEntryTypeError] once the loop runs it. *)
Definition rejecting : environment :=
  {| send_raises := fun _ => false;
     shutdown_raises := fun _ => false;
     submit_raises := fun _ => None;
     coroutine_result :=
       fun k => match k with
                | add_entry _ _ => Some WrongEntryTypeError
                | _ => None
                end;
     from_query := fun _ => None;
     float_of_str := fun _ => None |}.

(** As [calm], but the event loop is closed: handing it a coroutine
    raises [RuntimeError] in the calling thread. *)
Definition closed_loop : environment :=
  {| send_raises := fun _ => false;
     shutdown_raises := fun _ => false;
     submit_raises := fun _ => Some RuntimeError;
     coroutine_result := fun _ => None;
     from_query := fun _ => None;
     float_of_str := fun _ => None |}.

(** One accepted connection, socket 1, and a player for [room1]. *)
Definition one_listener (e : environment) : world :=
  fresh_world e [(11, 1, 101)] [(py "room1", idle_player)].

(** As [calm], but [float] reads the text [0.7] as seven tenths. *)
Definition reads_0_7 : environment :=
  {| send_raises := fun _ => false;
     shutdown_raises := fun _ => false;
     submit_raises := fun _ => None;
     coroutine_result := fun _ => None;
     from_query := fun _ => None;
     float_of_str := fun s => if str_eqb s (py "0.7") then Some (7 # 10)%Q else None |}.

(** A player on a stream titled cafe, the e with an acute accent
    (U+00E9), playing, at half volume. *)
Definition cafe_player : player :=
  {| current_entry :=
       Some (StreamPlaylistEntry None (py "caf" ++ [0xE9]%N)
               (py "http://radio.example/live"));
     is_playing := true; is_paused := false;
     progress := 1234 # 100; volume := 1 # 2 |}.

(** Two accepted connections and that player for [room1]; then both
    clients have sent a message for the room. *)
Definition cafe_room : world :=
  fresh_world calm [(11, 1, 101); (12, 2, 102)] [(py "room1", cafe_player)].

Definition cafe_pair : world :=
  world_of (connection_maintainer 2 [RecvData (py "REQUEST;room1;userB")]
    (world_of (connection_maintainer 1 [RecvData (py "REQUEST;room1;userA")]
       cafe_room))).

(** The frame Python builds for that room: 76 characters, the capital
    E with acute in two bytes. *)
Definition cafe_frame : bytes :=
  py "76==INFORMATION;STREAM;CAF" ++ [0xC3; 0x89]%N
  ++ py "; ;PLAYING;http://i.imgur.com/nszu54A.jpg;12.34;0;0.5".

(** ** Predicates of the statements *)

(** A statement preserves a relation between worlds when the world it
    ends in, by a value or by an exception, is related to the one it
    started in. *)
Definition preserves {A} (R : world -> world -> Prop) (m : M A) : Prop :=
  forall w, R w (world_of (m w)).

(** A log of the world grows by entries that satisfy [P]. *)
Definition grows {X} (tr : world -> list X) (P : X -> Prop) (w w' : world) : Prop :=
  exists l, tr w' = tr w ++ l /\ Forall P l.

(** A part of the world stays as it is. *)
Definition keeps {X} (f : world -> X) (w w' : world) : Prop := f w' = f w.

(** The pending entries a token matches. *)
Definition matching (token : pystr) (d : Dict.t socket pystr) : list (socket * pystr) :=
  filter (fun e => str_eqb (lower (snd e)) (lower token)) d.

(** A socket call that is the send of one framed payload. *)
Definition framed_send (x : socket * sock_call) : Prop :=
  exists payload data, snd x = Sent data /\ frame_bytes payload = Some data.

(** Every socket call made is the send of a framed payload. *)
Definition sends_frames : world -> world -> Prop := grows net framed_send.

(** The server object stays as it is. *)
Definition keeps_self : world -> world -> Prop := keeps self.

(** A log entry that is no [import_from]. *)
Definition not_import (k : coroutine) : Prop :=
  forall server_id url, k <> import_from server_id url.

(** Nothing handed to the loop is an [import_from]. *)
Definition never_imports : world -> world -> Prop := grows submitted not_import.

(** Tests on the log of socket calls. *)
Definition is_shutdown_of (c : socket) (x : socket * sock_call) : bool :=
  Nat.eqb (fst x) c && match snd x with Shutdown => true | _ => false end.

Definition is_close_of (c : socket) (x : socket * sock_call) : bool :=
  Nat.eqb (fst x) c && match snd x with Close => true | _ => false end.

(** Whenever [author_id] is bound, so is [server_id]: every pass assigns
    [server_id] first. *)
Definition locals_ok (l : locals) : Prop :=
  l_author_id l <> None -> l_server_id l <> None.

(** A string with no code point above 127. *)
Definition is_ascii (s : pystr) : bool := forallb (fun c => (c <? 128)%N) s.

(** No field of a message holds the separator. *)
Definition no_sep (sep : N) (fields : list pystr) : Prop :=
  Forall (fun f => ~ In sep f) fields.

(** The two routing tables stay as they are. *)
Definition keeps_routes : world -> world -> Prop :=
  keeps (fun w => (server_ids (self w), sockets_by_user (self w))).

(** A read that cannot bind the locals: no chunk, or a chunk whose text
    has fewer than three fields. *)
Definition short_read (r : recv_result) : Prop :=
  match r with
  | RecvData data =>
      exists msg, bytes_decode data = Some msg
                  /\ List.length (split_on 59 msg) < 3
  | _ => True
  end.

(** The sockets that held a connection tuple. *)
Definition sockets_of (conns : list (nat * socket * nat)) : list socket :=
  map (fun x => snd (fst x)) conns.

(** What [send_message] puts on the socket [s] for a message: the framed
    MESSAGE payload, or nothing when the payload cannot be encoded or the
    send raises. *)
Definition message_frames (w : world) (message : pystr) (s : socket)
    : list (socket * sock_call) :=
  match frame_bytes (py "MESSAGE;" ++ message) with
  | Some data => if send_raises (env w) s then [] else [(s, Sent data)]
  | None => []
  end.

Definition message_delivered (w : world) (message : pystr) (s : socket) : bool :=
  match message_frames w message s with
  | [] => false
  | _ :: _ => true
  end.

(** The world with socket calls added to the log. *)
Definition add_nets (l : list (socket * sock_call)) (w : world) : world :=
  fold_left (fun w' x => add_net x w') l w.

(** The tuple the scan of lines 233-238 ends with: the last one that
    holds the socket, or what it started with. *)
Fixpoint scan_result (conns : list (nat * socket * nat)) (c : socket)
    (to_delete : option (nat * socket * nat)) : option (nat * socket * nat) :=
  match conns with
  | [] => to_delete
  | (t, s, a) :: rest =>
      if Nat.eqb s c then scan_result rest c (Some (t, s, a))
      else scan_result rest c to_delete
  end.

(** The floats that [str_round2] prints as Python does: magnitude below
    10^13. *)
Definition plain_float (x : Q) : bool :=
  (Z.abs (Qnum x) <? 10000000000000 * Zpos (Qden x))%Z.

(** The player of the room, if it has one, shows plain floats. *)
Definition plain_floats (w : world) (server_id : pystr) : Prop :=
  forall p, Dict.get server_id (players w) = Some p ->
    plain_float (progress p) = true /\ plain_float (volume p) = true.

(** The bytes of the INFORMATION frame for a room, as the snapshot and
    the framing give them; [None] when the snapshot raises or the payload
    cannot be encoded. *)
Definition room_frame (w : world) (server_id : pystr) : option bytes :=
  match get_player_values server_id w with
  | Ok v _ => frame_bytes (information v)
  | Raised _ _ => None
  end.

(** * Properties *)

(** ** Strings and keys *)

Lemma str_eqb_eq (a b : pystr) : str_eqb a b = true <-> a = b.
Proof.
  revert b; induction a as [|x a IH]; intros [|y b]; simpl; split; intro E;
    try reflexivity; try discriminate.
  - apply andb_true_iff in E as [E1 E2].
    apply N.eqb_eq in E1. apply IH in E2. now subst.
  - injection E as -> ->. apply andb_true_iff. split.
    + apply N.eqb_refl.
    + now apply IH.
Qed.

Lemma str_eqb_refl (a : pystr) : str_eqb a a = true.
Proof. now apply str_eqb_eq. Qed.

Lemma str_eqb_neq (a b : pystr) : str_eqb a b = false <-> a <> b.
Proof.
  destruct (str_eqb a b) eqn:E.
  - apply str_eqb_eq in E. split; [discriminate | contradiction].
  - split; [|reflexivity]. intros _ F. apply str_eqb_eq in F. congruence.
Qed.

#[export] Instance nat_EqKeyLaws : EqKeyLaws nat := Nat.eqb_eq.
#[export] Instance pystr_EqKeyLaws : EqKeyLaws pystr := str_eqb_eq.

(** *** Case mapping *)

Lemma case_lookup_In (c : N) (t : list (N * pystr)) (v : pystr) :
  case_lookup c t = Some v -> In (c, v) t.
Proof.
  induction t as [|[k x] r IH]; simpl; [discriminate|].
  destruct (N.eqb_spec c k) as [->|_].
  - intros [= ->]. now left.
  - intro H. right. now apply IH.
Qed.

Lemma case_lookup_forall (P : N * pystr -> bool) (c : N) (t : list (N * pystr))
    (v : pystr) :
  forallb P t = true -> case_lookup c t = Some v -> P (c, v) = true.
Proof.
  intros F L. apply case_lookup_In in L.
  rewrite forallb_forall in F. now apply F.
Qed.

(** What [lower] puts out, it leaves alone: lowering twice is lowering
    once. *)
Lemma lower_table_fixed :
  forallb (fun e => forallb lower_fixed (snd e)) lower_table = true.
Proof. vm_compute. reflexivity. Qed.

Lemma lower_table_head :
  forallb (fun e => match snd e with
                    | d :: _ => negb (d =? 85)%N
                    | [] => false
                    end) lower_table = true.
Proof. vm_compute. reflexivity. Qed.

Lemma lower_full_fixed (c : N) :
  (c =? 0x3A3)%N = false -> forallb lower_fixed (lower_full c) = true.
Proof.
  intro S. unfold lower_full.
  destruct (N.ltb_spec c 0x80) as [A|A].
  - cbn [forallb]. rewrite andb_true_r. unfold lower_fixed, lower_full.
    assert (B : (lower_cp c < 0x80)%N).
    { unfold lower_cp.
      destruct (N.leb_spec 65 c); destruct (N.leb_spec c 90); simpl; lia. }
    apply N.ltb_lt in B. rewrite B.
    assert (C : lower_cp (lower_cp c) = lower_cp c).
    { unfold lower_cp.
      destruct (N.leb_spec 65 c); destruct (N.leb_spec c 90); simpl;
      repeat match goal with
             | |- context [(?a <=? ?b)%N] => destruct (N.leb_spec a b); simpl
             end; lia. }
    rewrite C, N.eqb_refl, andb_true_r.
    apply negb_true_iff, N.eqb_neq. apply N.ltb_lt in B. lia.
  - destruct (case_lookup c lower_table) as [v|] eqn:L.
    + exact (@case_lookup_forall _ c lower_table v lower_table_fixed L).
    + cbn [forallb]. rewrite andb_true_r. unfold lower_fixed, lower_full.
      rewrite S, (proj2 (N.ltb_ge _ _) A), L.
      now rewrite N.eqb_refl.
Qed.

Lemma lower_from_fixed (s : pystr) :
  forall before, forallb lower_fixed (lower_from before s) = true.
Proof.
  induction s as [|c r IH]; intro b; [reflexivity|].
  cbn [lower_from]. rewrite forallb_app, IH, andb_true_r.
  destruct (c =? 0x3A3)%N eqn:S; [|now apply lower_full_fixed].
  now destruct (final_sigma b r).
Qed.

Lemma lower_from_of_fixed (t : pystr) :
  forallb lower_fixed t = true -> forall before, lower_from before t = t.
Proof.
  induction t as [|d r IH]; [reflexivity|].
  cbn [forallb]. intros F b. apply andb_true_iff in F as [D R].
  cbn [lower_from]. rewrite (IH R).
  unfold lower_fixed in D. apply andb_true_iff in D as [S E].
  apply negb_true_iff in S. rewrite S.
  destruct (lower_full d) as [|e [|? ?]]; try discriminate.
  apply N.eqb_eq in E. now subst e.
Qed.

(** The first code point of a lowered string is never the capital U. *)
Lemma lower_head (s : pystr) :
  match lower s with d :: _ => d <> 85%N | [] => True end.
Proof.
  unfold lower. destruct s as [|c r]; [exact I|]. cbn [lower_from].
  destruct (c =? 0x3A3)%N.
  - destruct (final_sigma [] r); simpl; discriminate.
  - unfold lower_full. destruct (N.ltb_spec c 0x80) as [A|A].
    + simpl. unfold lower_cp.
      destruct (N.leb_spec 65 c); destruct (N.leb_spec c 90); simpl; lia.
    + destruct (case_lookup c lower_table) as [v|] eqn:L.
      * pose proof (@case_lookup_forall _ c lower_table v lower_table_head L) as H.
        simpl in H. destruct v as [|d v]; [discriminate|]. simpl.
        now apply negb_true_iff, N.eqb_neq in H.
      * simpl. lia.
Qed.

(** The mappings on text that is not ASCII: accented letters, the Kelvin
    sign, the sharp s, a ligature, and the sigma at the end of a word and
    elsewhere. *)
Example lower_examples :
  lower [0xC9; 84; 0xC9]%N = [0xE9; 116; 0xE9]%N
  /\ lower [0x212A]%N = py "k"
  /\ lower [0x130]%N = [0x69; 0x307]%N
  /\ lower [0x39F; 0x394; 0x39F; 0x3A3]%N = [0x3BF; 0x3B4; 0x3BF; 0x3C2]%N
  /\ lower [0x3A3; 0x39F]%N = [0x3C3; 0x3BF]%N
  /\ lower (py "Abc123") = py "abc123".
Proof. repeat split. Qed.

Example upper_examples :
  upper (py "caf" ++ [0xE9]%N) = py "CAF" ++ [0xC9]%N
  /\ upper (py "stra" ++ [0xDF]%N ++ py "e") = py "STRASSE"
  /\ upper [0xFB01]%N = py "FI"
  /\ upper (py "Radio 1") = py "RADIO 1".
Proof. repeat split. Qed.

(** ** Framing *)

Lemma str_encode_app (a b : pystr) :
  str_encode (a ++ b) =
  match str_encode a, str_encode b with
  | Some x, Some y => Some (x ++ y)
  | _, _ => None
  end.
Proof.
  induction a as [|c a IH]; simpl.
  - now destruct (str_encode b).
  - rewrite IH.
    destruct (utf8_encode_cp c), (str_encode a), (str_encode b);
      try reflexivity.
    now rewrite app_assoc.
Qed.

Lemma str_encode_ascii (s : pystr) : is_ascii s = true -> str_encode s = Some s.
Proof.
  induction s as [|c s IH]; simpl; [reflexivity|].
  intro H. apply andb_true_iff in H as [Hc Hs].
  unfold utf8_encode_cp. rewrite Hc, (IH Hs). reflexivity.
Qed.

Lemma is_ascii_app (a b : pystr) : is_ascii (a ++ b) = is_ascii a && is_ascii b.
Proof. apply forallb_app. Qed.

Lemma digits_ascii (d : Decimal.uint) : is_ascii (digits_of_uint d) = true.
Proof. induction d; simpl; auto. Qed.

Lemma utf8_encode_cp_length (c : N) (b : bytes) :
  utf8_encode_cp c = Some b ->
  ((c <? 128)%N = true /\ b = [c]) \/ ((c <? 128)%N = false /\ 2 <= List.length b).
Proof.
  unfold utf8_encode_cp.
  change (0x80)%N with 128%N.
  destruct (c <? 128)%N.
  - intros [= <-]. now left.
  - right. split; [reflexivity|].
    destruct (c <? 0x800)%N; [injection H as <-; simpl; lia|].
    destruct (c <? 0x10000)%N.
    + destruct ((0xD800 <=? c) && (c <=? 0xDFFF))%N; [discriminate|].
      injection H as <-; simpl; lia.
    + destruct (c <? 0x110000)%N; [|discriminate].
      injection H as <-; simpl; lia.
Qed.

(** The encoding is never shorter than the string, and as long exactly
    for ASCII strings. *)
Lemma str_encode_length (s : pystr) : forall bs,
  str_encode s = Some bs ->
  List.length s <= List.length bs
  /\ (List.length bs = List.length s <-> is_ascii s = true).
Proof.
  induction s as [|c s IH]; simpl; intros bs H.
  - injection H as <-. simpl. split; [lia|]. split; reflexivity.
  - destruct (utf8_encode_cp c) as [b|] eqn:Hc; [|discriminate].
    destruct (str_encode s) as [bs'|] eqn:Hs; [|discriminate].
    injection H as <-. rewrite length_app.
    destruct (IH bs' eq_refl) as [Hle Hiff].
    destruct (utf8_encode_cp_length c Hc) as [[Hlt ->]|[Hge Hlen]].
    + rewrite Hlt. simpl. split; [lia|].
      split; intro E.
      * apply Hiff. lia.
      * apply Hiff in E. lia.
    + rewrite Hge. simpl. split; [lia|].
      split; intro E; [lia|discriminate].
Qed.

Lemma read_length_digit (k : nat) (r : bytes) (acc : nat) :
  k <= 9 ->
  read_length ((48 + N.of_nat k)%N :: r) acc = read_length r (10 * acc + k).
Proof.
  intro Hk. cbn [read_length].
  replace ((48 <=? 48 + N.of_nat k) && (48 + N.of_nat k <=? 57))%N with true.
  - do 2 f_equal. lia.
  - symmetry. apply andb_true_iff. split; apply N.leb_le; lia.
Qed.

Lemma read_length_digits (d : Decimal.uint) (rest : bytes) : forall acc,
  read_length (digits_of_uint d ++ 61%N :: 61%N :: rest) acc
  = Some (Nat.of_uint_acc d acc, rest).
Proof.
  assert (E : forall d' x y, x = y ->
            Some (Nat.of_uint_acc d' x, rest) = Some (Nat.of_uint_acc d' y, rest))
    by (intros; subst; reflexivity).
  induction d; intro acc; cbn [digits_of_uint app Nat.of_uint_acc];
    [ reflexivity
    | change 48%N with (48 + N.of_nat 0)%N
    | change 49%N with (48 + N.of_nat 1)%N
    | change 50%N with (48 + N.of_nat 2)%N
    | change 51%N with (48 + N.of_nat 3)%N
    | change 52%N with (48 + N.of_nat 4)%N
    | change 53%N with (48 + N.of_nat 5)%N
    | change 54%N with (48 + N.of_nat 6)%N
    | change 55%N with (48 + N.of_nat 7)%N
    | change 56%N with (48 + N.of_nat 8)%N
    | change 57%N with (48 + N.of_nat 9)%N ];
    (rewrite read_length_digit by lia);
    rewrite IHd, Nat.tail_mul_spec; apply E; lia.
Qed.

Lemma read_length_str_of_nat (n : nat) (rest : bytes) :
  read_length (str_of_nat n ++ py "==" ++ rest) 0 = Some (n, rest).
Proof.
  unfold str_of_nat. change (py "==" ++ rest) with (61%N :: 61%N :: rest).
  rewrite read_length_digits.
  change (Nat.of_uint_acc (Nat.to_uint n) 0) with (Nat.of_uint (Nat.to_uint n)).
  now rewrite Unsigned.of_to.
Qed.

(** What [decode_frame] makes of a frame whose prefix says [n]: the first
    [n] bytes after the mark. *)
Lemma decode_frame_prefix (n : nat) (rest : bytes) :
  n <= List.length rest ->
  decode_frame (str_of_nat n ++ py "==" ++ rest) = Some (firstn n rest).
Proof.
  intro H. unfold decode_frame. rewrite read_length_str_of_nat.
  apply Nat.leb_le in H. now rewrite H.
Qed.

(** C4, as amended.  The number before the mark counts the characters of
    the payload, not the bytes of its encoding: the bytes on the wire are
    the decimal digits of [len(payload)], the mark and the encoded
    payload.  The count is the byte length exactly when the payload is
    ASCII; [decode_frame] returns the first [len(payload)] bytes of the
    encoded payload, which for an ASCII payload is the payload itself. *)
Theorem frame_bytes_counts_characters (payload : pystr) (bs : bytes) :
  str_encode payload = Some bs ->
  exists out,
    frame_bytes payload = Some out
    /\ out = str_of_nat (List.length payload) ++ py "==" ++ bs
    /\ List.length payload <= List.length bs
    /\ (List.length bs = List.length payload <-> is_ascii payload = true)
    /\ decode_frame out = Some (firstn (List.length payload) bs)
    /\ (is_ascii payload = true -> bs = payload /\ decode_frame out = Some payload).
Proof.
  intro H.
  exists (str_of_nat (List.length payload) ++ py "==" ++ bs).
  destruct (str_encode_length payload H) as [Hle Hiff].
  assert (Hd : decode_frame (str_of_nat (List.length payload) ++ py "==" ++ bs)
               = Some (firstn (List.length payload) bs))
    by now apply decode_frame_prefix.
  split; [|split; [reflexivity|split; [exact Hle|split; [exact Hiff|split; [exact Hd|]]]]].
  - unfold frame_bytes, frame.
    rewrite !str_encode_app, H.
    unfold str_of_nat.
    rewrite (str_encode_ascii _ (digits_ascii _)).
    reflexivity.
  - intro A.
    assert (bs = payload) as ->
      by (rewrite (str_encode_ascii _ A) in H; congruence).
    split; [reflexivity|].
    rewrite Hd. now rewrite firstn_all.
Qed.

Lemma frame_bytes_counts_characters_witness :
  str_encode (py "MESSAGE;hi") = Some (py "MESSAGE;hi")
  /\ exists out,
       frame_bytes (py "MESSAGE;hi") = Some out
       /\ out = str_of_nat 10 ++ py "==" ++ py "MESSAGE;hi"
       /\ 10 <= 10
       /\ (10 = 10 <-> is_ascii (py "MESSAGE;hi") = true)
       /\ decode_frame out = Some (firstn 10 (py "MESSAGE;hi"))
       /\ (is_ascii (py "MESSAGE;hi") = true ->
           py "MESSAGE;hi" = py "MESSAGE;hi"
           /\ decode_frame out = Some (py "MESSAGE;hi")).
Proof.
  split; [reflexivity|].
  exact (@frame_bytes_counts_characters (py "MESSAGE;hi") (py "MESSAGE;hi") eq_refl).
Defined.

(** C4 as stated fails on a payload that is not ASCII: for the one
    character U+00E9 the prefix says 1, the encoded payload has 2 bytes,
    and [decode_frame] returns the first of them only. *)
Lemma frame_bytes_non_ascii_counterexample :
  frame_bytes [233%N] = Some (py "1==" ++ [195; 169]%N)
  /\ str_encode [233%N] = Some [195; 169]%N
  /\ List.length [195; 169]%N = 2
  /\ decode_frame (py "1==" ++ [195; 169]%N) = Some [195%N].
Proof. repeat split. Qed.

(** ** Dictionaries *)

Section DictFacts.
Context {K V : Type} `{EqKeyLaws K}.

Lemma keqb_refl (k : K) : keqb k k = true.
Proof. now apply keqb_eq. Qed.

Lemma get_remove_same (k : K) (d : Dict.t K V) :
  Dict.get k (Dict.remove k d) = None.
Proof.
  induction d as [|[k' v] d IH]; simpl; [reflexivity|].
  destruct (keqb k k') eqn:E; simpl; [assumption|].
  now rewrite E.
Qed.

Lemma get_remove_other (k k' : K) (d : Dict.t K V) :
  k <> k' -> Dict.get k (Dict.remove k' d) = Dict.get k d.
Proof.
  intro N. induction d as [|[k0 v] d IH]; simpl; [reflexivity|].
  destruct (keqb k' k0) eqn:E; simpl.
  - apply keqb_eq in E. subst k0.
    destruct (keqb k k') eqn:E'; [apply keqb_eq in E'; contradiction|assumption].
  - now rewrite IH.
Qed.

Lemma get_set_same (k : K) (v : V) (d : Dict.t K V) :
  Dict.get k (Dict.set k v d) = Some v.
Proof.
  induction d as [|[k' v'] d IH]; simpl.
  - now rewrite keqb_refl.
  - destruct (keqb k k') eqn:E; simpl; now rewrite E.
Qed.

Lemma get_set_other (k k' : K) (v : V) (d : Dict.t K V) :
  k <> k' -> Dict.get k (Dict.set k' v d) = Dict.get k d.
Proof.
  intro N. induction d as [|[k0 v0] d IH]; simpl.
  - destruct (keqb k k') eqn:E; [apply keqb_eq in E; contradiction|reflexivity].
  - destruct (keqb k' k0) eqn:E; simpl; destruct (keqb k k0) eqn:E0;
      try reflexivity; try assumption.
    apply keqb_eq in E, E0. congruence.
Qed.

Lemma keys_set (k : K) (v : V) (d : Dict.t K V) :
  Dict.keys (Dict.set k v d)
  = if Dict.mem k d then Dict.keys d else Dict.keys d ++ [k].
Proof.
  unfold Dict.mem.
  induction d as [|[k' v'] d IH]; simpl; [reflexivity|].
  destruct (keqb k k') eqn:E; simpl; [reflexivity|].
  rewrite IH. now destruct (Dict.get k d).
Qed.

Lemma mem_keys (k : K) (d : Dict.t K V) :
  Dict.mem k d = true <-> In k (Dict.keys d).
Proof.
  unfold Dict.mem.
  induction d as [|[k' v'] d IH]; simpl.
  - split; [discriminate|contradiction].
  - destruct (keqb k k') eqn:E.
    + apply keqb_eq in E. subst. split; auto.
    + rewrite IH. split; [auto|].
      intros [->|I]; [|assumption].
      rewrite keqb_refl in E. discriminate.
Qed.

(** Assignment and [pop] keep one entry per key. *)
Lemma ok_set (k : K) (v : V) (d : Dict.t K V) : Dict.ok d -> Dict.ok (Dict.set k v d).
Proof.
  unfold Dict.ok. intro D. rewrite keys_set.
  destruct (Dict.mem k d) eqn:E; [assumption|].
  apply NoDup_app; [assumption|repeat constructor; intros []|].
  intros x I [<-|[]].
  apply mem_keys in I. congruence.
Qed.

Lemma ok_remove (k : K) (d : Dict.t K V) : Dict.ok d -> Dict.ok (Dict.remove k d).
Proof.
  unfold Dict.ok, Dict.keys, Dict.remove.
  induction d as [|[k' v'] d IH]; simpl; intro D; [constructor|].
  inversion D as [|? ? N D']; subst.
  destruct (keqb k k'); simpl; [now apply IH|].
  constructor; [|now apply IH].
  intro I. apply N. apply in_map_iff in I as [[k0 v0] [E I]].
  simpl in E. subst k0. apply filter_In in I as [I _].
  apply in_map_iff. now exists (k', v0).
Qed.

End DictFacts.

(** ** The state snapshot *)

Lemma to_uint_not_nil (n : nat) : Nat.to_uint n <> Decimal.Nil.
Proof.
  intro E. pose proof (Unsigned.of_to n) as R. rewrite E in R.
  simpl in R. subst n. discriminate.
Qed.

(** [str(n)] starts with a digit. *)
Lemma str_of_nat_head (n : nat) :
  exists c r, str_of_nat n = c :: r /\ (48 <= c <= 57)%N.
Proof.
  unfold str_of_nat. pose proof (to_uint_not_nil n) as N.
  destruct (Nat.to_uint n); [contradiction| ..]; simpl;
    eexists; eexists; (split; [reflexivity|lia]).
Qed.

(** A rounded float never prints as [.5]: there is a digit, or a sign and
    a digit, before the point. *)
Lemma str_round2_not_bare (x : Q) : str_round2 x <> py ".5".
Proof.
  unfold str_round2.
  destruct (str_of_nat_head
              (Nat.div (Z.to_nat (round_half_even_hundredths x)) 100))
    as (c & r & -> & Hc).
  destruct (Qnum x <? 0)%Z; simpl; intros [= E]; lia.
Qed.




(** ** Reasoning about statements *)

Section Preserves.
Variable R : world -> world -> Prop.
Hypothesis R_refl : forall w, R w w.
Hypothesis R_trans : forall a b c, R a b -> R b c -> R a c.

Lemma preserves_ret {A} (a : A) : preserves R (ret a).
Proof. intro w. apply R_refl. Qed.

Lemma preserves_raise {A} (e : exn) : preserves R (raise e : M A).
Proof. intro w. apply R_refl. Qed.

Lemma preserves_get_world : preserves R get_world.
Proof. intro w. apply R_refl. Qed.

Lemma preserves_modify (f : world -> world) :
  (forall w, R w (f w)) -> preserves R (modify f).
Proof. intros H w. apply H. Qed.

Lemma preserves_bind {A B} (m : M A) (k : A -> M B) :
  preserves R m -> (forall a, preserves R (k a)) -> preserves R (bind m k).
Proof.
  intros Hm Hk w. unfold bind. specialize (Hm w).
  destruct (m w) as [a w'|e w']; simpl in *; [|assumption].
  eapply R_trans; [exact Hm|apply Hk].
Qed.

Lemma preserves_try_except {A} (m : M A) (h : exn -> M A) :
  preserves R m -> (forall e, preserves R (h e)) -> preserves R (try_except m h).
Proof.
  intros Hm Hh w. unfold try_except. specialize (Hm w).
  destruct (m w) as [a w'|e w']; simpl in *; [assumption|].
  eapply R_trans; [exact Hm|apply Hh].
Qed.

End Preserves.

(** A sequence that ends in a value went through both of its parts. *)
Lemma bind_ok {A B} (m : M A) (k : A -> M B) (w : world) (b : B) (w' : world) :
  bind m k w = Ok b w' -> exists a w1, m w = Ok a w1 /\ k a w1 = Ok b w'.
Proof.
  unfold bind. destruct (m w) as [a w1|e w1]; [|discriminate].
  intro H. now exists a, w1.
Qed.

Lemma bind_raised {A B} (m : M A) (k : A -> M B) (w : world) (e : exn) (w' : world) :
  bind m k w = Raised e w' ->
  m w = Raised e w' \/ exists a w1, m w = Ok a w1 /\ k a w1 = Raised e w'.
Proof.
  unfold bind. destruct (m w) as [a w1|e1 w1].
  - intro H. right. now exists a, w1.
  - intro H. left. now injection H as -> ->.
Qed.

(** One step through the structure of a statement. *)
Ltac pres_step Rr Rt :=
  lazymatch goal with
  | |- preserves _ (bind _ _) => apply (preserves_bind Rt); [|intro]
  | |- preserves _ (try_except _ _) => apply (preserves_try_except Rt); [|intro]
  | |- preserves _ (ret _) => apply (preserves_ret _ Rr)
  | |- preserves _ (raise _) => apply (preserves_raise _ Rr)
  | |- preserves _ get_world => apply (preserves_get_world Rr)
  | |- preserves _ (match ?x with _ => _ end) => destruct x
  end.

Ltac pres Rr Rt := repeat (pres_step Rr Rt).

Lemma grows_refl {X} (tr : world -> list X) P w : grows tr P w w.
Proof. exists []. split; [now rewrite app_nil_r|constructor]. Qed.

Lemma grows_trans {X} (tr : world -> list X) P a b c :
  grows tr P a b -> grows tr P b c -> grows tr P a c.
Proof.
  intros (l1 & E1 & F1) (l2 & E2 & F2). exists (l1 ++ l2). split.
  - now rewrite E2, E1, app_assoc.
  - now apply Forall_app.
Qed.

Lemma keeps_refl {X} (f : world -> X) w : keeps f w w.
Proof. reflexivity. Qed.

Lemma keeps_trans {X} (f : world -> X) a b c :
  keeps f a b -> keeps f b c -> keeps f a c.
Proof. unfold keeps. congruence. Qed.

(** ** The registration handshake *)

Lemma find_token_get (token : pystr) (d : Dict.t socket pystr) (sck : socket) :
  find_token token d = Some sck -> Dict.get sck d <> None.
Proof.
  induction d as [|[s t] d IH]; simpl; [discriminate|].
  destruct (str_eqb (lower t) (lower token)).
  - intros [= ->]. unfold keqb, nat_EqKey. now rewrite Nat.eqb_refl.
  - intro E. destruct (keqb sck s); [discriminate|now apply IH].
Qed.

(** The first entry whose token matches, whatever the case of the letters. *)
Lemma find_token_first (token : pystr) (d : Dict.t socket pystr) (sck : socket) :
  find_token token d = Some sck ->
  exists pre tok post,
    d = pre ++ (sck, tok) :: post
    /\ lower tok = lower token
    /\ Forall (fun e => lower (snd e) <> lower token) pre.
Proof.
  induction d as [|[s t] d IH]; simpl; [discriminate|].
  destruct (str_eqb (lower t) (lower token)) eqn:E.
  - intros [= ->]. exists [], t, d. apply str_eqb_eq in E. repeat split; auto.
  - intro F. destruct (IH F) as (pre & tok & post & -> & L & A).
    exists ((s, t) :: pre), tok, post. repeat split; auto.
    constructor; [|assumption]. simpl. now apply str_eqb_neq.
Qed.

Lemma find_token_none (token : pystr) (d : Dict.t socket pystr) :
  find_token token d = None <->
  Forall (fun e => lower (snd e) <> lower token) d.
Proof.
  induction d as [|[s t] d IH]; simpl.
  - split; [constructor|reflexivity].
  - destruct (str_eqb (lower t) (lower token)) eqn:E.
    + split; [discriminate|]. intro F. inversion F as [|? ? N _]; subst.
      apply str_eqb_eq in E. contradiction.
    + rewrite IH. split; intro F.
      * constructor; [now apply str_eqb_neq|assumption].
      * now inversion F.
Qed.

Lemma matching_nil (token : pystr) (d : Dict.t socket pystr) :
  matching token d = [] <-> find_token token d = None.
Proof.
  rewrite find_token_none. unfold matching.
  induction d as [|[s t] d IH]; simpl.
  - split; [constructor|reflexivity].
  - destruct (str_eqb (lower t) (lower token)) eqn:E.
    + split; [discriminate|]. intro F. inversion F as [|? ? N _]; subst.
      apply str_eqb_eq in E. contradiction.
    + rewrite IH. split; intro F.
      * constructor; [now apply str_eqb_neq|assumption].
      * now inversion F.
Qed.

(** With one matching entry, nothing matches once its socket is popped. *)
Lemma find_token_after_pop (token : pystr) (d : Dict.t socket pystr) (sck : socket) :
  find_token token d = Some sck ->
  List.length (matching token d) = 1 ->
  find_token token (Dict.remove sck d) = None.
Proof.
  intros F L. apply find_token_none.
  destruct (find_token_first _ _ F) as (pre & tok & post & -> & E & A).
  assert (P : Forall (fun e => lower (snd e) <> lower token) post).
  { unfold matching in L. rewrite filter_app in L. simpl in L.
    apply str_eqb_eq in E. rewrite E in L.
    rewrite length_app in L. simpl in L.
    assert (Z : filter (fun e => str_eqb (lower (snd e)) (lower token)) post = [])
      by (destruct (filter _ post); [reflexivity|simpl in L; lia]).
    apply (proj1 (matching_nil token post)) in Z.
    now apply find_token_none. }
  unfold Dict.remove. apply Forall_forall. intros x I.
  apply filter_In in I as [I N].
  apply in_app_or in I as [I|[<-|I]].
  - now apply (proj1 (Forall_forall _ _) A).
  - simpl in N. unfold keqb, nat_EqKey in N. rewrite Nat.eqb_refl in N.
    discriminate.
  - now apply (proj1 (Forall_forall _ _) P).
Qed.

Lemma find_token_lower (token token' : pystr) (d : Dict.t socket pystr) :
  lower token' = lower token -> find_token token' d = find_token token d.
Proof.
  intro E. induction d as [|[s t] d IH]; simpl; [reflexivity|].
  now rewrite E, IH.
Qed.

(** [register_handler], step by step: the scan, the [pop], the encoding
    of the reply and the send. *)
Lemma register_handler_run (token server_id author_id : pystr) (w : world) :
  register_handler token server_id author_id w =
  match find_token token (awaiting_registeration (self w)) with
  | None => Ok false w
  | Some sck =>
      let w1 := set_awaiting_registeration
                  (Dict.remove sck (awaiting_registeration (self w))) w in
      match frame_bytes (py "USERINFORMATION;" ++ server_id ++ py ";" ++ author_id) with
      | None => Raised UnicodeEncodeError w1
      | Some data =>
          if send_raises (env w) sck then Raised OSError w1
          else Ok true (add_net (sck, Sent data) w1)
      end
  end.
Proof.
  unfold register_handler, bind, get_world.
  destruct (find_token token (awaiting_registeration (self w))) as [sck|] eqn:F;
    [|reflexivity].
  unfold pop_awaiting, bind, get_world.
  destruct (Dict.get sck (awaiting_registeration (self w))) eqn:G;
    [|apply find_token_get in F; contradiction].
  unfold modify, encode_utf8, frame_bytes.
  destruct (str_encode _); [|reflexivity].
  unfold ret, sendall, bind, get_world. simpl.
  destruct (send_raises (env w) sck); reflexivity.
Qed.

(** C9.  On a match the pending entry is popped before anything is sent.
    When the send then raises, [register_handler] raises with the entry
    already gone and nothing on the wire; when it goes through, the frame
    is the one thing added after the removal. *)
Theorem register_handler_pops_before_send
    (token server_id author_id : pystr) (w : world) (sck : socket) (data : bytes) :
  find_token token (awaiting_registeration (self w)) = Some sck ->
  frame_bytes (py "USERINFORMATION;" ++ server_id ++ py ";" ++ author_id) = Some data ->
  let popped := set_awaiting_registeration
                  (Dict.remove sck (awaiting_registeration (self w))) w in
  Dict.get sck (awaiting_registeration (self popped)) = None
  /\ net popped = net w
  /\ (send_raises (env w) sck = true ->
      register_handler token server_id author_id w = Raised OSError popped)
  /\ (send_raises (env w) sck = false ->
      register_handler token server_id author_id w
      = Ok true (add_net (sck, Sent data) popped)).
Proof.
  intros F E popped.
  split; [apply get_remove_same|]. split; [reflexivity|].
  split; intro S; rewrite register_handler_run, F, E; cbv zeta; now rewrite S.
Qed.


Lemma register_handler_pops_before_send_witness :
  find_token (py "ABC123") (awaiting_registeration (self (one_pending dead_1))) = Some 1
  /\ frame_bytes (py "USERINFORMATION;" ++ py "room1" ++ py ";" ++ py "userA")
     = Some (py "27==USERINFORMATION;room1;userA")
  /\ send_raises (env (one_pending dead_1)) 1 = true
  /\ register_handler (py "ABC123") (py "room1") (py "userA") (one_pending dead_1)
     = Raised OSError (set_awaiting_registeration [] (one_pending dead_1)).
Proof.
  split; [reflexivity|]. split; [reflexivity|]. split; [reflexivity|].
  exact (proj1 (proj2 (proj2
           (@register_handler_pops_before_send (py "ABC123") (py "room1")
              (py "userA") (one_pending dead_1) 1
              (py "27==USERINFORMATION;room1;userA") eq_refl eq_refl)))
           eq_refl).
Defined.



(** Case is folded as Unicode has it.  A client asks with a token of
    three letters, E acute, t, e acute (U+00C9, t, U+00E9, sent as
    UTF-8): it waits under the token in small letters and is resolved by
    the token in capitals. *)
Example register_handler_accented :
  let w0 := world_of (connection_maintainer 1
                        [RecvData (py "REQUEST;USER_IDENTIFICATION;"
                                   ++ [0xC3; 0x89; 0x74; 0xC3; 0xA9]%N)]
                        (two_clients calm)) in
  awaiting_registeration (self w0) = [(1, [0xE9; 0x74; 0xE9]%N)]
  /\ exists w1,
       register_handler [0xC9; 0x54; 0xC9]%N (py "room1") (py "userA") w0
       = Ok true w1
       /\ awaiting_registeration (self w1) = []
       /\ net w1 = [(1, Sent (py "27==USERINFORMATION;room1;userA"))].
Proof.
  split; [reflexivity|].
  eexists. split; [vm_compute; reflexivity|]. split; reflexivity.
Qed.

(** ** What the statements put on the wire *)

Lemma preserves_ext {A} (R : world -> world -> Prop) (m m' : M A) :
  (forall w, m w = m' w) -> preserves R m' -> preserves R m.
Proof. intros E H w. rewrite E. apply H. Qed.

Create HintDb py_ops.
#[local] Hint Unfold print index local global_name encode_utf8 call_player
  assign_volume float shutdown_socket close_socket run_coroutine_threadsafe
  pop_awaiting pop_server_id : py_ops.

(** An unchanged log has grown by nothing. *)
Ltac grows_nil :=
  intro; exists []; split; [simpl; now rewrite app_nil_r | constructor].

Ltac pres_with Rr Rt special :=
  autounfold with py_ops;
  repeat first
    [ special
    | pres_step Rr Rt
    | apply preserves_modify; grows_nil ].

(** The idiom of every send: encode the framed payload, then [sendall]. *)
Lemma send_framed_then {A} (s : socket) (payload : pystr) (k : unit -> M A) :
  (forall u, preserves sends_frames (k u)) ->
  preserves sends_frames
    (data <- encode_utf8 (frame payload) ;; bind (sendall s data) k).
Proof.
  intros Hk w. unfold bind at 1. unfold encode_utf8.
  destruct (str_encode (frame payload)) as [data|] eqn:E; simpl;
    [|apply grows_refl].
  unfold sendall, get_world, modify, raise, bind. cbv beta.
  destruct (send_raises (env w) s); simpl; [apply grows_refl|].
  eapply grows_trans; [|apply Hk].
  exists [(s, Sent data)]. split; [reflexivity|].
  constructor; [|constructor]. now exists payload, data.
Qed.

Lemma send_framed_last (s : socket) (payload : pystr) :
  preserves sends_frames (data <- encode_utf8 (frame payload) ;; sendall s data).
Proof.
  intro w.
  pose proof (@send_framed_then unit s payload ret
                (fun u => preserves_ret _ (@grows_refl _ net framed_send) u) w) as H.
  unfold bind, ret in *.
  destruct (encode_utf8 (frame payload) w) as [data w1|e w1]; [|exact H].
  destruct (sendall s data w1) as [[] w2|e w2]; exact H.
Qed.

Ltac send_special :=
  first [ apply send_framed_then; intro | apply send_framed_last ].

Create HintDb py_frames.

Ltac pres_frames :=
  pres_with (@grows_refl _ net framed_send) (@grows_trans _ net framed_send)
            ltac:(first [ send_special | solve [eauto with py_frames] ]).

Lemma get_player_values_sends_frames (server_id : pystr) :
  preserves sends_frames (get_player_values server_id).
Proof. unfold get_player_values. pres_frames. Qed.
#[local] Hint Resolve get_player_values_sends_frames : py_frames.

Lemma register_handler_sends_frames (token server_id author_id : pystr) :
  preserves sends_frames (register_handler token server_id author_id).
Proof. unfold register_handler. pres_frames. Qed.

Lemma send_message_sends_frames (author_id message : pystr) :
  preserves sends_frames (send_message author_id message).
Proof. unfold send_message. pres_frames. Qed.
#[local] Hint Resolve send_message_sends_frames : py_frames.

Lemma broadcast_message_sends_frames (message : pystr) :
  preserves sends_frames (broadcast_message message).
Proof.
  assert (L : forall authors to_delete,
            preserves sends_frames (broadcast_message_loop authors message to_delete)).
  { induction authors as [|a r IH]; intro td; simpl; pres_frames. }
  unfold broadcast_message. pres_frames.
Qed.

Lemma broadcast_information_sends_frames :
  preserves sends_frames _broadcast_information.
Proof.
  assert (L : forall items to_delete,
            preserves sends_frames (broadcast_information_loop items to_delete)).
  { induction items as [|[sock sid] r IH]; intro td; simpl; pres_frames. }
  assert (P : forall to_delete, preserves sends_frames (pop_refused to_delete)).
  { induction to_delete as [|k r IH]; simpl; pres_frames. }
  unfold _broadcast_information. pres_frames.
Qed.

(** The PLAY handler never gets past the name it cannot resolve. *)
Lemma play_handler_raises {A} (k : unit -> M A) (w : world) :
  bind (global_name "WrongEntryTypeError") k w
  = Raised (NameError "WrongEntryTypeError") w.
Proof. reflexivity. Qed.

Lemma command_sends_frames (server_id author_id : pystr) (leftover : list pystr) :
  preserves sends_frames (command server_id author_id leftover).
Proof. unfold command, play. pres_frames. Qed.
#[local] Hint Resolve command_sends_frames : py_frames.

Lemma loop_body_sends_frames (c : socket) (r : recv_result) (l : locals) :
  preserves sends_frames (loop_body c r l).
Proof.
  unfold loop_body, handle_message, bind_tables, dispatch.
  change (py "4==pong") with (frame (py "pong")).
  pres_frames.
Qed.

Lemma read_loop_sends_frames (c : socket) (reads : list recv_result) :
  forall l, preserves sends_frames (read_loop c reads l).
Proof.
  induction reads as [|r rest IH]; intros l w; simpl;
    destruct (stop_threads (self w)); try apply grows_refl.
  pose proof (loop_body_sends_frames c r l w) as H.
  destruct (loop_body c r l w) as [[[] l'] w'|e w']; simpl in *; try exact H.
  eapply grows_trans; [exact H|apply IH].
Qed.

(** ** The routing tables *)

(** No string is turned into [USER_IDENTIFICATION] by [lower]: the first
    letter would have to be a capital U. *)
Lemma lower_never_sentinel (s : pystr) :
  str_eqb (lower s) (py "USER_IDENTIFICATION") = false.
Proof.
  pose proof (lower_head s) as H.
  change (py "USER_IDENTIFICATION") with (85%N :: py "SER_IDENTIFICATION").
  destruct (lower s) as [|d r]; [reflexivity|]. cbn [str_eqb].
  now rewrite (proj2 (N.eqb_neq d 85) H).
Qed.

(** So the guard of line 156 lets every message through. *)
Lemma bind_tables_run (c : socket) (server_id author_id : pystr) (w : world) :
  bind_tables c server_id author_id w
  = Ok tt (set_sockets_by_user
             (Dict.set author_id c (sockets_by_user (self w)))
             (set_server_ids (Dict.set c server_id (server_ids (self w))) w)).
Proof.
  unfold bind_tables, str_in. cbn [existsb].
  now rewrite lower_never_sentinel.
Qed.

(** C2 on the code.  The update of [server_ids] and [sockets_by_user] is
    made for every room id, the sentinel included: after the message
    [REQUEST;USER_IDENTIFICATION;ABC123] on socket 1 the connection is
    bound to the room [USER_IDENTIFICATION] and to the user [ABC123], and
    the token is pending as well. *)
Theorem bind_tables_binds_sentinel :
  (forall c server_id author_id w,
     bind_tables c server_id author_id w
     = Ok tt (set_sockets_by_user
                (Dict.set author_id c (sockets_by_user (self w)))
                (set_server_ids (Dict.set c server_id (server_ids (self w))) w)))
  /\ server_ids (self (one_pending calm)) = [(1, py "USER_IDENTIFICATION")]
  /\ sockets_by_user (self (one_pending calm)) = [(py "ABC123", 1)]
  /\ awaiting_registeration (self (one_pending calm)) = [(1, py "abc123")].
Proof.
  split; [exact bind_tables_run|]. repeat split.
Qed.

(** ** The broadcast of the room state *)

(** The first loop hands back the list it was given: its handler raises
    before the append. *)
Lemma broadcast_information_loop_result (items : list (socket * pystr)) :
  forall to_delete w r w',
    broadcast_information_loop items to_delete w = Ok r w' -> r = to_delete.
Proof.
  induction items as [|[sock sid] rest IH]; simpl; intros td w r w' H.
  - now injection H as <- _.
  - apply bind_ok in H as (td' & w1 & H1 & H2).
    apply IH in H2. subst r.
    unfold try_except in H1.
    destruct (bind (get_player_values sid) _ w) as [x wx|e wx] eqn:B.
    + injection H1 as <- <-.
      apply bind_ok in B as (v & w2 & _ & B).
      apply bind_ok in B as (data & w3 & _ & B).
      apply bind_ok in B as (u & w4 & _ & B).
      now injection B as <- _.
    + apply bind_ok in H1 as (u & w2 & H1 & _). discriminate.
Qed.

Ltac pres_self :=
  pres_with (@keeps_refl _ self) (@keeps_trans _ self)
            ltac:(first [ solve [eauto]
                        | apply preserves_modify; intro; reflexivity ]).

Lemma get_player_values_keeps_self (server_id : pystr) :
  preserves keeps_self (get_player_values server_id).
Proof. unfold get_player_values. pres_self. Qed.

Lemma sendall_keeps_self (s : socket) (data : bytes) :
  preserves keeps_self (sendall s data).
Proof. unfold sendall. pres_self. Qed.

Lemma broadcast_information_loop_keeps_self (items : list (socket * pystr)) :
  forall to_delete, preserves keeps_self (broadcast_information_loop items to_delete).
Proof.
  pose proof get_player_values_keeps_self. pose proof sendall_keeps_self.
  induction items as [|[sock sid] rest IH]; intro td; simpl; pres_self.
Qed.

Lemma broadcast_information_keeps_self (w : world) :
  self (world_of (_broadcast_information w)) = self w.
Proof.
  unfold _broadcast_information, bind, get_world.
  pose proof (broadcast_information_loop_keeps_self (server_ids (self w)) [] w) as K.
  destruct (broadcast_information_loop (server_ids (self w)) [] w) as [r w'|e w'] eqn:E;
    [|exact K].
  apply broadcast_information_loop_result in E. subst r. exact K.
Qed.

(** C3 on the code.  [_broadcast_information] never removes a binding:
    the handler of its first loop re-raises, so the append to
    [to_delete] is not reached and the second loop has nothing to pop.
    With sockets 1 and 2 bound to one room and the peer of socket 1 gone,
    the broadcast ends in [OSError] with both bindings in place and
    nothing sent to socket 2.  With both peers there, both get the same
    frame. *)
Theorem broadcast_information_removes_nothing :
  (forall w, self (world_of (_broadcast_information w)) = self w)
  /\ server_ids (self (bound_pair dead_1)) = [(1, py "room1"); (2, py "room1")]
  /\ _broadcast_information (bound_pair dead_1) = Raised OSError (bound_pair dead_1)
  /\ net (bound_pair dead_1) = []
  /\ exists data,
       net (world_of (_broadcast_information (bound_pair calm)))
       = [(1, Sent data); (2, Sent data)].
Proof.
  split; [exact broadcast_information_keeps_self|].
  split; [reflexivity|]. split; [reflexivity|]. split; [reflexivity|].
  eexists. vm_compute. reflexivity.
Qed.

(** ** Commands *)

Lemma play_run (server_id author_id : pystr) (leftover : list pystr) (w : world) :
  play server_id author_id leftover w =
  match nth_error leftover 1 with
  | None => Raised IndexError w
  | Some url =>
      match submit_raises (env w) (add_entry server_id url) with
      | Some e => Raised (NameError "WrongEntryTypeError") w
      | None =>
          Ok tt (add_stdout (LogPlaying author_id url)
                   (add_submitted (add_entry server_id url) w))
      end
  end.
Proof.
  unfold play, index, bind.
  destruct (nth_error leftover 1) as [url|]; [|reflexivity].
  unfold ret, try_except, run_coroutine_threadsafe, bind, get_world.
  destruct (submit_raises (env w) (add_entry server_id url)); reflexivity.
Qed.

Lemma play_never_imports (server_id author_id : pystr) (leftover : list pystr) :
  preserves never_imports (play server_id author_id leftover).
Proof.
  intro w. rewrite play_run.
  destruct (nth_error leftover 1) as [url|]; [|apply grows_refl].
  destruct (submit_raises (env w) (add_entry server_id url)); [apply grows_refl|].
  exists [add_entry server_id url]. split; [reflexivity|].
  constructor; [|constructor]. intros s u. discriminate.
Qed.

Ltac pres_imports :=
  pres_with (@grows_refl _ submitted not_import) (@grows_trans _ submitted not_import)
            ltac:(first
                    [ apply play_never_imports
                    | solve [eauto]
                    | apply preserves_modify; intro; eexists [_];
                      split; [reflexivity|];
                      constructor; [intros ? ?; discriminate|constructor] ]).

Lemma get_player_values_never_imports (server_id : pystr) :
  preserves never_imports (get_player_values server_id).
Proof. unfold get_player_values. pres_imports. Qed.

Lemma sendall_never_imports (s : socket) (data : bytes) :
  preserves never_imports (sendall s data).
Proof. unfold sendall. pres_imports. Qed.

Lemma loop_body_never_imports (c : socket) (r : recv_result) (l : locals) :
  preserves never_imports (loop_body c r l).
Proof.
  pose proof get_player_values_never_imports. pose proof sendall_never_imports.
  unfold loop_body, handle_message, bind_tables, dispatch, command.
  pres_imports.
Qed.

Lemma read_loop_never_imports (c : socket) (reads : list recv_result) :
  forall l, preserves never_imports (read_loop c reads l).
Proof.
  induction reads as [|r rest IH]; intros l w; simpl;
    destruct (stop_threads (self w)); try apply grows_refl.
  pose proof (loop_body_never_imports c r l w) as H.
  destruct (loop_body c r l w) as [[[] l'] w'|e w']; simpl in *; try exact H.
  eapply grows_trans; [exact H|apply IH].
Qed.

Lemma teardown_never_imports (c : socket) (l : locals) :
  preserves never_imports (teardown c l).
Proof.
  assert (S : forall conns a td,
            preserves never_imports (scan_connections conns c a td)).
  { induction conns as [|[[t s] a0] rest IH]; intros a td; simpl; pres_imports. }
  unfold teardown. pres_imports.
Qed.

Lemma connection_maintainer_never_imports (c : socket) (reads : list recv_result) :
  preserves never_imports (connection_maintainer c reads).
Proof.
  pose proof read_loop_never_imports. pose proof teardown_never_imports.
  unfold connection_maintainer. pres_imports.
Qed.

(** C7 on the code.  The PLAY branch hands [add_entry] to the loop and
    prints the Playing line; what the coroutine ends with is set on a
    [Future] nobody reads, so a rejection for the wrong entry type
    triggers nothing.  When handing over raises in the thread, the
    [except] clause fails on the unbound name [WrongEntryTypeError] and
    the [NameError] leaves the thread.  No run of the connection's thread
    ever hands [import_from] to the loop. *)
Theorem play_never_retries :
  (forall server_id author_id leftover w,
     play server_id author_id leftover w =
     match nth_error leftover 1 with
     | None => Raised IndexError w
     | Some url =>
         match submit_raises (env w) (add_entry server_id url) with
         | Some e => Raised (NameError "WrongEntryTypeError") w
         | None =>
             Ok tt (add_stdout (LogPlaying author_id url)
                      (add_submitted (add_entry server_id url) w))
         end
     end)
  /\ (forall c reads w,
        exists l,
          submitted (world_of (connection_maintainer c reads w)) = submitted w ++ l
          /\ Forall not_import l)
  /\ coroutine_result rejecting (add_entry (py "room1") (py "playlist"))
     = Some WrongEntryTypeError
  /\ submitted (world_of (connection_maintainer 1
                   [RecvData (py "COMMAND;room1;userA;PLAY;playlist")]
                   (one_listener rejecting)))
     = [add_entry (py "room1") (py "playlist")]
  /\ stdout (world_of (connection_maintainer 1
                [RecvData (py "COMMAND;room1;userA;PLAY;playlist")]
                (one_listener rejecting)))
     = [LogPlaying (py "userA") (py "playlist")]
  /\ exists w',
       connection_maintainer 1 [RecvData (py "COMMAND;room1;userA;PLAY;playlist")]
         (one_listener closed_loop)
       = Raised (NameError "WrongEntryTypeError") w'
       /\ submitted w' = [] /\ stdout w' = [] /\ net w' = [].
Proof.
  split; [exact play_run|].
  split; [intros c reads w; apply connection_maintainer_never_imports|].
  split; [reflexivity|]. split; [reflexivity|]. split; [reflexivity|].
  eexists. split; [vm_compute; reflexivity|]. repeat split.
Qed.

(** ** Leaving the loop *)

(** A message of fewer than three fields: the handler prints the line and
    breaks; nothing is sent, no table changes, and [author_id] is left as
    it was. *)
Lemma handle_message_malformed (c : socket) (msg : pystr) (l : locals) (w : world) :
  List.length (split_on 59 msg) < 3 ->
  exists l',
    handle_message c msg l w = Ok (Break, l') (add_stdout LogMalformed w)
    /\ l_author_id l' = l_author_id l.
Proof.
  intro H. unfold handle_message.
  destruct (split_on 59 msg) as [|p0 [|p1 [|p2 ps]]]; simpl in *;
    try (eexists; split; reflexivity).
  lia.
Qed.

Lemma teardown_unbound (c : socket) (l : locals) (w : world) :
  l_author_id l = None ->
  teardown c l w = Raised (UnboundLocalError "author_id") w.
Proof. intro E. unfold teardown, local. now rewrite E. Qed.

(** C6 on the code.  When the first message read on a connection has
    fewer than three fields, the loop is left, and the first statement
    after it reads [author_id], which was never assigned: the thread ends
    in [UnboundLocalError] having printed the one line.  No reply is
    sent, and the socket is neither shut down nor closed. *)
Theorem malformed_first_message
    (c : socket) (data : bytes) (msg : pystr) (w : world) :
  bytes_decode data = Some msg ->
  str_in msg [py "exit"; py "sdown"; py ""] = false ->
  str_eqb msg (py "ping") = false ->
  List.length (split_on 59 msg) < 3 ->
  stop_threads (self w) = false ->
  connection_maintainer c [RecvData data] w
  = Raised (UnboundLocalError "author_id") (add_stdout LogMalformed w)
  /\ net (add_stdout LogMalformed w) = net w
  /\ self (add_stdout LogMalformed w) = self w.
Proof.
  intros D X P L S. split; [|split; reflexivity].
  unfold connection_maintainer, bind. simpl read_loop. rewrite S.
  unfold loop_body. unfold str_in in X. cbn [existsb] in X. rewrite D, X, P.
  destruct (handle_message_malformed c msg no_locals w L) as (l' & -> & A).
  now rewrite (teardown_unbound c l' _ A).
Qed.

Lemma malformed_first_message_witness :
  bytes_decode (py "hello") = Some (py "hello")
  /\ str_in (py "hello") [py "exit"; py "sdown"; py ""] = false
  /\ str_eqb (py "hello") (py "ping") = false
  /\ List.length (split_on 59 (py "hello")) < 3
  /\ stop_threads (self (two_clients calm)) = false
  /\ connection_maintainer 1 [RecvData (py "hello")] (two_clients calm)
     = Raised (UnboundLocalError "author_id")
         (add_stdout LogMalformed (two_clients calm))
  /\ net (add_stdout LogMalformed (two_clients calm)) = []
  /\ connections (self (add_stdout LogMalformed (two_clients calm)))
     = [(11, 1, 101); (12, 2, 102)].
Proof.
  split; [reflexivity|]. split; [reflexivity|]. split; [reflexivity|].
  split; [simpl; lia|]. split; [reflexivity|].
  split; [|split; reflexivity].
  exact (proj1 (@malformed_first_message 1 (py "hello") (py "hello")
                  (two_clients calm) eq_refl eq_refl eq_refl
                  (le_S _ _ (le_n 2)) eq_refl)).
Defined.

(** The scan of [connections] prints and touches nothing else. *)
Lemma scan_connections_run (conns : list (nat * socket * nat)) (c : socket)
    (a : pystr) :
  forall to_delete w,
  exists r w',
    scan_connections conns c a to_delete w = Ok r w'
    /\ self w' = self w /\ net w' = net w /\ env w' = env w.
Proof.
  induction conns as [|[[t s] a0] rest IH]; intros td w; simpl.
  - now exists td, w.
  - destruct (Nat.eqb s c).
    + unfold bind, print, modify.
      destruct (IH (Some (t, s, a0)) (add_stdout (LogShuttingDown a a0) w))
        as (r & w' & E & ? & ? & ?).
      now exists r, w'.
    + apply IH.
Qed.

(** The teardown when both locals are bound and the socket takes the
    [shutdown]. *)
Lemma teardown_run (c : socket) (l : locals) (w : world) (a s : pystr) :
  l_author_id l = Some a ->
  l_server_id l = Some s ->
  shutdown_raises (env w) c = false ->
  exists w',
    teardown c l w = Ok tt w'
    /\ server_ids (self w') = Dict.remove c (server_ids (self w))
    /\ sockets_by_user (self w')
       = Dict.remove (a ++ py "_" ++ s) (sockets_by_user (self w))
    /\ awaiting_registeration (self w') = awaiting_registeration (self w)
    /\ net w' = net w ++ [(c, Shutdown); (c, Close)].
Proof.
  intros A S H. unfold teardown, local. rewrite A, S.
  unfold bind at 1. unfold ret at 1. unfold bind at 1. unfold ret at 1.
  unfold bind at 1. unfold get_world at 1.
  unfold bind at 1. unfold modify at 1.
  set (w1 := set_sockets_by_user _ w).
  unfold bind at 1.
  assert (P : exists w2,
            (match Dict.get (a ++ py "_" ++ s) (sockets_by_user (self w)) with
             | Some _ => ret tt
             | None => print (LogFailedRemove c a)
             end) w1 = Ok tt w2
            /\ self w2 = self w1 /\ net w2 = net w /\ env w2 = env w).
  { destruct (Dict.get _ _); eexists; (split; [reflexivity|]); repeat split. }
  destruct P as (w2 & -> & E2 & N2 & V2).
  unfold bind at 1. unfold get_world at 1.
  unfold bind at 1.
  destruct (scan_connections_run (connections (self w2)) c a None w2)
    as (r & w3 & -> & E3 & N3 & V3).
  unfold bind at 1.
  assert (Q : exists w4,
            (match r with
             | Some x => modify (fun w0 =>
                 set_connections (list_remove x (connections (self w0))) w0)
             | None => print (LogCouldntRemove a)
             end) w3 = Ok tt w4
            /\ server_ids (self w4) = server_ids (self w3)
            /\ sockets_by_user (self w4) = sockets_by_user (self w3)
            /\ awaiting_registeration (self w4) = awaiting_registeration (self w3)
            /\ net w4 = net w /\ env w4 = env w).
  { destruct r; eexists; (split; [reflexivity|]); simpl; repeat split; congruence. }
  destruct Q as (w4 & -> & S4 & U4 & A4 & N4 & V4).
  unfold bind, modify, shutdown_socket, close_socket, get_world, bind, modify.
  cbn [env set_server_ids]. rewrite V4, H.
  eexists. split; [reflexivity|].
  cbn. rewrite S4, U4, A4, N4, E3, E2. unfold w1. cbn.
  repeat split. now rewrite <- app_assoc.
Qed.

Lemma ret_ok {A} (a b : A) (w w' : world) : ret a w = Ok b w' -> a = b /\ w = w'.
Proof. unfold ret. intros [= -> ->]. now split. Qed.

Lemma handle_message_locals (c : socket) (msg : pystr) (l l' : locals)
    (f : flow) (w w' : world) :
  handle_message c msg l w = Ok (f, l') w' -> locals_ok l -> locals_ok l'.
Proof.
  unfold handle_message, locals_ok.
  destruct (nth_error (split_on 59 msg) 1) as [sid|].
  - destruct (nth_error (split_on 59 msg) 2) as [aid|]; intros H I.
    + apply bind_ok in H as (? & ? & _ & H).
      apply bind_ok in H as (? & ? & _ & H).
      apply ret_ok in H as [[= _ <-] _]. simpl. discriminate.
    + apply bind_ok in H as (? & ? & _ & H).
      apply ret_ok in H as [[= _ <-] _]. simpl. discriminate.
  - intros H I. apply bind_ok in H as (? & ? & _ & H).
    apply ret_ok in H as [[= _ <-] _]. simpl. exact I.
Qed.

Lemma loop_body_locals (c : socket) (r : recv_result) (l l' : locals)
    (f : flow) (w w' : world) :
  loop_body c r l w = Ok (f, l') w' -> locals_ok l -> locals_ok l'.
Proof.
  unfold loop_body. destruct r as [| |data].
  - intros H. apply ret_ok in H as [[= _ <-] _]. auto.
  - intros H. apply ret_ok in H as [[= _ <-] _]. auto.
  - destruct (bytes_decode data) as [msg|]; [|discriminate].
    destruct (str_in msg _).
    + intros H. apply ret_ok in H as [[= _ <-] _]. auto.
    + destruct (str_eqb msg (py "ping")).
      * intros H. apply bind_ok in H as (? & ? & _ & H).
        apply bind_ok in H as (? & ? & _ & H).
        apply ret_ok in H as [[= _ <-] _]. auto.
      * apply handle_message_locals.
Qed.

Lemma read_loop_locals (c : socket) (reads : list recv_result) :
  forall l l' w w',
    read_loop c reads l w = Ok (Exited l') w' -> locals_ok l -> locals_ok l'.
Proof.
  induction reads as [|r rest IH]; intros l l' w w'; simpl;
    destruct (stop_threads (self w)); try discriminate;
    try (intros [= <- _]; now auto).
  destruct (loop_body c r l w) as [[[] l1] w1|e w1] eqn:B; try discriminate.
  - intros H I. eapply IH; [exact H|]. eapply loop_body_locals; eauto.
  - intros [= <- _] I. eapply loop_body_locals; eauto.
Qed.

Lemma filter_framed_sends (c : socket) (sends : list (socket * sock_call)) :
  Forall framed_send sends ->
  filter (is_shutdown_of c) sends = [] /\ filter (is_close_of c) sends = [].
Proof.
  induction 1 as [|x l (p & d & E & _) _ [IH1 IH2]]; simpl; [now split|].
  unfold is_shutdown_of, is_close_of. rewrite E, !andb_false_r. now split.
Qed.

(** What the teardown does achieve.  When the loop is left with
    [author_id] bound, that is after some message of three or more fields
    was read, and the socket takes the [shutdown] call, the thread
    returns: the connection's entry is gone from [server_ids], the socket
    is shut down and then closed, each once in the whole run, after the
    frames the loop sent.  [awaiting_registeration] is not touched: a
    token the connection left pending stays pending. *)
Theorem teardown_purges_room_binding
    (c : socket) (reads : list recv_result) (w w1 : world) (l : locals) :
  read_loop c reads no_locals w = Ok (Exited l) w1 ->
  l_author_id l <> None ->
  shutdown_raises (env w1) c = false ->
  exists w2 sends,
    connection_maintainer c reads w = Ok Returned w2
    /\ Dict.get c (server_ids (self w2)) = None
    /\ awaiting_registeration (self w2) = awaiting_registeration (self w1)
    /\ net w1 = net w ++ sends
    /\ net w2 = net w ++ sends ++ [(c, Shutdown); (c, Close)]
    /\ filter (is_shutdown_of c) (sends ++ [(c, Shutdown); (c, Close)])
       = [(c, Shutdown)]
    /\ filter (is_close_of c) (sends ++ [(c, Shutdown); (c, Close)])
       = [(c, Close)].
Proof.
  intros L A S.
  assert (I : locals_ok l).
  { eapply read_loop_locals; [exact L|]. intro N. now elim N. }
  destruct (l_author_id l) as [a|] eqn:Ea; [|now elim A].
  destruct (l_server_id l) as [s|] eqn:Es;
    [|exfalso; apply I; [rewrite Ea; discriminate|exact Es]].
  destruct (teardown_run c l w1 Ea Es S) as (w2 & T & S2 & _ & A2 & N2).
  destruct (read_loop_sends_frames c reads no_locals w) as (sends & N1 & F).
  rewrite L in N1. simpl in N1.
  exists w2, sends.
  split; [unfold connection_maintainer, bind; now rewrite L, T|].
  split; [rewrite S2; apply get_remove_same|].
  split; [exact A2|]. split; [exact N1|].
  split; [now rewrite N2, N1, <- app_assoc|].
  destruct (filter_framed_sends c F) as [F1 F2].
  rewrite !filter_app, F1, F2. simpl.
  unfold is_shutdown_of, is_close_of. simpl. rewrite Nat.eqb_refl. now split.
Qed.

Lemma teardown_purges_room_binding_witness :
  exists l w1,
    read_loop 1 [RecvData (py "REQUEST;room1;userA;SEND_INFORMATION");
                 identification; RecvData (py "exit")] no_locals (two_clients calm)
    = Ok (Exited l) w1
    /\ l_author_id l <> None
    /\ shutdown_raises (env w1) 1 = false
    /\ exists w2 sends,
         connection_maintainer 1
           [RecvData (py "REQUEST;room1;userA;SEND_INFORMATION");
            identification; RecvData (py "exit")] (two_clients calm)
         = Ok Returned w2
         /\ Dict.get 1 (server_ids (self w2)) = None
         /\ awaiting_registeration (self w2) = awaiting_registeration (self w1)
         /\ net w1 = net (two_clients calm) ++ sends
         /\ net w2 = net (two_clients calm) ++ sends ++ [(1, Shutdown); (1, Close)]
         /\ filter (is_shutdown_of 1) (sends ++ [(1, Shutdown); (1, Close)])
            = [(1, Shutdown)]
         /\ filter (is_close_of 1) (sends ++ [(1, Shutdown); (1, Close)])
            = [(1, Close)].
Proof.
  eexists. eexists.
  split; [vm_compute; reflexivity|].
  split; [discriminate|]. split; [reflexivity|].
  refine (@teardown_purges_room_binding 1 _ (two_clients calm) _ _ _ _ _);
    [vm_compute; reflexivity|discriminate|reflexivity].
Defined.

(** C1 on the code.  The teardown leaves entries behind and can end
    before the socket is closed.  A connection binds itself to a room,
    asks to be identified and sends [exit]: line 229 pops the key
    [ABC123_USER_IDENTIFICATION], built from the last message, which is
    no key of [sockets_by_user], so both user entries of the connection
    stay (and the line about the failed removal is printed); nothing
    removes the pending token; only [server_ids] is purged.  A
    connection whose first message is [exit] ends in [UnboundLocalError]
    at line 229, its socket neither shut down nor closed and its tuple
    still in [connections].  A connection whose peer is gone, so that
    [shutdown] raises, ends in [OSError] at line 247: [close] is never
    called. *)
Theorem teardown_leaves_entries :
  (exists w2,
     connection_maintainer 1
       [RecvData (py "REQUEST;room1;userA"); identification; RecvData (py "exit")]
       (two_clients calm)
     = Ok Returned w2
     /\ server_ids (self w2) = []
     /\ awaiting_registeration (self w2) = [(1, py "abc123")]
     /\ sockets_by_user (self w2) = [(py "userA", 1); (py "ABC123", 1)]
     /\ In (LogFailedRemove 1 (py "ABC123")) (stdout w2)
     /\ net w2 = [(1, Shutdown); (1, Close)])
  /\ (connection_maintainer 1 [RecvData (py "exit")] (two_clients calm)
      = Raised (UnboundLocalError "author_id") (two_clients calm)
      /\ net (two_clients calm) = []
      /\ connections (self (two_clients calm)) = [(11, 1, 101); (12, 2, 102)])
  /\ (exists w2,
        connection_maintainer 1
          [RecvData (py "REQUEST;room1;userA"); RecvData (py "exit")]
          (two_clients reset_1)
        = Raised OSError w2
        /\ net w2 = []
        /\ sockets_by_user (self w2) = [(py "userA", 1)]).
Proof.
  split; [|split].
  - eexists. split; [vm_compute; reflexivity|].
    split; [reflexivity|]. split; [reflexivity|]. split; [reflexivity|].
    split; [|reflexivity]. simpl. tauto.
  - repeat split.
  - eexists. split; [vm_compute; reflexivity|]. split; reflexivity.
Qed.

(** ** What the loop reads *)

(** Linear arithmetic with division and remainder by constants. *)
Ltac div_lia := zify; Z.to_euclidean_division_equations; lia.

Lemma is_cont_range (b : N) : is_cont b = true -> (0x80 <= b < 0xC0)%N.
Proof.
  unfold is_cont. intro H. apply andb_true_iff in H as [H1 H2].
  apply N.leb_le in H1. apply N.ltb_lt in H2. lia.
Qed.

Lemma encode_1 (b0 : N) : (b0 < 0x80)%N -> utf8_encode_cp b0 = Some [b0].
Proof.
  intro H. unfold utf8_encode_cp. now destruct (N.ltb_spec b0 0x80); [|lia].
Qed.

Lemma encode_2 (b0 b1 : N) :
  (0xC2 <= b0 < 0xE0)%N -> (0x80 <= b1 < 0xC0)%N ->
  utf8_encode_cp ((b0 - 0xC0) * 64 + (b1 - 0x80))%N = Some [b0; b1].
Proof.
  intros H0 H1. unfold utf8_encode_cp.
  set (c := ((b0 - 0xC0) * 64 + (b1 - 0x80))%N).
  assert (Hc : (128 <= c < 2048)%N) by (unfold c; lia).
  destruct (N.ltb_spec c 0x80); [lia|].
  destruct (N.ltb_spec c 0x800); [|lia].
  f_equal. f_equal; [|f_equal]; unfold c; div_lia.
Qed.

Lemma encode_3 (b0 b1 b2 : N) :
  (0xE0 <= b0 < 0xF0)%N -> (0x80 <= b1 < 0xC0)%N -> (0x80 <= b2 < 0xC0)%N ->
  let c := ((b0 - 0xE0) * 4096 + (b1 - 0x80) * 64 + (b2 - 0x80))%N in
  (0x800 <= c)%N ->
  ((0xD800 <=? c) && (c <=? 0xDFFF))%N = false ->
  utf8_encode_cp c = Some [b0; b1; b2].
Proof.
  intros H0 H1 H2 c Hc Hs. unfold utf8_encode_cp. rewrite Hs.
  assert (Hu : (c < 0x10000)%N) by (unfold c; lia).
  destruct (N.ltb_spec c 0x80); [lia|].
  destruct (N.ltb_spec c 0x800); [lia|].
  destruct (N.ltb_spec c 0x10000); [|lia].
  f_equal. f_equal; [|f_equal; [|f_equal]]; unfold c; div_lia.
Qed.

Lemma encode_4 (b0 b1 b2 b3 : N) :
  (0xF0 <= b0 < 0xF5)%N -> (0x80 <= b1 < 0xC0)%N -> (0x80 <= b2 < 0xC0)%N ->
  (0x80 <= b3 < 0xC0)%N ->
  let c := ((b0 - 0xF0) * 262144 + (b1 - 0x80) * 4096
            + (b2 - 0x80) * 64 + (b3 - 0x80))%N in
  (0x10000 <= c < 0x110000)%N ->
  utf8_encode_cp c = Some [b0; b1; b2; b3].
Proof.
  intros H0 H1 H2 H3 c Hc. unfold utf8_encode_cp.
  destruct (N.ltb_spec c 0x80); [lia|].
  destruct (N.ltb_spec c 0x800); [lia|].
  destruct (N.ltb_spec c 0x10000); [lia|].
  destruct (N.ltb_spec c 0x110000); [|lia].
  f_equal. f_equal; [|f_equal; [|f_equal; [|f_equal]]]; unfold c; div_lia.
Qed.

(** The strict decoder accepts only the encoding of the text it returns. *)
Lemma bytes_decode_canonical_upto (n : nat) : forall bs s,
  List.length bs <= n -> bytes_decode bs = Some s -> str_encode s = Some bs.
Proof.
  induction n as [|n IH]; intros bs s L D.
  - destruct bs; [|simpl in L; lia]. now injection D as <-.
  - destruct bs as [|b0 r0]; [now injection D as <-|].
    cbn [bytes_decode] in D. simpl in L.
    destruct (N.ltb_spec b0 0x80) as [H0|H0].
    { destruct (bytes_decode r0) as [s0|] eqn:E; [|discriminate].
      injection D as <-. cbn [str_encode].
      rewrite (encode_1 H0), (IH r0 s0) by (assumption || lia). reflexivity. }
    destruct (N.ltb_spec b0 0xC2) as [H1|H1]; [discriminate|].
    destruct (N.ltb_spec b0 0xE0) as [H2|H2].
    { destruct r0 as [|b1 r1]; [discriminate|].
      destruct (is_cont b1) eqn:C1; [|discriminate].
      destruct (bytes_decode r1) as [s1|] eqn:E; [|discriminate].
      injection D as <-. cbn [str_encode]. simpl in L.
      apply is_cont_range in C1.
      rewrite encode_2, (IH r1 s1) by (assumption || lia). reflexivity. }
    destruct (N.ltb_spec b0 0xF0) as [H3|H3].
    { destruct r0 as [|b1 [|b2 r2]]; try discriminate.
      cbv zeta in D.
      destruct (is_cont b1) eqn:C1; [|discriminate].
      destruct (is_cont b2) eqn:C2; [|discriminate].
      cbn [andb] in D.
      destruct (N.leb_spec 0x800 ((b0 - 0xE0) * 4096 + (b1 - 0x80) * 64 + (b2 - 0x80))) as [Hc|Hc];
        [|discriminate].
      cbn [andb] in D.
      destruct ((0xD800 <=? (b0 - 0xE0) * 4096 + (b1 - 0x80) * 64 + (b2 - 0x80))
                && ((b0 - 0xE0) * 4096 + (b1 - 0x80) * 64 + (b2 - 0x80) <=? 0xDFFF))%N eqn:Hs;
        [discriminate|].
      cbn [negb] in D.
      destruct (bytes_decode r2) as [s2|] eqn:E; [|discriminate].
      injection D as <-. cbn [str_encode]. simpl in L.
      apply is_cont_range in C1, C2.
      rewrite encode_3, (IH r2 s2) by (assumption || lia). reflexivity. }
    destruct (N.ltb_spec b0 0xF5) as [H4|H4]; [|discriminate].
    destruct r0 as [|b1 [|b2 [|b3 r3]]]; try discriminate.
    cbv zeta in D.
    destruct (is_cont b1) eqn:C1; [|discriminate].
    destruct (is_cont b2) eqn:C2; [|discriminate].
    destruct (is_cont b3) eqn:C3; [|discriminate].
    cbn [andb] in D.
    destruct (N.leb_spec 0x10000 ((b0 - 0xF0) * 262144 + (b1 - 0x80) * 4096
                                  + (b2 - 0x80) * 64 + (b3 - 0x80))) as [Hc|Hc];
      [|discriminate].
    cbn [andb] in D.
    destruct (N.ltb_spec ((b0 - 0xF0) * 262144 + (b1 - 0x80) * 4096
                          + (b2 - 0x80) * 64 + (b3 - 0x80)) 0x110000) as [Hd|Hd];
      [|discriminate].
    destruct (bytes_decode r3) as [s3|] eqn:E; [|discriminate].
    injection D as <-. cbn [str_encode]. simpl in L.
    apply is_cont_range in C1, C2, C3.
    rewrite encode_4, (IH r3 s3) by (assumption || lia). reflexivity.
Qed.

Lemma bytes_decode_canonical (bs : bytes) (s : pystr) :
  bytes_decode bs = Some s -> str_encode s = Some bs.
Proof. apply (@bytes_decode_canonical_upto (List.length bs)). apply le_n. Qed.

(** The framed form of a payload starts with a digit, so it is none of
    the literal bodies. *)
Lemma frame_head (payload : pystr) :
  exists d r, frame payload = d :: r /\ (48 <= d <= 57)%N.
Proof.
  unfold frame.
  destruct (str_of_nat_head (List.length payload)) as (d & r & -> & H).
  now exists d, (r ++ py "==" ++ payload).
Qed.

Lemma frame_not_literal (payload : pystr) :
  str_in (frame payload) [py "exit"; py "sdown"; py ""] = false
  /\ str_eqb (frame payload) (py "ping") = false.
Proof.
  destruct (frame_head payload) as (d & r & -> & H).
  assert (E : forall x s, (x = 101 \/ x = 115 \/ x = 112)%N ->
                          str_eqb (d :: r) (x :: s) = false).
  { intros x s X. cbn [str_eqb]. replace (d =? x)%N with false; [reflexivity|].
    symmetry. apply N.eqb_neq. lia. }
  split.
  - unfold str_in. cbn [existsb].
    change (py "exit") with (101%N :: py "xit").
    change (py "sdown") with (115%N :: py "down").
    rewrite !E by lia. reflexivity.
  - change (py "ping") with (112%N :: py "ing"). apply E. lia.
Qed.

(** The verb is the first field of the text as it was read. *)
Lemma handle_message_request (c : socket) (msg : pystr) (l l' : locals)
    (f : flow) (w w' : world) :
  handle_message c msg l w = Ok (f, l') w' ->
  l_request l' = Some (hd [] (split_on 59 msg)).
Proof.
  unfold handle_message.
  destruct (nth_error (split_on 59 msg) 1) as [sid|].
  - destruct (nth_error (split_on 59 msg) 2) as [aid|]; intros H.
    + apply bind_ok in H as (? & ? & _ & H).
      apply bind_ok in H as (? & ? & _ & H).
      now apply ret_ok in H as [[= _ <-] _].
    + apply bind_ok in H as (? & ? & _ & H).
      now apply ret_ok in H as [[= _ <-] _].
  - intros H. apply bind_ok in H as (? & ? & _ & H).
    now apply ret_ok in H as [[= _ <-] _].
Qed.



(** * Further properties of the module *)

(** ** Splitting and joining on the separator *)

Lemma split_on_no_sep (sep : N) (x : pystr) :
  ~ In sep x -> split_on sep x = [x].
Proof.
  induction x as [|c x IH]; simpl; intro H; [reflexivity|].
  destruct (N.eqb_spec c sep) as [->|N]; [exfalso; apply H; now left|].
  rewrite IH by (intro I; apply H; now right). reflexivity.
Qed.

Lemma split_on_app_sep (sep : N) (x s : pystr) :
  ~ In sep x -> split_on sep (x ++ sep :: s) = x :: split_on sep s.
Proof.
  induction x as [|c x IH]; simpl; intro H.
  - now rewrite N.eqb_refl.
  - destruct (N.eqb_spec c sep) as [->|N]; [exfalso; apply H; now left|].
    rewrite IH by (intro I; apply H; now right). reflexivity.
Qed.

Lemma split_on_not_nil (sep : N) (s : pystr) : split_on sep s <> [].
Proof.
  induction s as [|c s IH]; simpl; [discriminate|].
  destruct (c =? sep)%N; [discriminate|].
  destruct (split_on sep s); [contradiction|discriminate].
Qed.

Lemma join_split_on (sep : N) (s : pystr) : join [sep] (split_on sep s) = s.
Proof.
  induction s as [|c s IH]; simpl; [reflexivity|].
  pose proof (split_on_not_nil sep s) as P.
  destruct (split_on sep s) as [|p ps]; [contradiction|].
  destruct (N.eqb_spec c sep) as [->|N].
  - change (join [sep] ([] :: p :: ps)) with (sep :: join [sep] (p :: ps)).
    now rewrite IH.
  - destruct ps as [|q qs].
    + simpl in *. now rewrite IH.
    + change (join [sep] ((c :: p) :: q :: qs))
        with (c :: join [sep] (p :: q :: qs)).
      now rewrite IH.
Qed.

(** Splitting the join of a non-empty list of fields, none of which
    holds the separator, gives the fields back. *)
Lemma split_on_join (sep : N) (x : pystr) (fields : list pystr) :
  no_sep sep (x :: fields) ->
  split_on sep (join [sep] (x :: fields)) = x :: fields.
Proof.
  revert x.
  induction fields as [|y r IH]; intros x H; inversion H as [|? ? Hx Hr]; subst.
  - now apply split_on_no_sep.
  - change (join [sep] (x :: y :: r)) with (x ++ sep :: join [sep] (y :: r)).
    rewrite split_on_app_sep by assumption. now rewrite IH.
Qed.

(** ** What a full message does to the routing tables *)

Ltac pres_routes :=
  pres_with (@keeps_refl _ (fun w => (server_ids (self w), sockets_by_user (self w))))
            (@keeps_trans _ (fun w => (server_ids (self w), sockets_by_user (self w))))
            ltac:(first [ solve [eauto]
                        | apply preserves_modify; intro; reflexivity ]).

Lemma get_player_values_keeps_routes (server_id : pystr) :
  preserves keeps_routes (get_player_values server_id).
Proof. unfold get_player_values. pres_routes. Qed.

Lemma sendall_keeps_routes (s : socket) (data : bytes) :
  preserves keeps_routes (sendall s data).
Proof. unfold sendall. pres_routes. Qed.

Lemma dispatch_keeps_routes (c : socket) (request server_id author_id : pystr)
    (leftover : list pystr) :
  preserves keeps_routes (dispatch c request server_id author_id leftover).
Proof.
  pose proof get_player_values_keeps_routes. pose proof sendall_keeps_routes.
  unfold dispatch, command, play. pres_routes.
Qed.

(** A message of three or more fields, whatever its verb and whatever
    becomes of its dispatch, leaves the connection bound to the room it
    names and the user it names bound to the connection; an earlier room
    of the connection and an earlier connection of the user are
    overwritten.  When the dispatch returns, the loop goes on with the
    four locals bound to the fields. *)
Theorem full_message_binds_routes
    (c : socket) (verb room user : pystr) (args : list pystr)
    (l : locals) (w : world) :
  no_sep 59 (verb :: room :: user :: args) ->
  let o := handle_message c (join [59%N] (verb :: room :: user :: args)) l w in
  Dict.get c (server_ids (self (world_of o))) = Some room
  /\ Dict.get user (sockets_by_user (self (world_of o))) = Some c
  /\ (forall f l' w',
        o = Ok (f, l') w' ->
        f = Continue
        /\ l' = {| l_request := Some verb; l_server_id := Some room;
                   l_author_id := Some user; l_leftover := Some args |}).
Proof.
  intros H o. unfold o. clear o.
  set (w1 := set_sockets_by_user (Dict.set user c (sockets_by_user (self w)))
               (set_server_ids (Dict.set c room (server_ids (self w))) w)).
  assert (E : handle_message c (join [59%N] (verb :: room :: user :: args)) l w
              = match dispatch c verb room user args w1 with
                | Ok _ w2 =>
                    Ok (Continue,
                        {| l_request := Some verb; l_server_id := Some room;
                           l_author_id := Some user; l_leftover := Some args |}) w2
                | Raised e w2 => Raised e w2
                end).
  { unfold handle_message. rewrite (split_on_join H).
    cbn [nth_error hd skipn]. unfold bind. now rewrite bind_tables_run. }
  rewrite E.
  pose proof (dispatch_keeps_routes c verb room user args w1) as K.
  unfold keeps_routes, keeps in K.
  assert (T : Dict.get c (server_ids (self w1)) = Some room
              /\ Dict.get user (sockets_by_user (self w1)) = Some c).
  { unfold w1. simpl. split; apply get_set_same. }
  destruct (dispatch c verb room user args w1) as [[] w2|e w2];
    cbn [world_of] in *; injection K as K1 K2; rewrite K1, K2;
    (split; [apply T|split; [apply T|]]).
  - intros f l' w' [= <- <- _]. now split.
  - discriminate.
Qed.

Lemma full_message_binds_routes_witness :
  no_sep 59 [py "COMMAND"; py "room1"; py "userA"; py "SKIP"]
  /\ Dict.get 1 (server_ids (self (world_of
        (handle_message 1 (py "COMMAND;room1;userA;SKIP") no_locals (two_clients calm)))))
     = Some (py "room1")
  /\ Dict.get (py "userA") (sockets_by_user (self (world_of
        (handle_message 1 (py "COMMAND;room1;userA;SKIP") no_locals (two_clients calm)))))
     = Some 1.
Proof.
  assert (H : no_sep 59 [py "COMMAND"; py "room1"; py "userA"; py "SKIP"]).
  { repeat constructor; intro I; vm_compute in I; intuition discriminate. }
  split; [exact H|].
  pose proof (@full_message_binds_routes 1 (py "COMMAND") (py "room1") (py "userA")
                [py "SKIP"] no_locals (two_clients calm) H) as P.
  cbv zeta in P. destruct P as (P1 & P2 & _).
  split; [exact P1|exact P2].
Defined.

(** ** A connection that never sends a full message *)

Lemma loop_body_short (c : socket) (r : recv_result) (l : locals) (w : world) :
  short_read r ->
  l_author_id l = None ->
  match loop_body c r l w with
  | Ok (_, l') w' => l_author_id l' = None /\ self w' = self w
  | Raised _ w' => self w' = self w
  end.
Proof.
  intros S A. unfold loop_body.
  destruct r as [| |data]; try (unfold ret; now split).
  destruct S as (msg & D & L). rewrite D.
  destruct (str_in msg _); [unfold ret; now split|].
  destruct (str_eqb msg (py "ping")).
  - unfold bind, encode_utf8, sendall, get_world, bind. simpl.
    destruct (send_raises (env w) c); simpl; [reflexivity|now split].
  - destruct (handle_message_malformed c msg l w L) as (l' & -> & E).
    split; [congruence|reflexivity].
Qed.

Lemma read_loop_short (c : socket) (reads : list recv_result) :
  Forall short_read reads ->
  forall l w,
    l_author_id l = None ->
    match read_loop c reads l w with
    | Ok (Waiting l') w' | Ok (Exited l') w' =>
        l_author_id l' = None /\ self w' = self w
    | Raised _ w' => self w' = self w
    end.
Proof.
  induction 1 as [|r rest S _ IH]; intros l w A; simpl;
    destruct (stop_threads (self w)); try now split.
  pose proof (@loop_body_short c r l w S A) as B.
  destruct (loop_body c r l w) as [[[] l1] w1|e w1]; try exact B.
  destruct B as [A1 E1]. specialize (IH l1 w1 A1).
  destruct (read_loop c rest l1 w1) as [[l2|l2] w2|e w2];
    [destruct IH; split; congruence|destruct IH; split; congruence|congruence].
Qed.

(** A connection on which only short messages arrive (fewer than three
    fields: pings, bare words, [exit], an empty read) and failed reads
    never enters the server's tables, and its thread never returns: it
    stays in [recv], or ends in an exception.  Whatever it put on the
    socket is framed payloads, so the socket is neither shut down nor
    closed by it. *)
Theorem short_reads_never_bind (c : socket) (reads : list recv_result) (w : world) :
  Forall short_read reads ->
  let o := connection_maintainer c reads w in
  self (world_of o) = self w
  /\ ((exists l w', o = Ok (Blocked l) w') \/ (exists e w', o = Raised e w'))
  /\ exists sends,
       net (world_of o) = net w ++ sends
       /\ Forall framed_send sends
       /\ filter (is_shutdown_of c) sends = []
       /\ filter (is_close_of c) sends = [].
Proof.
  intros S o.
  pose proof (read_loop_short c S no_locals w eq_refl) as R.
  pose proof (read_loop_sends_frames c reads no_locals w) as (sends & N & F).
  assert (E : o = match read_loop c reads no_locals w with
                  | Ok (Waiting l) w' => Ok (Blocked l) w'
                  | Ok (Exited l) w' => Raised (UnboundLocalError "author_id") w'
                  | Raised e w' => Raised e w'
                  end).
  { unfold o, connection_maintainer, bind.
    destruct (read_loop c reads no_locals w) as [[l|l] w'|e w'];
      try reflexivity.
    destruct R as [A _]. now rewrite (teardown_unbound c l w' A). }
  rewrite E. clear E.
  destruct (read_loop c reads no_locals w) as [[l|l] w'|e w']; simpl in *;
    (split; [try apply R; assumption|split; [eauto|]]);
    exists sends; destruct (filter_framed_sends c F); auto.
Qed.

Lemma short_reads_never_bind_witness :
  Forall short_read [RecvData (py "ping"); RecvData (py "hello")]
  /\ self (world_of (connection_maintainer 1
             [RecvData (py "ping"); RecvData (py "hello")] (two_clients calm)))
     = self (two_clients calm).
Proof.
  assert (S : Forall short_read [RecvData (py "ping"); RecvData (py "hello")]).
  { repeat constructor; eexists; (split; [reflexivity|simpl; lia]). }
  split; [exact S|].
  exact (proj1 (@short_reads_never_bind 1 _ (two_clients calm) S)).
Defined.

(** ** The INFORMATION payload *)

(** A client that splits the INFORMATION payload on [;] reads nine
    fields: the verb, then artist, title, video id, play status, cover,
    progress, duration and volume.  Status comes before cover and
    progress before duration, unlike in the tuple [get_player_values]
    returns.  This needs no field to hold a [;]. *)
Theorem information_fields
    (art song_title video_id cover playing duration prog vol : pystr) :
  no_sep 59 [art; song_title; video_id; playing; cover; prog; duration; vol] ->
  split_on 59
    (information (art, song_title, video_id, cover, playing, duration, prog, vol))
  = [py "INFORMATION"; art; song_title; video_id; playing; cover; prog;
     duration; vol].
Proof.
  intro H.
  change (information (art, song_title, video_id, cover, playing, duration, prog, vol))
    with (join [59%N] [py "INFORMATION"; art; song_title; video_id; playing;
                       cover; prog; duration; vol]).
  apply split_on_join. constructor; [|exact H].
  intro I. vm_compute in I. intuition discriminate.
Qed.

Lemma information_fields_witness :
  no_sep 59 [py " "; py "NONE"; py " "; py "STOPPED"; default_cover; py "0";
             py "0"; py "0.5"]
  /\ split_on 59
       (information (py " ", py "NONE", py " ", default_cover, py "STOPPED",
                     py "0", py "0", py "0.5"))
     = [py "INFORMATION"; py " "; py "NONE"; py " "; py "STOPPED"; default_cover;
        py "0"; py "0"; py "0.5"].
Proof.
  assert (H : no_sep 59 [py " "; py "NONE"; py " "; py "STOPPED"; default_cover;
                         py "0"; py "0"; py "0.5"]).
  { repeat constructor; intro I; vm_compute in I; intuition discriminate. }
  split; [exact H|].
  exact (@information_fields _ _ _ _ _ _ _ _ H).
Defined.

(** ** The snapshot reads and does not write *)

(** The two ways [get_player_values] ends. *)
Lemma get_player_values_outcome (server_id : pystr) (w : world) :
  (exists v, get_player_values server_id w = Ok v w)
  \/ (get_player_values server_id w = Raised ResolverError w
      /\ exists p title url duration,
           Dict.get server_id (players w) = Some p
           /\ current_entry p = Some (URLPlaylistEntry title url duration)
           /\ from_query (env w) title = None).
Proof.
  unfold get_player_values, bind, get_world.
  destruct (Dict.get server_id (players w)) as [p|]; [|left; eauto].
  destruct (current_entry p) as [[station title url|title url duration|]|] eqn:C;
    try (left; eexists; reflexivity).
  - destruct station; left; eexists; reflexivity.
  - destruct (from_query (env w) title) as [t|] eqn:Q.
    + destruct (Qlt_le_dec float_0_4 (certainty t)); left; eexists; reflexivity.
    + right. split; [reflexivity|]. now exists p, title, url, duration.
Qed.

(** [get_player_values] changes nothing, and the one way it can fail is
    the metadata resolver failing on the title of a URL entry. *)
Theorem get_player_values_reads_only (server_id : pystr) (w : world) :
  (exists v, get_player_values server_id w = Ok v w)
  \/ (get_player_values server_id w = Raised ResolverError w
      /\ exists p title url duration,
           Dict.get server_id (players w) = Some p
           /\ current_entry p = Some (URLPlaylistEntry title url duration)
           /\ from_query (env w) title = None).
Proof. apply get_player_values_outcome. Qed.

(** ** The video id *)

Lemma take_while_all (f : N -> bool) (s : pystr) :
  Forall (fun c => f c = true) (take_while f s).
Proof.
  induction s as [|c s IH]; simpl; [constructor|].
  destruct (f c) eqn:E; constructor; assumption.
Qed.

Lemma match_prefixes_shape (ps : list pystr) (s g : pystr) :
  match_prefixes ps s = Some g ->
  g <> [] /\ Forall (fun c => video_id_char c = true) g.
Proof.
  induction ps as [|p ps IH]; simpl; [discriminate|].
  destruct (strip_prefix p s) as [rest|]; [|exact IH].
  pose proof (take_while_all video_id_char rest) as A.
  destruct (take_while video_id_char rest) as [|c r]; [exact IH|].
  intros [= <-]. split; [discriminate|exact A].
Qed.

Lemma take_while_app_stop (f : N -> bool) (g tail : pystr) :
  Forall (fun c => f c = true) g ->
  match tail with [] => True | c :: _ => f c = false end ->
  take_while f (g ++ tail) = g.
Proof.
  induction 1 as [|c g E _ IH]; simpl; intro T.
  - destruct tail as [|c t]; [reflexivity|]. simpl. now rewrite T.
  - rewrite E. now rewrite IH.
Qed.

(** The video id put in the snapshot is never empty: it is the one blank
    when the URL matches none of the known shapes, and otherwise a run of
    characters none of which is [&], a line feed, [?] or [#].  For a watch
    URL of the usual form it is the value of the [v] parameter. *)
Theorem video_id_shape :
  (forall url,
     video_id_of url <> []
     /\ (search_video_id url = None -> video_id_of url = py " ")
     /\ (forall g, search_video_id url = Some g ->
          video_id_of url = g /\ Forall (fun c => video_id_char c = true) g))
  /\ (forall c g tail,
        Forall (fun x => video_id_char x = true) (c :: g) ->
        match tail with [] => True | x :: _ => video_id_char x = false end ->
        video_id_of (py "https://www.youtube.com/watch?v=" ++ (c :: g) ++ tail)
        = c :: g).
Proof.
  split.
  - intro url.
    assert (S : forall g, search_video_id url = Some g ->
                g <> [] /\ Forall (fun c => video_id_char c = true) g).
    { induction url as [|c url IH]; intros g.
      - simpl. discriminate.
      - cbn [search_video_id].
        destruct (match_prefixes video_id_prefixes (c :: url)) as [g'|] eqn:M.
        + intros [= <-]. eapply match_prefixes_shape; eauto.
        + apply IH. }
    unfold video_id_of.
    destruct (search_video_id url) as [g|].
    + destruct (S g eq_refl) as [N A].
      split; [exact N|]. split; [discriminate|].
      intros g' [= <-]. now split.
    + split; [discriminate|]. split; [reflexivity|discriminate].
  - intros c g tail A T. unfold video_id_of.
    change (py "https://www.youtube.com/watch?v=" ++ (c :: g) ++ tail)
      with (py "https://www.youtube.com/watch" ++ py "?v=" ++ (c :: g) ++ tail).
    assert (E : search_video_id
                  (py "https://www.youtube.com/watch" ++ py "?v=" ++ (c :: g) ++ tail)
                = Some (take_while video_id_char ((c :: g) ++ tail))).
    { inversion A as [|? ? Hc _]; subst.
      cbn -[take_while]. cbn [take_while]. rewrite Hc. reflexivity. }
    rewrite E. now apply take_while_app_stop.
Qed.

Lemma video_id_shape_witness :
  Forall (fun x => video_id_char x = true) (py "dQw4w9WgXcQ")
  /\ video_id_of (py "https://www.youtube.com/watch?v=dQw4w9WgXcQ&t=42")
     = py "dQw4w9WgXcQ".
Proof.
  assert (A : Forall (fun x => video_id_char x = true) (py "dQw4w9WgXcQ"))
    by (repeat constructor).
  split; [exact A|].
  exact (proj2 video_id_shape 100%N (py "Qw4w9WgXcQ") (py "&t=42") A eq_refl).
Defined.

(** ** Messages to users *)

Lemma send_message_run (author_id message : pystr) (w : world) :
  send_message author_id message w =
  match Dict.get author_id (sockets_by_user (self w)) with
  | None => Ok false w
  | Some s => Ok (message_delivered w message s)
                 (add_nets (message_frames w message s) w)
  end.
Proof.
  unfold send_message, bind, get_world.
  destruct (Dict.get author_id (sockets_by_user (self w))) as [s|]; [|reflexivity].
  unfold try_except, bind, encode_utf8, message_delivered, message_frames, frame_bytes.
  destruct (str_encode (frame (py "MESSAGE;" ++ message))) as [data|]; [|reflexivity].
  unfold ret, sendall, bind, get_world, modify, raise.
  destruct (send_raises (env w) s); reflexivity.
Qed.

(** [send_message] never raises.  For a user with no socket on record it
    returns [False].  It returns [False] with nothing changed when the
    payload cannot be encoded or the send fails, and [True] exactly when
    the framed MESSAGE payload went out on the user's socket.  No table
    changes either way. *)
Theorem send_message_never_raises (author_id message : pystr) (w : world) :
  (Dict.get author_id (sockets_by_user (self w)) = None ->
   send_message author_id message w = Ok false w)
  /\ exists b w',
       send_message author_id message w = Ok b w'
       /\ self w' = self w
       /\ (b = false -> w' = w)
       /\ (b = true ->
           exists s data,
             Dict.get author_id (sockets_by_user (self w)) = Some s
             /\ frame_bytes (py "MESSAGE;" ++ message) = Some data
             /\ send_raises (env w) s = false
             /\ w' = add_net (s, Sent data) w).
Proof.
  rewrite send_message_run.
  split; [now intros ->|].
  destruct (Dict.get author_id (sockets_by_user (self w))) as [s|].
  - unfold message_delivered, message_frames.
    destruct (frame_bytes (py "MESSAGE;" ++ message)) as [data|] eqn:F.
    + destruct (send_raises (env w) s) eqn:R; eexists; eexists;
        (split; [reflexivity|]); simpl; repeat split; try discriminate; auto.
      intros _. now exists s, data.
    + eexists; eexists; (split; [reflexivity|]); simpl; repeat split;
        try discriminate; auto.
  - exists false, w. repeat split; try discriminate; auto.
Qed.

Lemma add_nets_self (l : list (socket * sock_call)) (w : world) :
  self (add_nets l w) = self w /\ env (add_nets l w) = env w
  /\ net (add_nets l w) = net w ++ l.
Proof.
  unfold add_nets. revert w.
  induction l as [|x l IH]; intro w; simpl.
  - now rewrite app_nil_r.
  - destruct (IH (add_net x w)) as (A & B & C). rewrite A, B, C. simpl.
    now rewrite <- app_assoc.
Qed.

Lemma add_nets_app (l1 l2 : list (socket * sock_call)) (w : world) :
  add_nets (l1 ++ l2) w = add_nets l2 (add_nets l1 w).
Proof. unfold add_nets. apply fold_left_app. Qed.

Lemma broadcast_message_loop_run (message : pystr) (w : world)
    (authors : list pystr) :
  forall to_delete w0,
    self w0 = self w -> env w0 = env w ->
    (forall a, In a authors -> Dict.get a (sockets_by_user (self w)) <> None) ->
    broadcast_message_loop authors message to_delete w0
    = Ok (to_delete
          ++ filter (fun a => match Dict.get a (sockets_by_user (self w)) with
                              | Some s => negb (message_delivered w message s)
                              | None => true
                              end) authors)
         (add_nets (flat_map (fun a =>
                      match Dict.get a (sockets_by_user (self w)) with
                      | Some s => message_frames w message s
                      | None => []
                      end) authors) w0).
Proof.
  induction authors as [|a rest IH]; intros td w0 S E K; simpl.
  - now rewrite app_nil_r.
  - unfold bind. rewrite send_message_run, S.
    destruct (Dict.get a (sockets_by_user (self w))) as [s|] eqn:G;
      [|exfalso; apply (K a); [now left|exact G]].
    assert (F : message_frames w0 message s = message_frames w message s)
      by (unfold message_frames; now rewrite E).
    assert (D : message_delivered w0 message s = message_delivered w message s)
      by (unfold message_delivered; now rewrite F).
    rewrite F, D.
    destruct (add_nets_self (message_frames w message s) w0) as (S1 & E1 & _).
    rewrite IH; try congruence; [|intros; apply K; now right].
    rewrite add_nets_app.
    destruct (message_delivered w message s); simpl; [reflexivity|].
    now rewrite <- app_assoc.
Qed.

Lemma fold_remove_filter (keys : list pystr) : forall d : Dict.t pystr socket,
  fold_left (fun d' key => Dict.remove key d') keys d
  = filter (fun e => negb (existsb (fun k => str_eqb k (fst e)) keys)) d.
Proof.
  induction keys as [|k keys IH]; intro d; simpl.
  - induction d as [|e d IHd]; simpl; [reflexivity|]. now rewrite <- IHd.
  - rewrite IH. unfold Dict.remove, keqb, pystr_EqKey.
    induction d as [|e d IHd]; [reflexivity|].
    cbn [filter]. destruct (str_eqb k (fst e)); cbn [negb orb filter].
    + exact IHd.
    + rewrite IHd. reflexivity.
Qed.

Lemma get_of_entry (d : Dict.t pystr socket) (a : pystr) (s : socket) :
  Dict.ok d -> In (a, s) d -> Dict.get a d = Some s.
Proof.
  unfold Dict.ok, Dict.keys.
  induction d as [|[a' s'] d IH]; simpl; intros O I; [contradiction|].
  inversion O as [|? ? N O']; subst.
  destruct I as [[= -> ->]|I].
  - unfold keqb, pystr_EqKey. now rewrite str_eqb_refl.
  - unfold keqb, pystr_EqKey.
    destruct (str_eqb a a') eqn:E; [|now apply IH].
    apply str_eqb_eq in E. subst a'. exfalso. apply N.
    apply in_map_iff. now exists (a, s).
Qed.

Lemma existsb_filter_key (bad : pystr -> bool) (a : pystr) (l : list pystr) :
  In a l -> existsb (fun k => str_eqb k a) (filter bad l) = bad a.
Proof.
  intro I. destruct (bad a) eqn:B.
  - apply existsb_exists. exists a. split; [|apply str_eqb_refl].
    apply filter_In. now split.
  - destruct (existsb _ _) eqn:X; [|reflexivity].
    apply existsb_exists in X as (k & Ik & E).
    apply str_eqb_eq in E. subst k.
    apply filter_In in Ik as [_ Ik]. congruence.
Qed.

(** [broadcast_message] never raises.  Every user whose socket took the
    framed MESSAGE payload stays in [sockets_by_user], in the order they
    had; every user whose send failed is removed; the payloads go out in
    table order; the other tables are not touched.  A message that
    cannot be encoded reaches nobody and empties the table. *)
Theorem broadcast_message_drops_failed (message : pystr) (w : world) :
  Dict.ok (sockets_by_user (self w)) ->
  exists w',
    broadcast_message message w = Ok tt w'
    /\ sockets_by_user (self w')
       = filter (fun e => message_delivered w message (snd e))
                (sockets_by_user (self w))
    /\ net w' = net w ++ flat_map (fun e => message_frames w message (snd e))
                           (sockets_by_user (self w))
    /\ server_ids (self w') = server_ids (self w)
    /\ awaiting_registeration (self w') = awaiting_registeration (self w)
    /\ connections (self w') = connections (self w)
    /\ (frame_bytes (py "MESSAGE;" ++ message) = None ->
        sockets_by_user (self w') = [] /\ net w' = net w).
Proof.
  intro O.
  unfold broadcast_message, bind, get_world.
  rewrite (@broadcast_message_loop_run message w
             (Dict.keys (sockets_by_user (self w))) [] w eq_refl eq_refl).
  2:{ intros a I. apply in_map_iff in I as [[a' s] [<- I]]. simpl.
      now rewrite (@get_of_entry _ _ _ O I). }
  cbn [app]. unfold modify.
  set (d := sockets_by_user (self w)) in *.
  set (fl := flat_map _ (Dict.keys d)).
  set (bad := fun a => match Dict.get a d with
                       | Some s => negb (message_delivered w message s)
                       | None => true
                       end).
  destruct (add_nets_self fl w) as (S & E & Nn).
  assert (T : fold_left (fun d0 key => Dict.remove key d0)
                (filter bad (Dict.keys d)) d
              = filter (fun e => message_delivered w message (snd e)) d).
  { rewrite fold_remove_filter. apply filter_ext_in. intros [a s] I. simpl.
    rewrite existsb_filter_key
      by (apply in_map_iff; now exists (a, s)).
    unfold bad. rewrite (@get_of_entry _ _ _ O I). apply negb_involutive. }
  assert (F : fl = flat_map (fun e => message_frames w message (snd e)) d).
  { unfold fl, Dict.keys. rewrite flat_map_concat_map, map_map.
    rewrite flat_map_concat_map. f_equal.
    apply map_ext_in. intros [a s] I. simpl. now rewrite (@get_of_entry _ _ _ O I). }
  eexists. split; [reflexivity|].
  unfold set_sockets_by_user.
  cbn [self sockets_by_user server_ids awaiting_registeration connections net].
  rewrite S. fold d. rewrite T, Nn, F.
  repeat split.
  - unfold message_delivered, message_frames. rewrite H.
    clear. induction d as [|e d IH]; [reflexivity|exact IH].
  - unfold message_frames. rewrite H.
    clear. induction d as [|e d IH]; simpl; [now rewrite app_nil_r|].
    simpl in IH. exact IH.
Qed.

(** Two users, the first on the socket whose peer is gone. *)
Lemma broadcast_message_drops_failed_witness :
  Dict.ok (sockets_by_user (self (bound_pair dead_1)))
  /\ sockets_by_user (self (bound_pair dead_1)) = [(py "userA", 1); (py "userB", 2)]
  /\ exists w',
       broadcast_message (py "hi") (bound_pair dead_1) = Ok tt w'
       /\ sockets_by_user (self w') = [(py "userB", 2)]
       /\ net w' = [(2, Sent (py "10==MESSAGE;hi"))].
Proof.
  assert (O : Dict.ok (sockets_by_user (self (bound_pair dead_1)))).
  { repeat constructor; simpl; intuition discriminate. }
  split; [exact O|]. split; [reflexivity|].
  destruct (@broadcast_message_drops_failed (py "hi") (bound_pair dead_1) O) as (w' & B & T & N & _).
  exists w'. split; [exact B|]. split; [exact T|exact N].
Defined.

(** ** Commands on a player *)

(** PLAY_PAUSE resumes a paused player, pauses a player that is playing
    and not paused, and calls nothing on a player that is neither; the
    paused flag is looked at first.  Arguments after the verb are
    ignored. *)
Theorem play_pause_toggles
    (server_id author_id : pystr) (rest : list pystr) (p : player) (w : world) :
  Dict.get server_id (players w) = Some p ->
  command server_id author_id (py "PLAY_PAUSE" :: rest) w
  = if is_paused p then
      Ok tt (add_stdout (LogResumed author_id) (add_engine (server_id, resume) w))
    else if is_playing p then
      Ok tt (add_stdout (LogPaused author_id) (add_engine (server_id, pause) w))
    else Ok tt w.
Proof.
  intro H. unfold command, bind, get_world, index. cbn [nth_error].
  rewrite H. unfold ret at 1.
  change (str_eqb (py "PLAY_PAUSE") (py "SUMMON")) with false.
  change (str_eqb (py "PLAY_PAUSE") (py "PLAY_PAUSE")) with true.
  cbv iota beta. unfold ret at 1.
  destruct (is_paused p); [reflexivity|].
  destruct (is_playing p); reflexivity.
Qed.

Lemma play_pause_toggles_witness :
  Dict.get (py "room1") (players (one_listener calm)) = Some idle_player
  /\ command (py "room1") (py "userA") [py "PLAY_PAUSE"] (one_listener calm)
     = Ok tt (one_listener calm).
Proof.
  split; [reflexivity|].
  exact (@play_pause_toggles (py "room1") (py "userA") [] idle_player
           (one_listener calm) eq_refl).
Defined.

(** The volume field of a snapshot of a room with a player is that
    player's volume, rounded and printed. *)
Lemma get_player_values_volume (server_id : pystr) (p : player) (w w' : world)
    (v : player_values) :
  Dict.get server_id (players w) = Some p ->
  get_player_values server_id w = Ok v w' ->
  snd v = str_round2 (volume p).
Proof.
  intros G. unfold get_player_values, bind, get_world. rewrite G.
  destruct (current_entry p) as [[station title url|title url duration|]|].
  - destruct station; now intros [= <- _].
  - destruct (from_query (env w) title) as [t|]; [|discriminate].
    destruct (Qlt_le_dec float_0_4 (certainty t)); now intros [= <- _].
  - now intros [= <- _].
  - now intros [= <- _].
Qed.

(** VOLUMECHANGE sets the player's volume to the finite float its
    argument reads as, whatever its size, and nothing else of the player
    or of the tables changes; when the value is plain and not zero, a
    snapshot of the room taken afterwards shows it, rounded to
    hundredths.  With the argument missing the command raises
    [IndexError] and the volume stays as it was. *)
Theorem volume_change_sets_volume
    (server_id author_id : pystr) (p : player) (w : world) :
  Dict.get server_id (players w) = Some p ->
  (forall arg rest v,
     float_of_str (env w) arg = Some v ->
     exists w',
       command server_id author_id (py "VOLUMECHANGE" :: arg :: rest) w = Ok tt w'
       /\ Dict.get server_id (players w')
          = Some {| current_entry := current_entry p; is_playing := is_playing p;
                    is_paused := is_paused p; progress := progress p;
                    volume := v |}
       /\ self w' = self w /\ net w' = net w
       /\ (plain_float v = true -> Qnum v <> 0%Z ->
           forall vals w'',
             get_player_values server_id w' = Ok vals w'' ->
             snd vals = str_round2 v))
  /\ command server_id author_id [py "VOLUMECHANGE"] w = Raised IndexError w.
Proof.
  intro H.
  assert (E : forall leftover,
            command server_id author_id (py "VOLUMECHANGE" :: leftover) w
            = match leftover with
              | [] => Raised IndexError w
              | arg :: _ =>
                  match float_of_str (env w) arg with
                  | None => Raised ValueError w
                  | Some v =>
                      Ok tt (add_stdout (LogVolume author_id (volume p) v)
                               (set_players
                                  (Dict.set server_id
                                     {| current_entry := current_entry p;
                                        is_playing := is_playing p;
                                        is_paused := is_paused p;
                                        progress := progress p; volume := v |}
                                     (players w))
                                  (add_engine (server_id, set_volume v) w)))
                  end
              end).
  { intro leftover. unfold command, bind, get_world, index. cbn [nth_error].
    rewrite H. unfold ret at 1.
    change (str_eqb (py "VOLUMECHANGE") (py "SUMMON")) with false.
    change (str_eqb (py "VOLUMECHANGE") (py "PLAY_PAUSE")) with false.
    change (str_eqb (py "VOLUMECHANGE") (py "SKIP")) with false.
    change (str_eqb (py "VOLUMECHANGE") (py "VOLUMECHANGE")) with true.
    cbv iota beta. unfold ret at 1.
    destruct leftover as [|arg rest]; [reflexivity|].
    unfold ret at 1. unfold float, bind, get_world.
    destruct (float_of_str (env w) arg); reflexivity. }
  split.
  - intros arg rest v F. rewrite E, F. eexists. split; [reflexivity|].
    assert (G : Dict.get server_id
                  (players (add_stdout (LogVolume author_id (volume p) v)
                     (set_players
                        (Dict.set server_id
                           {| current_entry := current_entry p;
                              is_playing := is_playing p;
                              is_paused := is_paused p;
                              progress := progress p; volume := v |}
                           (players w))
                        (add_engine (server_id, set_volume v) w))))
                = Some {| current_entry := current_entry p;
                          is_playing := is_playing p;
                          is_paused := is_paused p;
                          progress := progress p; volume := v |})
      by (simpl; apply get_set_same).
    split; [exact G|]. split; [reflexivity|]. split; [reflexivity|].
    intros _ _ vals w'' V. exact (@get_player_values_volume _ _ _ _ _ G V).
  - now rewrite E.
Qed.

Lemma volume_change_sets_volume_witness :
  Dict.get (py "room1") (players (one_listener reads_0_7)) = Some idle_player
  /\ float_of_str (env (one_listener reads_0_7)) (py "0.7") = Some (7 # 10)%Q
  /\ plain_float (7 # 10)%Q = true
  /\ exists w',
       command (py "room1") (py "userA") [py "VOLUMECHANGE"; py "0.7"]
         (one_listener reads_0_7) = Ok tt w'
       /\ get_player_values (py "room1") w'
          = Ok (py " ", py "NONE", py " ", default_cover, py "STOPPED",
                py "0", py "0", py "0.7") w'.
Proof.
  split; [reflexivity|]. split; [reflexivity|]. split; [reflexivity|].
  destruct (proj1 (@volume_change_sets_volume (py "room1") (py "userA") idle_player
                     (one_listener reads_0_7) eq_refl)
              (py "0.7") [] (7 # 10)%Q eq_refl) as (w' & C & G & _).
  exists w'. split; [exact C|].
  unfold get_player_values, bind, get_world. rewrite G. reflexivity.
Defined.

(** Without a player for the room, SUMMON hands the summon of the room
    to the loop, and a failure to hand it over is swallowed; every other
    sub-verb does nothing and raises nothing, whatever its arguments.  A
    COMMAND with no sub-verb raises [IndexError], player or not. *)
Theorem commands_without_player
    (server_id author_id : pystr) (w : world) :
  (forall verb rest,
     Dict.get server_id (players w) = None ->
     command server_id author_id (verb :: rest) w
     = if str_eqb verb (py "SUMMON") then
         match submit_raises (env w) (socket_summon server_id) with
         | Some _ => Ok tt w
         | None => Ok tt (add_submitted (socket_summon server_id) w)
         end
       else Ok tt w)
  /\ command server_id author_id [] w = Raised IndexError w.
Proof.
  split; [|reflexivity].
  intros verb rest H. unfold command, bind, get_world, index. cbn [nth_error].
  rewrite H. unfold ret at 1.
  destruct (str_eqb verb (py "SUMMON")); [|reflexivity].
  unfold try_except, run_coroutine_threadsafe, bind, get_world.
  destruct (submit_raises (env w) (socket_summon server_id)); reflexivity.
Qed.

Lemma commands_without_player_witness :
  Dict.get (py "room9") (players (one_listener closed_loop)) = None
  /\ command (py "room9") (py "userA") [py "SUMMON"] (one_listener closed_loop)
     = Ok tt (one_listener closed_loop)
  /\ command (py "room9") (py "userA") [py "VOLUMECHANGE"] (one_listener closed_loop)
     = Ok tt (one_listener closed_loop).
Proof.
  split; [reflexivity|]. split.
  - exact (proj1 (commands_without_player (py "room9") (py "userA")
                    (one_listener closed_loop)) (py "SUMMON") [] eq_refl).
  - exact (proj1 (commands_without_player (py "room9") (py "userA")
                    (one_listener closed_loop)) (py "VOLUMECHANGE") [] eq_refl).
Defined.

(** ** The handshake, end to end *)

Lemma lower_idempotent (s : pystr) : lower (lower s) = lower s.
Proof. apply lower_from_of_fixed, lower_from_fixed. Qed.

Lemma find_token_set (token x : pystr) (c : socket) (d : Dict.t socket pystr) :
  lower x = lower token ->
  find_token token (Dict.remove c d) = None ->
  find_token token (Dict.set c x d) = Some c.
Proof.
  intro L. induction d as [|[k v] d IH]; simpl.
  - intros _. now rewrite L, str_eqb_refl.
  - unfold keqb, nat_EqKey in *. destruct (Nat.eqb_spec c k) as [->|N]; simpl.
    + intros _. now rewrite L, str_eqb_refl.
    + destruct (str_eqb (lower v) (lower token)); [discriminate|]. exact IH.
Qed.

(** A connection that sends [REQUEST;USER_IDENTIFICATION;<token>] is
    resolved by [register_handler] called with the token in any case of
    its letters, as long as no other connection waits on a matching
    token: the USERINFORMATION frame goes to that connection, the call
    returns [True], and the connection waits no longer.  A token the
    connection had pending before is replaced. *)
Theorem handshake_completes
    (c : socket) (token token' server_id author_id : pystr) (data : bytes)
    (l : locals) (w : world) :
  ~ In 59%N token ->
  lower token' = lower token ->
  find_token token (Dict.remove c (awaiting_registeration (self w))) = None ->
  frame_bytes (py "USERINFORMATION;" ++ server_id ++ py ";" ++ author_id) = Some data ->
  send_raises (env w) c = false ->
  exists l1 w1 w2,
    handle_message c (py "REQUEST;USER_IDENTIFICATION;" ++ token) l w
    = Ok (Continue, l1) w1
    /\ Dict.get c (awaiting_registeration (self w1)) = Some (lower token)
    /\ register_handler token' server_id author_id w1 = Ok true w2
    /\ net w2 = net w ++ [(c, Sent data)]
    /\ Dict.get c (awaiting_registeration (self w2)) = None.
Proof.
  intros T L F E S.
  assert (H : no_sep 59 [py "REQUEST"; py "USER_IDENTIFICATION"; token]).
  { repeat constructor; try assumption; intro I; vm_compute in I;
      intuition discriminate. }
  set (w1 := add_stdout (LogIdentification token)
               (set_sockets_by_user
                  (Dict.set token c (sockets_by_user (self w)))
                  (set_server_ids
                     (Dict.set c (py "USER_IDENTIFICATION") (server_ids (self w))) w))).
  set (w1' := set_awaiting_registeration
                (Dict.set c (lower token) (awaiting_registeration (self w))) w1).
  assert (M : handle_message c (py "REQUEST;USER_IDENTIFICATION;" ++ token) l w
              = Ok (Continue,
                    {| l_request := Some (py "REQUEST");
                       l_server_id := Some (py "USER_IDENTIFICATION");
                       l_author_id := Some token; l_leftover := Some [] |}) w1').
  { change (py "REQUEST;USER_IDENTIFICATION;" ++ token)
      with (join [59%N] [py "REQUEST"; py "USER_IDENTIFICATION"; token]).
    unfold handle_message. rewrite (split_on_join H).
    cbn [nth_error hd skipn]. unfold bind. rewrite bind_tables_run.
    reflexivity. }
  assert (A : awaiting_registeration (self w1')
              = Dict.set c (lower token) (awaiting_registeration (self w)))
    by reflexivity.
  assert (G : find_token token' (awaiting_registeration (self w1')) = Some c).
  { rewrite A. apply find_token_set.
    - now rewrite lower_idempotent.
    - now rewrite (find_token_lower _ _ _ L). }
  eexists; exists w1'; eexists.
  split; [exact M|]. split; [rewrite A; apply get_set_same|].
  rewrite register_handler_run, G, E. cbv zeta.
  change (env w1') with (env w). rewrite S.
  split; [reflexivity|]. split; [reflexivity|].
  simpl. apply get_remove_same.
Qed.

Lemma handshake_completes_witness :
  ~ In 59%N (py "ABC123")
  /\ lower (py "abc123") = lower (py "ABC123")
  /\ find_token (py "ABC123")
       (Dict.remove 1 (awaiting_registeration (self (two_clients calm)))) = None
  /\ frame_bytes (py "USERINFORMATION;" ++ py "room1" ++ py ";" ++ py "userA")
     = Some (py "27==USERINFORMATION;room1;userA")
  /\ send_raises (env (two_clients calm)) 1 = false
  /\ exists l1 w1 w2,
       handle_message 1 (py "REQUEST;USER_IDENTIFICATION;" ++ py "ABC123")
         no_locals (two_clients calm) = Ok (Continue, l1) w1
       /\ Dict.get 1 (awaiting_registeration (self w1)) = Some (lower (py "ABC123"))
       /\ register_handler (py "abc123") (py "room1") (py "userA") w1 = Ok true w2
       /\ net w2 = net (two_clients calm)
                   ++ [(1, Sent (py "27==USERINFORMATION;room1;userA"))]
       /\ Dict.get 1 (awaiting_registeration (self w2)) = None.
Proof.
  assert (T : ~ In 59%N (py "ABC123"))
    by (intro I; vm_compute in I; intuition discriminate).
  split; [exact T|]. split; [reflexivity|]. split; [reflexivity|].
  split; [reflexivity|]. split; [reflexivity|].
  exact (@handshake_completes 1 (py "ABC123") (py "abc123") (py "room1")
           (py "userA") (py "27==USERINFORMATION;room1;userA") no_locals
           (two_clients calm) T eq_refl eq_refl eq_refl eq_refl).
Defined.

(** ** Accepting connections *)

Lemma accepter_loop_run (passes : nat) :
  forall accepts printed w,
  exists printed' w' new,
    accepter_loop passes accepts printed w = Ok printed' w'
    /\ connections (self w') = connections (self w) ++ new
    /\ List.length (connections (self w'))
       <= Nat.max (List.length (connections (self w))) max_connections
    /\ (forall x, In x new ->
        exists t s a, x = (t, s, a) /\ In (Accepted t s a) accepts)
    /\ server_ids (self w') = server_ids (self w)
    /\ sockets_by_user (self w') = sockets_by_user (self w)
    /\ awaiting_registeration (self w') = awaiting_registeration (self w)
    /\ stop_threads (self w') = stop_threads (self w)
    /\ net w' = net w
    /\ (max_connections <= List.length (connections (self w)) -> new = [])
    /\ (stop_threads (self w) = true -> new = []).
Proof.
  induction passes as [|n IH]; intros accepts printed w.
  - exists printed, w, []. simpl. rewrite app_nil_r.
    repeat split; auto; try lia; try contradiction; try (now intros ? []).
  - cbn [accepter_loop]. unfold bind, get_world.
    destruct (stop_threads (self w)) eqn:St.
    + exists (printed ++ [LineStopping]), w, []. unfold ret.
      rewrite app_nil_r. repeat split; auto; try lia; try contradiction; try (now intros ? []).
    + destruct (Nat.leb_spec max_connections (List.length (connections (self w))))
        as [Full|Room].
      * destruct (IH accepts (printed ++ [LineTooMany]) w)
          as (p' & w' & new & E & C & B & I & R).
        rewrite St in R.
        exists p', w', new. split; [exact E|]. split; [exact C|].
        split; [exact B|]. split; [exact I|]. exact R.
      * destruct accepts as [|[|t s a] rest].
        -- exists printed, w, []. unfold ret. rewrite app_nil_r.
           repeat split; auto; try lia; try discriminate; try contradiction;
             try (now intros ? []).
        -- destruct (IH rest (printed ++ [LineCantUse]) w)
             as (p' & w' & new & E & C & B & I & R).
           rewrite St in R.
           exists p', w', new. split; [exact E|]. split; [exact C|].
           split; [exact B|]. split; [|exact R].
           intros x X. destruct (I x X) as (t & s & a & -> & J).
           exists t, s, a. split; [reflexivity|now right].
        -- unfold modify.
           set (w1 := set_connections (connections (self w) ++ [(t, s, a)]) w).
           destruct (IH rest (printed ++ [LineConnected a]) w1)
             as (p' & w' & new & E & C & B & I & S1 & S2 & S3 & S4 & S5 & _).
           exists p', w', ((t, s, a) :: new). split; [exact E|].
           unfold w1 in *. simpl in *.
           split; [now rewrite C, <- app_assoc|].
           split; [rewrite length_app in B; simpl in B; lia|].
           split.
           { intros x [<-|X].
             - exists t, s, a. split; [reflexivity|now left].
             - destruct (I x X) as (t' & s' & a' & -> & J).
               exists t', s', a'. split; [reflexivity|now right]. }
           repeat split; auto; try lia; try congruence.
Qed.

(** The accepter only ever appends to [connections], and only tuples of
    connections it accepted; it appends nothing while the list holds
    [max_connections] tuples or more, so it never takes the list past
    that ceiling, and nothing once [stop_threads] is set.  It touches no
    table and no socket of a connection. *)
Theorem accepter_respects_ceiling
    (passes : nat) (accepts : list accept_result) (w : world) :
  exists printed w' new,
    connection_accepter passes accepts w = Ok printed w'
    /\ connections (self w') = connections (self w) ++ new
    /\ List.length (connections (self w'))
       <= Nat.max (List.length (connections (self w))) max_connections
    /\ (forall x, In x new ->
        exists t s a, x = (t, s, a) /\ In (Accepted t s a) accepts)
    /\ server_ids (self w') = server_ids (self w)
    /\ sockets_by_user (self w') = sockets_by_user (self w)
    /\ awaiting_registeration (self w') = awaiting_registeration (self w)
    /\ net w' = net w
    /\ (max_connections <= List.length (connections (self w)) -> new = [])
    /\ (stop_threads (self w) = true -> new = []).
Proof.
  unfold connection_accepter.
  destruct (accepter_loop_run passes accepts [LineListening] w)
    as (p' & w' & new & E & C & B & I & S1 & S2 & S3 & _ & S5 & F & St).
  exists p', w', new. repeat split; assumption.
Qed.

(** ** The connection list at teardown *)

Lemma scan_connections_result (conns : list (nat * socket * nat)) (c : socket)
    (a : pystr) :
  forall to_delete w,
  exists w',
    scan_connections conns c a to_delete w = Ok (scan_result conns c to_delete) w'
    /\ self w' = self w /\ net w' = net w /\ env w' = env w.
Proof.
  induction conns as [|[[t s] a0] rest IH]; intros td w; simpl.
  - now exists w.
  - destruct (Nat.eqb s c).
    + unfold bind, print, modify.
      destruct (IH (Some (t, s, a0)) (add_stdout (LogShuttingDown a a0) w))
        as (w' & E & ? & ? & ?).
      now exists w'.
    + apply IH.
Qed.

Lemma scan_result_absent (conns : list (nat * socket * nat)) (c : socket) :
  forall to_delete,
    ~ In c (sockets_of conns) ->
    scan_result conns c to_delete = to_delete
    /\ filter (fun x => negb (Nat.eqb (snd (fst x)) c)) conns = conns.
Proof.
  induction conns as [|[[t s] a] rest IH]; intros td N; simpl; [now split|].
  simpl in N. destruct (Nat.eqb_spec s c) as [->|D]; [exfalso; apply N; now left|].
  destruct (IH td (fun I0 => N (or_intror I0))) as [E F].
  simpl. now rewrite E, F.
Qed.

Lemma conn_eqb_refl (x : nat * socket * nat) : conn_eqb x x = true.
Proof. destruct x as [[t s] a]. simpl. now rewrite !Nat.eqb_refl. Qed.

Lemma scan_result_present (conns : list (nat * socket * nat)) (c : socket) :
  forall to_delete,
    NoDup (sockets_of conns) ->
    In c (sockets_of conns) ->
    exists x,
      scan_result conns c to_delete = Some x
      /\ snd (fst x) = c
      /\ list_remove x conns
         = filter (fun y => negb (Nat.eqb (snd (fst y)) c)) conns
      /\ S (List.length (list_remove x conns)) = List.length conns.
Proof.
  induction conns as [|[[t s] a] rest IH]; intros td D I; [contradiction|].
  simpl in D, I. inversion D as [|? ? N D']; subst.
  cbn [scan_result filter fst snd].
  destruct (Nat.eqb_spec s c) as [->|Ne].
  - destruct (@scan_result_absent rest c (Some (t, c, a)) N) as [E F].
    exists (t, c, a). rewrite E. split; [reflexivity|]. split; [reflexivity|].
    cbn [list_remove negb]. rewrite conn_eqb_refl, F. now split.
  - destruct I as [I|I]; [contradiction|].
    destruct (IH td D' I) as (x & E & X & R & L).
    exists x. split; [exact E|]. split; [exact X|].
    cbn [list_remove negb].
    replace (conn_eqb x (t, s, a)) with false.
    + rewrite R. split; [reflexivity|]. simpl. rewrite <- R. now rewrite L.
    + destruct x as [[t' s'] a']. simpl in X. subst s'. simpl.
      destruct (Nat.eqb_spec c s); [congruence|].
      now rewrite andb_false_r.
Qed.

(** When the teardown runs to its end and every socket has one tuple in
    [connections], the tuple of the connection's socket is the one
    removed: the list is left without it, in the same order, and one
    shorter if the socket was listed. *)
Theorem teardown_frees_slot
    (c : socket) (l : locals) (w : world) (a s : pystr) :
  l_author_id l = Some a ->
  l_server_id l = Some s ->
  shutdown_raises (env w) c = false ->
  NoDup (sockets_of (connections (self w))) ->
  exists w',
    teardown c l w = Ok tt w'
    /\ connections (self w')
       = filter (fun x => negb (Nat.eqb (snd (fst x)) c)) (connections (self w))
    /\ ~ In c (sockets_of (connections (self w')))
    /\ (In c (sockets_of (connections (self w))) ->
        S (List.length (connections (self w'))) = List.length (connections (self w))).
Proof.
  intros A Hs H D. unfold teardown, local. rewrite A, Hs.
  unfold bind at 1. unfold ret at 1. unfold bind at 1. unfold ret at 1.
  unfold bind at 1. unfold get_world at 1.
  unfold bind at 1. unfold modify at 1.
  set (w1 := set_sockets_by_user _ w).
  unfold bind at 1.
  assert (P : exists w2,
            (match Dict.get (a ++ py "_" ++ s) (sockets_by_user (self w)) with
             | Some _ => ret tt
             | None => print (LogFailedRemove c a)
             end) w1 = Ok tt w2
            /\ connections (self w2) = connections (self w) /\ env w2 = env w).
  { destruct (Dict.get _ _); eexists; (split; [reflexivity|]); split; reflexivity. }
  destruct P as (w2 & -> & C2 & V2).
  unfold bind at 1. unfold get_world at 1.
  unfold bind at 1. rewrite C2.
  destruct (scan_connections_result (connections (self w)) c a None w2)
    as (w3 & -> & E3 & N3 & V3).
  unfold bind at 1.
  set (conns := connections (self w)) in *.
  assert (Q : exists w4,
            (match scan_result conns c None with
             | Some x => modify (fun w0 =>
                 set_connections (list_remove x (connections (self w0))) w0)
             | None => print (LogCouldntRemove a)
             end) w3 = Ok tt w4
            /\ connections (self w4)
               = filter (fun x => negb (Nat.eqb (snd (fst x)) c)) conns
            /\ (In c (sockets_of conns) ->
                S (List.length (connections (self w4))) = List.length conns)
            /\ env w4 = env w).
  { destruct (in_dec Nat.eq_dec c (sockets_of conns)) as [I|N].
    - destruct (@scan_result_present conns c None D I) as (x & -> & _ & R & L).
      eexists. split; [reflexivity|]. simpl. rewrite E3, C2. fold conns.
      split; [exact R|]. split; [intros _; exact L|congruence].
    - destruct (@scan_result_absent conns c None N) as [-> F].
      eexists. split; [reflexivity|]. simpl. rewrite E3, C2. fold conns.
      split; [now rewrite F|]. split; [contradiction|congruence]. }
  destruct Q as (w4 & -> & C4 & L4 & V4).
  unfold bind, modify, shutdown_socket, close_socket, get_world, bind, modify.
  cbn [env set_server_ids]. rewrite V4, H.
  eexists. split; [reflexivity|].
  cbn [self connections set_server_ids add_net]. rewrite C4.
  split; [reflexivity|]. split.
  - unfold sockets_of. intro I. apply in_map_iff in I as (x & X & I).
    apply filter_In in I as [_ I]. cbv beta in I.
    apply negb_true_iff, Nat.eqb_neq in I. apply I. exact X.
  - intro I. rewrite <- C4. now apply L4.
Qed.

Lemma teardown_frees_slot_witness :
  l_author_id {| l_request := Some (py "REQUEST"); l_server_id := Some (py "room1");
                 l_author_id := Some (py "userA"); l_leftover := Some [] |}
  = Some (py "userA")
  /\ shutdown_raises (env (bound_pair calm)) 1 = false
  /\ NoDup (sockets_of (connections (self (bound_pair calm))))
  /\ exists w',
       teardown 1 {| l_request := Some (py "REQUEST");
                     l_server_id := Some (py "room1");
                     l_author_id := Some (py "userA"); l_leftover := Some [] |}
         (bound_pair calm) = Ok tt w'
       /\ connections (self w') = [(12, 2, 102)].
Proof.
  split; [reflexivity|]. split; [reflexivity|].
  assert (D : NoDup (sockets_of (connections (self (bound_pair calm))))).
  { repeat constructor; simpl; intuition discriminate. }
  split; [exact D|].
  destruct (@teardown_frees_slot 1
              {| l_request := Some (py "REQUEST"); l_server_id := Some (py "room1");
                 l_author_id := Some (py "userA"); l_leftover := Some [] |}
              (bound_pair calm) (py "userA") (py "room1")
              eq_refl eq_refl eq_refl D) as (w' & T & C & _).
  exists w'. split; [exact T|exact C].
Defined.

(** ** Encoding and decoding text *)

Ltac ltb_is b :=
  match b with
  | true => symmetry; apply N.ltb_lt; div_lia
  | false => symmetry; apply N.ltb_ge; div_lia
  end.

Lemma is_cont_low (x : N) : (x < 64)%N -> is_cont (0x80 + x) = true.
Proof.
  intro H. unfold is_cont. apply andb_true_iff. split.
  - apply N.leb_le. lia.
  - apply N.ltb_lt. lia.
Qed.

Lemma bytes_decode_encoded (c : N) (b rest : bytes) :
  utf8_encode_cp c = Some b ->
  bytes_decode (b ++ rest) = option_map (cons c) (bytes_decode rest).
Proof.
  unfold utf8_encode_cp.
  destruct (N.ltb_spec c 0x80) as [H1|H1].
  { intro E. replace b with [c] by congruence. clear E. cbn [app bytes_decode].
    replace (c <? 0x80)%N with true by ltb_is true. reflexivity. }
  destruct (N.ltb_spec c 0x800) as [H2|H2].
  { intro E. replace b with [0xC0 + c / 64; 0x80 + c mod 64]%N by congruence.
    clear E. cbn [app bytes_decode].
    replace (0xC0 + c / 64 <? 0x80)%N with false by ltb_is false.
    replace (0xC0 + c / 64 <? 0xC2)%N with false by ltb_is false.
    replace (0xC0 + c / 64 <? 0xE0)%N with true by ltb_is true.
    rewrite is_cont_low by div_lia.
    replace ((0xC0 + c / 64 - 0xC0) * 64 + (0x80 + c mod 64 - 0x80))%N with c
      by div_lia.
    reflexivity. }
  destruct (N.ltb_spec c 0x10000) as [H3|H3].
  { destruct ((0xD800 <=? c) && (c <=? 0xDFFF))%N eqn:Sg; [discriminate|].
    intro E.
    replace b with [0xE0 + c / 4096; 0x80 + (c / 64) mod 64; 0x80 + c mod 64]%N
      by congruence.
    clear E. cbn [app bytes_decode].
    replace (0xE0 + c / 4096 <? 0x80)%N with false by ltb_is false.
    replace (0xE0 + c / 4096 <? 0xC2)%N with false by ltb_is false.
    replace (0xE0 + c / 4096 <? 0xE0)%N with false by ltb_is false.
    replace (0xE0 + c / 4096 <? 0xF0)%N with true by ltb_is true.
    cbv zeta.
    rewrite !is_cont_low by div_lia.
    replace ((0xE0 + c / 4096 - 0xE0) * 4096 + (0x80 + (c / 64) mod 64 - 0x80) * 64
             + (0x80 + c mod 64 - 0x80))%N with c by div_lia.
    rewrite Sg.
    replace (0x800 <=? c)%N with true by (symmetry; apply N.leb_le; lia).
    reflexivity. }
  destruct (N.ltb_spec c 0x110000) as [H4|H4]; [|discriminate].
  intro E.
  replace b with [0xF0 + c / 262144; 0x80 + (c / 4096) mod 64;
                  0x80 + (c / 64) mod 64; 0x80 + c mod 64]%N by congruence.
  clear E. cbn [app bytes_decode].
  replace (0xF0 + c / 262144 <? 0x80)%N with false by ltb_is false.
  replace (0xF0 + c / 262144 <? 0xC2)%N with false by ltb_is false.
  replace (0xF0 + c / 262144 <? 0xE0)%N with false by ltb_is false.
  replace (0xF0 + c / 262144 <? 0xF0)%N with false by ltb_is false.
  replace (0xF0 + c / 262144 <? 0xF5)%N with true by ltb_is true.
  cbv zeta.
  rewrite !is_cont_low by div_lia.
  replace ((0xF0 + c / 262144 - 0xF0) * 262144
           + (0x80 + (c / 4096) mod 64 - 0x80) * 4096
           + (0x80 + (c / 64) mod 64 - 0x80) * 64
           + (0x80 + c mod 64 - 0x80))%N with c by div_lia.
  replace (0x10000 <=? c)%N with true by (symmetry; apply N.leb_le; lia).
  replace (c <? 0x110000)%N with true by ltb_is true.
  reflexivity.
Qed.

Lemma str_encode_decodes (s : pystr) : forall bs,
  str_encode s = Some bs -> bytes_decode bs = Some s.
Proof.
  induction s as [|c s IH]; simpl; intros bs H.
  - now injection H as <-.
  - destruct (utf8_encode_cp c) as [b|] eqn:E; [|discriminate].
    destruct (str_encode s) as [bs'|]; [|discriminate].
    injection H as <-. rewrite (@bytes_decode_encoded c b bs' E), (IH bs' eq_refl).
    reflexivity.
Qed.

(** What [encode] produces, [decode] reads back as the same text, and a
    chunk that [decode] accepts is the encoding of the text it returns and
    of no other.  So a chunk is read as a given message exactly when it is
    that message's UTF-8 bytes, and the frames the server sends read back
    as the framed text. *)
Theorem utf8_round_trip :
  (forall s bs, str_encode s = Some bs -> bytes_decode bs = Some s)
  /\ (forall bs s, bytes_decode bs = Some s -> str_encode s = Some bs)
  /\ (forall payload data,
        frame_bytes payload = Some data ->
        bytes_decode data = Some (frame payload)).
Proof.
  split; [exact str_encode_decodes|]. split; [exact bytes_decode_canonical|].
  intros payload data. apply str_encode_decodes.
Qed.

(** ** The INFORMATION frame of a room *)

Lemma get_player_values_ext (server_id : pystr) (w1 w2 : world) :
  players w1 = players w2 -> env w1 = env w2 ->
  match get_player_values server_id w1, get_player_values server_id w2 with
  | Ok v1 _, Ok v2 _ => v1 = v2
  | Raised e1 _, Raised e2 _ => e1 = e2
  | _, _ => False
  end.
Proof.
  intros P E. unfold get_player_values, bind, get_world. rewrite P, E.
  destruct (Dict.get server_id (players w2)) as [p|]; [|reflexivity].
  destruct (current_entry p) as [[station title url|title url duration|]|];
    try reflexivity.
  - now destruct station.
  - destruct (from_query (env w2) title) as [t|]; [|reflexivity].
    now destruct (Qlt_le_dec float_0_4 (certainty t)).
Qed.

Lemma room_frame_ext (server_id : pystr) (w1 w2 : world) :
  players w1 = players w2 -> env w1 = env w2 ->
  room_frame w1 server_id = room_frame w2 server_id.
Proof.
  intros P E. unfold room_frame.
  pose proof (get_player_values_ext server_id w1 w2 P E) as X.
  destruct (get_player_values server_id w1), (get_player_values server_id w2);
    try contradiction; congruence.
Qed.

(** Taking the snapshot, framing it and sending it, when that goes well. *)
Lemma send_room_frame (s : socket) (server_id : pystr) (data : bytes) (w : world) :
  room_frame w server_id = Some data ->
  send_raises (env w) s = false ->
  (v <- get_player_values server_id ;;
   d <- encode_utf8 (frame (information v)) ;;
   sendall s d) w
  = Ok tt (add_net (s, Sent data) w).
Proof.
  intros R F. unfold room_frame in R.
  destruct (get_player_values_outcome server_id w) as [[v G]|[G _]];
    rewrite G in R; [|discriminate].
  unfold bind at 1. rewrite G.
  unfold bind, encode_utf8. unfold frame_bytes in R. rewrite R.
  unfold ret, sendall, bind, get_world. now rewrite F.
Qed.

Lemma broadcast_information_loop_run (w : world) (items : list (socket * pystr)) :
  forall to_delete w0,
    players w0 = players w -> env w0 = env w ->
    (forall e, In e items ->
       send_raises (env w) (fst e) = false /\ room_frame w (snd e) <> None) ->
    broadcast_information_loop items to_delete w0
    = Ok to_delete
         (add_nets
            (map (fun e => (fst e,
                            Sent (match room_frame w (snd e) with
                                  | Some d => d
                                  | None => []
                                  end))) items) w0).
Proof.
  induction items as [|[sock sid] rest IH]; intros td w0 P E K; [reflexivity|].
  destruct (K (sock, sid) (or_introl eq_refl)) as [F R]. simpl in F, R.
  destruct (room_frame w sid) as [data|] eqn:RF; [|contradiction].
  assert (RF0 : room_frame w0 sid = Some data)
    by (rewrite (room_frame_ext sid w0 w P E); exact RF).
  cbn [broadcast_information_loop map fst snd]. rewrite RF.
  unfold bind at 1. unfold try_except.
  assert (B : (v <- get_player_values sid ;;
               d <- encode_utf8 (frame (information v)) ;;
               sendall sock d ;; ret td) w0
              = Ok td (add_net (sock, Sent data) w0)).
  { pose proof (@send_room_frame sock sid data w0 RF0) as X.
    rewrite E in X. specialize (X F).
    unfold bind in *.
    destruct (get_player_values sid w0) as [v w1|e w1]; [|discriminate].
    destruct (encode_utf8 (frame (information v)) w1) as [d w2|e w2];
      [|discriminate].
    now rewrite X. }
  rewrite B.
  rewrite IH; [reflexivity|exact P|exact E|].
  intros e I. apply K. now right.
Qed.




